(** * Menyentuh intake-form generator: validation, planning and marker resolution

    A shallow embedding of [scripts/generate_intake_form.py]:
    - [validate_spec] and its helpers ([is_hex_color]),
    - [marker_for] and the placeholder list built by [build_base_document],
    - the marker search loop of [replace_marker_with_control] and the error
      aggregation of [apply_com_controls], over an abstract Word automation
      channel,
    - [iter_all_paragraphs] and [apply_plain_fallback] over a store of
      paragraphs addressed by handles.

    Conventions of the embedding.
    - A Python [str] is a [string]: one [ascii] per character, which covers
      the characters with code points 0..255.
    - A parsed JSON document is a [json] tree; a Python [dict] is the list of
      its items in insertion order and lookups take the first binding of a key.
    - Exceptions are values of [exn]; a function that can raise returns a sum
      [exn + A]. *)

From Stdlib Require Import ZArith String Ascii List SpecFloat Lia.
From stdpp Require Import base gmap strings list pretty.

Set Warnings "-register-all".
Open Scope string_scope.
Open Scope list_scope.

(* ===================================================================== *)
(** ** Python strings *)
(* ===================================================================== *)

Definition nl : string := String (ascii_of_nat 10) EmptyString.

(** [str.isspace] on one character (code points below 256). *)
Definition py_isspace (c : ascii) : bool :=
  let n := nat_of_ascii c in
  (((9 <=? n) && (n <=? 13)) || ((28 <=? n) && (n <=? 32))
   || (n =? 133) || (n =? 160))%nat.

Fixpoint lstrip (s : string) : string :=
  match s with
  | EmptyString => EmptyString
  | String c s' => if py_isspace c then lstrip s' else s
  end.

Fixpoint rstrip (s : string) : string :=
  match s with
  | EmptyString => EmptyString
  | String c s' =>
      match rstrip s' with
      | EmptyString => if py_isspace c then EmptyString else String c EmptyString
      | r => String c r
      end
  end.

(** [s.strip()] *)
Definition strip (s : string) : string := rstrip (lstrip s).

(** Truth value of a string: non-empty. *)
Definition str_truthy (s : string) : bool :=
  match s with EmptyString => false | _ => true end.

(** [s.startswith(p)] *)
Fixpoint startswith (s p : string) {struct p} : bool :=
  match p with
  | EmptyString => true
  | String a p' =>
      match s with
      | EmptyString => false
      | String b s' => Ascii.eqb a b && startswith s' p'
      end
  end.

(** [sub in s] *)
Fixpoint py_in (sub s : string) : bool :=
  startswith s sub ||
  match s with
  | EmptyString => false
  | String _ s' => py_in sub s'
  end.

(** The scan of [str.replace] for a non-empty [old]: left to right, a match
    is replaced and the scan resumes after it ([skip] counts the characters
    of the current match still to be passed over). *)
Fixpoint replace_scan (old new : string) (skip : nat) (s : string) : string :=
  match s with
  | EmptyString => EmptyString
  | String c s' =>
      match skip with
      | S k => replace_scan old new k s'
      | O =>
          if startswith s old
          then new +:+ replace_scan old new (String.length old - 1) s'
          else String c (replace_scan old new 0 s')
      end
  end.

Fixpoint intersperse_after (new s : string) : string :=
  match s with
  | EmptyString => EmptyString
  | String c s' => String c (new +:+ intersperse_after new s')
  end.

(** [s.replace(old, new)]; an empty [old] matches before every character
    and at the end. *)
Definition py_replace (s old new : string) : string :=
  match old with
  | EmptyString => new +:+ intersperse_after new s
  | _ => replace_scan old new 0 s
  end.

(** [sep.join(parts)] *)
Fixpoint join (sep : string) (parts : list string) : string :=
  match parts with
  | [] => EmptyString
  | [p] => p
  | p :: rest => p +:+ sep +:+ join sep rest
  end.

Fixpoint string_forallb (f : ascii -> bool) (s : string) : bool :=
  match s with
  | EmptyString => true
  | String c s' => f c && string_forallb f s'
  end.

Fixpoint char_in (c : ascii) (s : string) : bool :=
  match s with
  | EmptyString => false
  | String d s' => Ascii.eqb c d || char_in c s'
  end.

(** The characters of a string as one-character strings (iteration over a
    [str]). *)
Fixpoint chars (s : string) : list string :=
  match s with
  | EmptyString => []
  | String c s' => String c EmptyString :: chars s'
  end.

(* ===================================================================== *)
(** ** Parsed JSON documents and Python exceptions *)
(* ===================================================================== *)

(** What [json.loads] returns: [None], [bool], [int], [float], [str],
    [list] and [dict] with string keys. *)
Inductive json : Type :=
| JNull
| JBool (b : bool)
| JInt (z : Z)
| JFloat (f : spec_float)
| JStr (s : string)
| JList (elements : list json)
| JDict (items : list (string * json)).

Inductive exn : Type :=
| KeyError (key : string)
| TypeError
| AttributeError
| ValueError
| SpecValidationError (message : string)
| RuntimeError (message : string).

(** [d.get(key)] on the items of a dict. *)
Fixpoint dict_get (key : string) (items : list (string * json)) : option json :=
  match items with
  | [] => None
  | (k, v) :: rest => if String.eqb k key then Some v else dict_get key rest
  end.

(** [key in d] *)
Definition dict_has (key : string) (items : list (string * json)) : bool :=
  match dict_get key items with Some _ => true | None => false end.

(** [d.get(key, default)] *)
Definition dict_get_default (key : string) (default : json)
    (items : list (string * json)) : json :=
  match dict_get key items with Some v => v | None => default end.

(** [v[key]] for a string key: [KeyError] on a dict without the key,
    [TypeError] on every other value. *)
Definition subscript (v : json) (key : string) : exn + json :=
  match v with
  | JDict items =>
      match dict_get key items with
      | Some x => inr x
      | None => inl (KeyError key)
      end
  | _ => inl TypeError
  end.

(** The values a [for] loop draws from [v]: the elements of a list, the
    characters of a string, the keys of a dict; other values are not
    iterable. *)
Definition py_iter (v : json) : exn + list json :=
  match v with
  | JList l => inr l
  | JStr s => inr (map JStr (chars s))
  | JDict items => inr (map (fun kv => JStr (fst kv)) items)
  | _ => inl TypeError
  end.

(** [hash(v)] succeeds: lists and dicts are unhashable. *)
Definition hashable (v : json) : bool :=
  match v with
  | JList _ | JDict _ => false
  | _ => true
  end.

Definition is_dict (v : json) : bool :=
  match v with JDict _ => true | _ => false end.

Definition is_str (v : json) : bool :=
  match v with JStr _ => true | _ => false end.

(** [isinstance(v, bool)] *)
Definition is_bool (v : json) : bool :=
  match v with JBool _ => true | _ => false end.

(** [isinstance(v, (int, float))]: [bool] is a subclass of [int]. *)
Definition is_int_or_float (v : json) : bool :=
  match v with
  | JInt _ | JFloat _ | JBool _ => true
  | _ => false
  end.

(** [v <= 0] for an instance of [int] or [float] ([True] is 1, [False] is 0;
    a NaN compares false). *)
Definition le_zero (v : json) : bool :=
  match v with
  | JInt z => (z <=? 0)%Z
  | JBool b => negb b
  | JFloat f => SFleb f (S754_zero false)
  | _ => false
  end.

(** [bool(v)]: the truth value of a parsed JSON value. *)
Definition py_truthy (v : json) : bool :=
  match v with
  | JNull => false
  | JBool b => b
  | JInt z => negb (z =? 0)%Z
  | JFloat (S754_zero _) => false
  | JFloat _ => true
  | JStr s => str_truthy s
  | JList l => match l with [] => false | _ => true end
  | JDict items => match items with [] => false | _ => true end
  end.

(** [isinstance(v, str) and v.strip()] as a truth value. *)
Definition is_nonblank_str (v : json) : bool :=
  match v with
  | JStr s => str_truthy (strip s)
  | _ => false
  end.

(* ===================================================================== *)
(** ** Constants of the module *)
(* ===================================================================== *)

Definition TOP_LEVEL_REQUIRED_KEYS : list string :=
  ["metadata"; "branding"; "document_layout"; "sections"].

Definition FIELD_REQUIRED_KEYS : list string :=
  ["id"; "label"; "type"; "required"; "help_text"].

Definition ALLOWED_FIELD_TYPES : list string :=
  ["text_short"; "text_long"; "checkbox"; "checkbox_group"; "dropdown";
   "date"; "signature_line"; "info_block"].

(** [str(sorted(ALLOWED_FIELD_TYPES))] *)
Definition sorted_allowed_repr : string :=
  "['checkbox', 'checkbox_group', 'date', 'dropdown', 'info_block', 'signature_line', 'text_long', 'text_short']".

Definition BRANDING_COLOR_KEYS : list string :=
  ["primary_color"; "secondary_color"; "accent_color"; "surface_color";
   "text_color"].

(** [v in ALLOWED_FIELD_TYPES] for a hashable [v]. *)
Definition in_allowed_types (v : json) : bool :=
  match v with
  | JStr s => existsb (String.eqb s) ALLOWED_FIELD_TYPES
  | _ => false
  end.

(** [v == literal] for a string literal. *)
Definition eq_str (v : json) (literal : string) : bool :=
  match v with
  | JStr s => String.eqb s literal
  | _ => false
  end.

(* ===================================================================== *)
(** ** is_hex_color and marker_for *)
(* ===================================================================== *)

Definition is_hex_color (value : string) : bool :=
  let stripped := strip value in
  let stripped :=
    match stripped with
    | String "#" rest => rest
    | _ => stripped
    end in
  if negb (String.length stripped =? 6)%nat then false
  else string_forallb (fun c => char_in c "0123456789abcdefABCDEF") stripped.

Definition marker_for (field_id : string) : string :=
  "[[FIELD:" +:+ field_id +:+ "]]".

(* ===================================================================== *)
(** ** Statements: mutable locals and exceptions *)
(* ===================================================================== *)

(** Statements with mutable locals of type [St] that may raise: the state
    is threaded, an exception ends the run. *)
Definition M (St A : Type) : Type := St -> exn + (A * St).

Definition ret {St A} (a : A) : M St A := fun st => inr (a, st).

Definition bind {St A B} (m : M St A) (k : A -> M St B) : M St B :=
  fun st =>
    match m st with
    | inl e => inl e
    | inr (a, st') => k a st'
    end.

Declare Scope py_scope.
Delimit Scope py_scope with py.
Bind Scope py_scope with M.
Notation "x <- m ;; k" := (bind m (fun x => k))
  (at level 100, m at next level, k at level 200, right associativity,
   only parsing) : py_scope.
Notation "m ;; k" := (bind m (fun _ => k))
  (at level 100, k at level 200, right associativity, only parsing)
  : py_scope.
Open Scope py_scope.

(** An expression that may raise. *)
Definition lift {St A} (r : exn + A) : M St A :=
  fun st => match r with inl e => inl e | inr a => inr (a, st) end.

(** [if cond: body] *)
Definition when {St} (cond : bool) (body : M St unit) : M St unit :=
  if cond then body else ret tt.

(** [for index, x in enumerate(l, start=index): body] *)
Fixpoint for_enumerate {St A} (body : nat -> A -> M St unit) (index : nat)
    (l : list A) : M St unit :=
  match l with
  | [] => ret tt
  | x :: rest => body index x ;; for_enumerate body (S index) rest
  end.

(** [for x in l: body] *)
Fixpoint for_each {St A} (body : A -> M St unit) (l : list A) : M St unit :=
  match l with
  | [] => ret tt
  | x :: rest => body x ;; for_each body rest
  end.

(* ===================================================================== *)
(** ** The validator *)
(* ===================================================================== *)

(** The two mutable locals of [validate_spec]: the [errors] list and the
    [seen_ids] set shared by field ids and option ids. *)
Record vstate : Type := VState {
  errors : list string;
  seen_ids : gset string
}.

Definition V (A : Type) : Type := M vstate A.

(** [errors.append(message)] *)
Definition append_error (message : string) : V unit :=
  fun st => inr (tt, VState (errors st ++ [message]) (seen_ids st)).

(** [seen_ids.add(x)] *)
Definition seen_add (x : string) : V unit :=
  fun st => inr (tt, VState (errors st) ({[ x ]} ∪ seen_ids st)).

(** [x in seen_ids] *)
Definition seen_mem (x : string) : V bool :=
  fun st => inr (bool_decide (x ∈ seen_ids st), st).

Section Validator.

(** Python's [repr] of floats, lists and dicts (a builtin): [str(v)] falls
    back on it for these values. *)
Variable py_repr : json -> string.

(** [str(v)], as an f-string or [str()] renders a parsed JSON value. *)
Definition py_str (v : json) : string :=
  match v with
  | JStr s => s
  | JInt z => pretty z
  | JBool true => "True"
  | JBool false => "False"
  | JNull => "None"
  | _ => py_repr v
  end.

Definition dup_field_message (field_id : string) : string :=
  "Dubbele field id gevonden: '" +:+ field_id +:+ "'.".

Definition dup_option_message (option_id : string) : string :=
  "Dubbele option id gevonden: '" +:+ option_id +:+ "'.".

Definition missing_top_level_message (key : string) : string :=
  "Ontbrekende top-level key: '" +:+ key +:+ "'.".

Definition field_id_message (field_prefix : string) : string :=
  field_prefix +:+ ".id moet een niet-lege string zijn.".

Definition field_type_message (field_prefix : string) (field_type : json) : string :=
  field_prefix +:+ ".type '" +:+ py_str field_type
    +:+ "' is ongeldig. Toegestaan: " +:+ sorted_allowed_repr +:+ ".".

Definition field_required_message (field_prefix : string) : string :=
  field_prefix +:+ ".required moet true of false zijn.".

Definition field_label_message (field_prefix : string) : string :=
  field_prefix +:+ ".label moet een niet-lege string zijn.".

Definition field_help_text_message (field_prefix : string) : string :=
  field_prefix +:+ ".help_text moet een string zijn (leeg is toegestaan).".

(** Body of the loop over the options of a checkbox_group (lines 221-239). *)
Definition validate_option (field_prefix : string) (option_index : nat)
    (option : json) : V unit :=
  let option_prefix := field_prefix +:+ ".options[" +:+ pretty option_index +:+ "]" in
  match option with
  | JDict items =>
      if negb (dict_has "id" items) || negb (dict_has "label" items) then
        append_error (option_prefix +:+ " mist 'id' en/of 'label'.")
      else
        option_id <- lift (subscript option "id") ;;
        option_label <- lift (subscript option "label") ;;
        match option_id with
        | JStr id =>
            if negb (str_truthy (strip id)) then
              append_error (option_prefix +:+ ".id moet een niet-lege string zijn.")
            else
              known <- seen_mem id ;;
              (if known then append_error (dup_option_message id)
               else seen_add id) ;;
              when (negb (is_nonblank_str option_label))
                (append_error (option_prefix +:+ ".label moet een niet-lege string zijn."))
        | _ => append_error (option_prefix +:+ ".id moet een niet-lege string zijn.")
        end
  | _ => append_error (option_prefix +:+ " moet een object zijn.")
  end.

(** [all(isinstance(option, str) and option.strip() for option in options)] *)
Definition all_nonblank_strings (options : list json) : bool :=
  forallb is_nonblank_str options.

(** The checks of a dropdown field (lines 209-214). *)
Definition validate_dropdown_options (field_prefix : string)
    (items : list (string * json)) : V unit :=
  match dict_get "options" items with
  | Some (JList (o :: os)) =>
      when (negb (all_nonblank_strings (o :: os)))
        (append_error (field_prefix +:+ ".options mag alleen niet-lege strings bevatten."))
  | _ => append_error (field_prefix +:+ ".options moet een niet-lege lijst zijn voor dropdown.")
  end.

(** The checks of a checkbox_group field (lines 216-239). *)
Definition validate_group_options (field_prefix : string)
    (items : list (string * json)) : V unit :=
  match dict_get "options" items with
  | Some (JList (o :: os)) =>
      for_enumerate (validate_option field_prefix) 1 (o :: os)
  | _ => append_error (field_prefix +:+ ".options moet een niet-lege lijst zijn voor checkbox_group.")
  end.

(** Body of the loop over the fields of a section (lines 168-239). *)
Definition validate_field (section_prefix : string) (field_index : nat)
    (field_spec : json) : V unit :=
  let field_prefix := section_prefix +:+ ".fields[" +:+ pretty field_index +:+ "]" in
  match field_spec with
  | JDict items =>
      for_each
        (fun field_key =>
           when (negb (dict_has field_key items))
             (append_error (field_prefix +:+ ": ontbrekende key '" +:+ field_key +:+ "'.")))
        FIELD_REQUIRED_KEYS ;;
      if existsb (fun field_key => negb (dict_has field_key items)) FIELD_REQUIRED_KEYS
      then ret tt
      else
        field_id <- lift (subscript field_spec "id") ;;
        field_type <- lift (subscript field_spec "type") ;;
        required <- lift (subscript field_spec "required") ;;
        help_text <- lift (subscript field_spec "help_text") ;;
        match field_id with
        | JStr id =>
            if negb (str_truthy (strip id)) then
              append_error (field_id_message field_prefix)
            else
              known <- seen_mem id ;;
              (if known then append_error (dup_field_message id)
               else seen_add id) ;;
              (if hashable field_type then
                 when (negb (in_allowed_types field_type))
                   (append_error (field_type_message field_prefix field_type))
               else lift (inl TypeError)) ;;
              when (negb (is_bool required))
                (append_error (field_required_message field_prefix)) ;;
              label <- lift (subscript field_spec "label") ;;
              when (negb (is_nonblank_str label))
                (append_error (field_label_message field_prefix)) ;;
              when (negb (is_str help_text))
                (append_error (field_help_text_message field_prefix)) ;;
              when (eq_str field_type "dropdown")
                (validate_dropdown_options field_prefix items) ;;
              when (eq_str field_type "checkbox_group")
                (validate_group_options field_prefix items)
        | _ => append_error (field_id_message field_prefix)
        end
  | _ => append_error (field_prefix +:+ " moet een object zijn.")
  end.

(** Body of the loop over the sections (lines 148-239). *)
Definition validate_section (section_index : nat) (section : json) : V unit :=
  let section_prefix := "sections[" +:+ pretty section_index +:+ "]" in
  match section with
  | JDict items =>
      for_each
        (fun section_key =>
           when (negb (dict_has section_key items))
             (append_error (section_prefix +:+ ": ontbrekende key '" +:+ section_key +:+ "'.")))
        ["id"; "title"; "fields"] ;;
      when (negb (match dict_get "id" items with
                  | Some v => is_nonblank_str v
                  | None => false
                  end))
        (append_error (section_prefix +:+ ".id moet een niet-lege string zijn.")) ;;
      when (negb (match dict_get "title" items with
                  | Some v => is_nonblank_str v
                  | None => false
                  end))
        (append_error (section_prefix +:+ ".title moet een niet-lege string zijn.")) ;;
      match dict_get "fields" items with
      | Some (JList (f :: fs)) =>
          for_enumerate (validate_field section_prefix) 1 (f :: fs)
      | _ => append_error (section_prefix +:+ ".fields moet een niet-lege lijst zijn.")
      end
  | _ => append_error (section_prefix +:+ " moet een object zijn.")
  end.

(** One of the three checks of lines 138-143: the value [branding.get]
    returns, with the empty string as default, must be a [str], and then
    [branding[key]] must be true. *)
Definition validate_branding_string (items : list (string * json))
    (key : string) : V unit :=
  match dict_get_default key (JStr EmptyString) items with
  | JStr _ =>
      v <- lift (subscript (JDict items) key) ;;
      when (negb (py_truthy v))
        (append_error ("'branding." +:+ key +:+ "' moet een niet-lege string zijn."))
  | _ => append_error ("'branding." +:+ key +:+ "' moet een niet-lege string zijn.")
  end.

Definition validate_branding (items : list (string * json)) : V unit :=
  for_each
    (fun color_key =>
       when (negb (dict_has color_key items)
             || negb (is_hex_color
                        (py_str (dict_get_default color_key (JStr EmptyString) items))))
         (append_error ("'branding." +:+ color_key
                          +:+ "' moet een hex kleur zijn, bv. #17372c.")))
    BRANDING_COLOR_KEYS ;;
  validate_branding_string items "heading_font" ;;
  validate_branding_string items "body_font" ;;
  validate_branding_string items "logo_path".

Definition validate_layout (items : list (string * json)) : V unit :=
  let margin_cm :=
    dict_get_default "margin_cm" (JFloat (S754_finite false 1 1)) items in
  when (negb (is_int_or_float margin_cm) || le_zero margin_cm)
    (append_error "'document_layout.margin_cm' moet een positief getal zijn.").

(** Lines 109-239: the checks made once the four top-level keys are there. *)
Definition validate_body (spec : json) : V unit :=
  metadata <- lift (subscript spec "metadata") ;;
  branding <- lift (subscript spec "branding") ;;
  layout <- lift (subscript spec "document_layout") ;;
  sections <- lift (subscript spec "sections") ;;
  when (negb (is_dict metadata)) (append_error "'metadata' moet een object zijn.") ;;
  when (negb (is_dict branding)) (append_error "'branding' moet een object zijn.") ;;
  when (negb (is_dict layout)) (append_error "'document_layout' moet een object zijn.") ;;
  when (match sections with JList (_ :: _) => false | _ => true end)
    (append_error "'sections' moet een niet-lege lijst zijn.") ;;
  match layout with
  | JDict items => validate_layout items
  | _ => ret tt
  end ;;
  match branding with
  | JDict items => validate_branding items
  | _ => ret tt
  end ;;
  match sections with
  | JList l => for_enumerate validate_section 1 l
  | _ => ret tt
  end.

(** The missing-key messages of lines 102-104. *)
Definition missing_top_level (items : list (string * json)) : list string :=
  flat_map
    (fun key => if dict_has key items then [] else [missing_top_level_message key])
    TOP_LEVEL_REQUIRED_KEYS.

(** The error list [validate_spec] has collected when it raises or returns:
    the message of the root check, the missing-key messages, or the list
    built by lines 109-239.  [inl] is an exception other than the final
    [SpecValidationError]. *)
Definition validate_spec_errors (spec : json) : exn + list string :=
  match spec with
  | JDict items =>
      match missing_top_level items with
      | [] =>
          match validate_body spec (VState [] ∅) with
          | inl e => inl e
          | inr (_, st) => inr (errors st)
          end
      | missing => inr missing
      end
  | _ => inr ["Spec-root moet een JSON-object zijn."]
  end.

(** [validate_spec(spec)]: [inr tt] when it returns, [inl] the exception it
    raises. *)
Definition validate_spec (spec : json) : exn + unit :=
  match validate_spec_errors spec with
  | inl e => inl e
  | inr [] => inr tt
  | inr errs => inl (SpecValidationError (join nl errs))
  end.

End Validator.

(* ===================================================================== *)
(** ** The placeholder planner *)
(* ===================================================================== *)

Record PlaceholderSpec : Type := MkPlaceholderSpec {
  marker : string;
  field_type : string;
  field_id : string;
  label : string;
  required : bool;
  options : list string
}.

(** A value stored in a [str] attribute of [PlaceholderSpec].  The dataclass
    annotates [marker], [field_type], [field_id] and [label] as [str]; the
    embedding keeps these attributes typed and stops with [TypeError] on a
    value of another type, which a validated specification never has. *)
Definition as_str (v : json) : exn + string :=
  match v with
  | JStr s => inr s
  | _ => inl TypeError
  end.

(** [v.get(key, default)]: only dicts have the method. *)
Definition get_method (v : json) (key : string) (default : json) : exn + json :=
  match v with
  | JDict items => inr (dict_get_default key default items)
  | _ => inl AttributeError
  end.

Section Planner.

Variable py_repr : json -> string.

(** [float(s)] accepts the string [s] (a builtin parser). *)
Variable float_parses : string -> bool.

(** [float(v)] raises nothing. *)
Definition float_ok (v : json) : exn + unit :=
  match v with
  | JInt _ | JFloat _ | JBool _ => inr tt
  | JStr s => if float_parses s then inr tt else inl ValueError
  | _ => inl TypeError
  end.

(** The local [placeholders] of [build_base_document]. *)
Definition P (A : Type) : Type := M (list PlaceholderSpec) A.

(** [placeholders.append(p)] *)
Definition append_placeholder (p : PlaceholderSpec) : P unit :=
  fun st => inr (tt, (st ++ [p])%list).

(** Body of the loop over the options of a checkbox_group (lines 558-574). *)
Definition plan_option (required_value : bool) (option : json) : P unit :=
  option_id <- lift (subscript option "id") ;;
  id <- lift (as_str option_id) ;;
  option_label <- lift (subscript option "label") ;;
  text <- lift (as_str option_label) ;;
  append_placeholder
    (MkPlaceholderSpec (marker_for id) "checkbox" id text required_value []).

(** Body of the loop over the fields of a section (lines 533-624).  The
    rows added to the table are python-docx calls and are not part of the
    embedding. *)
Definition plan_field (field_spec : json) : P unit :=
  type_value <- lift (subscript field_spec "type") ;;
  id_value <- lift (subscript field_spec "id") ;;
  label_value <- lift (subscript field_spec "label") ;;
  required_value <- lift (subscript field_spec "required") ;;
  _ <- lift (subscript field_spec "help_text") ;;
  let req := py_truthy required_value in
  if eq_str type_value "info_block" then ret tt
  else if eq_str type_value "checkbox_group" then
    group_options <- lift (subscript field_spec "options") ;;
    option_list <- lift (py_iter group_options) ;;
    for_each (plan_option req) option_list
  else if eq_str type_value "checkbox" then
    id <- lift (as_str id_value) ;;
    ty <- lift (as_str type_value) ;;
    text <- lift (as_str label_value) ;;
    append_placeholder (MkPlaceholderSpec (marker_for id) ty id text req [])
  else
    id <- lift (as_str id_value) ;;
    declared <- lift (get_method field_spec "options" (JList [])) ;;
    option_list <- lift (py_iter declared) ;;
    ty <- lift (as_str type_value) ;;
    text <- lift (as_str label_value) ;;
    append_placeholder
      (MkPlaceholderSpec (marker_for id) ty id text req
         (map (py_str py_repr) option_list)).

(** Body of the loop over the sections (lines 526-627). *)
Definition plan_section (section : json) : P unit :=
  _ <- lift (subscript section "title") ;;
  _ <- lift (get_method section "description" (JStr EmptyString)) ;;
  fields <- lift (subscript section "fields") ;;
  field_list <- lift (py_iter fields) ;;
  for_each plan_field field_list.

(** Lines 522-631 of [build_base_document]: the placeholder list it
    returns.  Building and saving the document are python-docx calls and are
    not part of the embedding. *)
Definition build_base_document (spec : json) : exn + list PlaceholderSpec :=
  let run : P unit :=
    _ <- lift (subscript spec "branding") ;;
    layout <- lift (subscript spec "document_layout") ;;
    spacing <- lift (get_method layout "section_spacing_pt" (JInt 18)) ;;
    _ <- lift (float_ok spacing) ;;
    sections <- lift (subscript spec "sections") ;;
    section_list <- lift (py_iter sections) ;;
    for_each plan_section section_list in
  match run [] with
  | inl e => inl e
  | inr (_, placeholders) => inr placeholders
  end.

End Planner.

(* ===================================================================== *)
(** ** Documents and the plain-text fallback *)
(* ===================================================================== *)

(** A run of a paragraph: its text and its character formatting (0 is the
    formatting of a fresh run). *)
Record run : Type := MkRun {
  run_text : string;
  run_format : nat
}.

Definition paragraph : Type := list run.

(** [paragraph.text]: the texts of the runs, concatenated. *)
Definition paragraph_text (p : paragraph) : string :=
  fold_right (fun r acc => run_text r +:+ acc) EmptyString p.

(** [paragraph.text = text]: the runs are replaced by one fresh run. *)
Definition set_paragraph_text (p : paragraph) (text : string) : paragraph :=
  [MkRun text 0].

(** Paragraphs are objects: the document holds them in a store and its
    structure refers to them by handle, so that a paragraph reached twice
    (python-docx lists the cell of a merged area once per grid column) is the
    same paragraph both times. *)
Definition handle : Type := nat.

(** A table cell: its own paragraphs and the tables nested in it; a table is
    the list of its rows, a row the list [row.cells]. *)
Inductive cell : Type :=
| Cell (cell_paragraphs : list handle) (cell_tables : list (list (list cell))).

Definition table : Type := list (list cell).

Definition cell_paragraphs (c : cell) : list handle :=
  match c with Cell ps _ => ps end.

Definition cell_tables (c : cell) : list table :=
  match c with Cell _ ts => ts end.

Record Document : Type := MkDocument {
  doc_paragraphs : list handle;   (* [doc.paragraphs]: the body paragraphs *)
  doc_tables : list table;        (* [doc.tables]: the tables of the body *)
  doc_store : list paragraph      (* the paragraph behind each handle *)
}.

(** The handles [iter_all_paragraphs(doc)] yields, in order. *)
Definition iter_all_paragraphs (doc : Document) : list handle :=
  (doc_paragraphs doc
   ++ flat_map
        (fun t : table =>
           flat_map (fun row : list cell => flat_map cell_paragraphs row) t)
        (doc_tables doc))%list.

(** [replacement_map[key] = value] on a dict kept as its items in insertion
    order: an existing key keeps its place and takes the new value. *)
Fixpoint map_set (key value : string) (m : list (string * string))
    : list (string * string) :=
  match m with
  | [] => [(key, value)]
  | (k, v) :: rest =>
      if String.eqb k key then (k, value) :: rest
      else (k, v) :: map_set key value rest
  end.

(** The literal that stands for a control of the given type (lines 797-808). *)
Definition fallback_glyph (type_name : string) : string :=
  if String.eqb type_name "checkbox" then "[ ]"
  else if String.eqb type_name "date" then "__-__-____"
  else if String.eqb type_name "dropdown" then "[Kies een optie]"
  else if String.eqb type_name "signature_line" then
    "______________________________ (Handtekening)"
  else if String.eqb type_name "text_long" then
    "____________________________________________"
  else "____________________________".

(** Lines 795-808. *)
Definition build_replacement_map (placeholders : list PlaceholderSpec)
    : list (string * string) :=
  fold_left
    (fun m placeholder =>
       map_set (marker placeholder) (fallback_glyph (field_type placeholder)) m)
    placeholders [].

(** Body of the loop over the replacement map (lines 814-815). *)
Definition substitute_step (updated_text : string) (entry : string * string)
    : string :=
  if py_in (fst entry) updated_text
  then py_replace updated_text (fst entry) (snd entry)
  else updated_text.

(** Lines 812-815: the text after the loop over the replacement map. *)
Definition substitute_text (replacement_map : list (string * string))
    (text : string) : string :=
  fold_left substitute_step replacement_map text.

(** The state of the loop of lines 811-817: the paragraph store and the
    handles whose text has been assigned, oldest first. *)
Record fallback_state : Type := MkFallbackState {
  fb_store : list paragraph;
  fb_assigned : list handle
}.

(** Body of the loop over the paragraphs (lines 812-817). *)
Definition fallback_visit (replacement_map : list (string * string))
    (st : fallback_state) (h : handle) : fallback_state :=
  match fb_store st !! h with
  | Some p =>
      let updated_text := substitute_text replacement_map (paragraph_text p) in
      if negb (String.eqb updated_text (paragraph_text p)) then
        MkFallbackState (<[h := set_paragraph_text p updated_text]> (fb_store st))
                        (fb_assigned st ++ [h])
      else st
  | None => st
  end.

(** [apply_plain_fallback]: the state after the loop; the saved document has
    the structure of the one loaded and the store of that state. *)
Definition apply_plain_fallback_run (doc : Document)
    (placeholders : list PlaceholderSpec) : fallback_state :=
  fold_left (fallback_visit (build_replacement_map placeholders))
    (iter_all_paragraphs doc) (MkFallbackState (doc_store doc) []).

Definition apply_plain_fallback (doc : Document)
    (placeholders : list PlaceholderSpec) : Document :=
  MkDocument (doc_paragraphs doc) (doc_tables doc)
    (fb_store (apply_plain_fallback_run doc placeholders)).

(* ===================================================================== *)
(** ** The interactive resolver over a Word automation channel *)
(* ===================================================================== *)

Definition WD_CONTENT_CONTROL_RICH_TEXT : Z := 0.
Definition WD_CONTENT_CONTROL_TEXT : Z := 1.
Definition WD_CONTENT_CONTROL_DROPDOWN : Z := 4.
Definition WD_CONTENT_CONTROL_DATE : Z := 6.
Definition WD_CONTENT_CONTROL_CHECKBOX : Z := 8.

(** What [replace_single_marker] asks of a content control: its kind, title
    and tag and the properties it sets by type. *)
Record control : Type := MkControl {
  control_kind : Z;
  control_title : string;
  control_tag : string;
  control_multiline : option bool;
  control_checked : option bool;
  control_date_format : option (string * Z);
  control_entries : list (string * string * nat)
}.

(** The entries of a dropdown (lines 709-711). *)
Fixpoint dropdown_entries (tag : string) (index : nat) (opts : list string)
    : list (string * string * nat) :=
  match opts with
  | [] => []
  | o :: rest =>
      (o, tag +:+ "_" +:+ pretty index, index) :: dropdown_entries tag (S index) rest
  end.

Definition SIGNATURE_LITERAL : string :=
  "______________________________ (Handtekening)".

Section Automation.

(** The open Word document and the four operations the resolver uses. *)
Variable word_doc : Type.
(** [word_doc.Content.End] *)
Variable content_end : word_doc -> Z.
(** [Range(cursor, end).Find.Execute()] for the marker text, forward, no
    wrap: [None] when nothing is found, else the bounds the range has taken. *)
Variable find_execute : word_doc -> Z -> Z -> string -> option (Z * Z).
(** [Range(start, end).Text = text] *)
Variable set_range_text : word_doc -> Z -> Z -> string -> word_doc.
(** [ContentControls.Add(kind, Range(at, at))] followed by the property
    assignments. *)
Variable add_content_control : word_doc -> Z -> control -> word_doc.

Definition replace_single_marker (doc : word_doc) (found_range : Z * Z)
    (placeholder : PlaceholderSpec) : exn + word_doc :=
  let type_name := field_type placeholder in
  let (start, stop) := found_range in
  if String.eqb type_name "signature_line" then
    inr (set_range_text doc start stop SIGNATURE_LITERAL)
  else
    let doc1 := set_range_text doc start stop EmptyString in
    if String.eqb type_name "text_short" then
      inr (add_content_control doc1 start
             (MkControl WD_CONTENT_CONTROL_TEXT (label placeholder)
                (field_id placeholder) (Some false) None None []))
    else if String.eqb type_name "text_long" then
      inr (add_content_control doc1 start
             (MkControl WD_CONTENT_CONTROL_RICH_TEXT (label placeholder)
                (field_id placeholder) (Some true) None None []))
    else if String.eqb type_name "checkbox" then
      inr (add_content_control doc1 start
             (MkControl WD_CONTENT_CONTROL_CHECKBOX (label placeholder)
                (field_id placeholder) None (Some false) None []))
    else if String.eqb type_name "dropdown" then
      inr (add_content_control doc1 start
             (MkControl WD_CONTENT_CONTROL_DROPDOWN (label placeholder)
                (field_id placeholder) None None None
                (("Kies een optie", field_id placeholder +:+ "_0", 1)
                   :: dropdown_entries (field_id placeholder) 2 (options placeholder))))
    else if String.eqb type_name "date" then
      inr (add_content_control doc1 start
             (MkControl WD_CONTENT_CONTROL_DATE (label placeholder)
                (field_id placeholder) None None (Some ("dd-MM-yyyy", 1043%Z)) []))
    else
      inl (RuntimeError ("Onbekend field_type voor COM-replacement: " +:+ type_name)).

(** The [while] loop of [replace_marker_with_control], entered with the
    given [cursor] and [replaced_count].  [None]: the loop has not ended
    within [fuel] iterations. *)
Fixpoint replace_marker_loop (fuel : nat) (doc : word_doc)
    (placeholder : PlaceholderSpec) (cursor : Z) (replaced_count : nat)
    : option (exn + (nat * word_doc)) :=
  match fuel with
  | O => None
  | S fuel' =>
      if (cursor <=? content_end doc)%Z then
        match find_execute doc cursor (content_end doc) (marker placeholder) with
        | None => Some (inr (replaced_count, doc))
        | Some (start, stop) =>
            let next_cursor := Z.max stop (cursor + 1) in
            match replace_single_marker doc (start, stop) placeholder with
            | inl e => Some (inl e)
            | inr doc' =>
                replace_marker_loop fuel' doc' placeholder next_cursor
                  (S replaced_count)
            end
        end
      else Some (inr (replaced_count, doc))
  end.

Definition replace_marker_with_control (fuel : nat) (doc : word_doc)
    (placeholder : PlaceholderSpec) : option (exn + (nat * word_doc)) :=
  replace_marker_loop fuel doc placeholder 0 0.

Definition not_found_message (placeholder : PlaceholderSpec) : string :=
  "Marker niet gevonden in document: " +:+ marker placeholder.

Definition repeated_message (count : nat) (placeholder : PlaceholderSpec) : string :=
  "Marker kwam meerdere keren voor (" +:+ pretty count +:+ "x): "
    +:+ marker placeholder.

(** Lines 751-760: the loop over the placeholders, entered with the given
    [replacement_errors]. *)
Fixpoint resolve_placeholders (fuel : nat) (doc : word_doc)
    (placeholders : list PlaceholderSpec) (replacement_errors : list string)
    : option (exn + (word_doc * list string)) :=
  match placeholders with
  | [] => Some (inr (doc, replacement_errors))
  | placeholder :: rest =>
      match replace_marker_with_control fuel doc placeholder with
      | None => None
      | Some (inl e) => Some (inl e)
      | Some (inr (count, doc')) =>
          resolve_placeholders fuel doc' rest
            (if (count =? 0)%nat then
               replacement_errors ++ [not_found_message placeholder]
             else if (1 <? count)%nat then
               replacement_errors ++ [repeated_message count placeholder]
             else replacement_errors)
      end
  end.

Definition aggregated_message (replacement_errors : list string) : string :=
  "Niet alle markers konden correct worden vervangen:" +:+ nl
    +:+ join nl replacement_errors.

(** [apply_com_controls] on the document opened from [base_doc_path].
    [Some (inr doc')]: [doc'] has been saved to [output_path];
    [Some (inl e)]: [e] was raised and nothing was saved; [None]: a marker
    loop has not ended within [fuel] iterations.  [com_available] tells
    whether [win32com.client] could be imported. *)
Definition apply_com_controls (com_available : bool) (fuel : nat)
    (doc : word_doc) (placeholders : list PlaceholderSpec)
    : option (exn + word_doc) :=
  if negb com_available then
    Some (inl (RuntimeError
      "pywin32/Word COM is niet beschikbaar. Installeer pywin32 of gebruik --no-com voor fallback-output."))
  else
    match resolve_placeholders fuel doc placeholders [] with
    | None => None
    | Some (inl e) => Some (inl e)
    | Some (inr (doc', [])) => Some (inr doc')
    | Some (inr (_, replacement_errors)) =>
        Some (inl (RuntimeError (aggregated_message replacement_errors)))
    end.



End Automation.

(** A text-only automation channel: the document is its text and the
    controls added so far; a control takes no room in the text. *)
Record text_doc : Type := MkTextDoc {
  td_text : string;
  td_controls : list (Z * control)
}.

Fixpoint string_drop (n : nat) (s : string) : string :=
  match n, s with
  | O, _ => s
  | S n', String _ s' => string_drop n' s'
  | S _, EmptyString => EmptyString
  end.

Fixpoint string_take (n : nat) (s : string) : string :=
  match n, s with
  | O, _ => EmptyString
  | S n', String c s' => String c (string_take n' s')
  | S _, EmptyString => EmptyString
  end.

(** Index of the first occurrence of [sub] in [s], counted from [offset]. *)
Fixpoint find_from (sub s : string) (offset : nat) : option nat :=
  if startswith s sub then Some offset
  else match s with
       | EmptyString => None
       | String _ s' => find_from sub s' (S offset)
       end.

Definition td_content_end (d : text_doc) : Z :=
  Z.of_nat (String.length (td_text d)).

Definition td_find (d : text_doc) (cursor stop : Z) (text : string)
    : option (Z * Z) :=
  match find_from text (string_drop (Z.to_nat cursor) (td_text d)) (Z.to_nat cursor) with
  | Some i =>
      let j := (Z.of_nat i + Z.of_nat (String.length text))%Z in
      if (j <=? stop)%Z then Some (Z.of_nat i, j) else None
  | None => None
  end.

Definition td_set_range_text (d : text_doc) (start stop : Z) (text : string)
    : text_doc :=
  MkTextDoc
    (string_take (Z.to_nat start) (td_text d) +:+ text
       +:+ string_drop (Z.to_nat stop) (td_text d))
    (td_controls d).

Definition td_add_content_control (d : text_doc) (at_pos : Z) (c : control)
    : text_doc :=
  MkTextDoc (td_text d) (td_controls d ++ [(at_pos, c)]).


(* ===================================================================== *)
(** ** Colours: clean_hex and hex_to_rgb *)
(* ===================================================================== *)

(** [c.upper()] for an ASCII character. *)
Definition ascii_upper (c : ascii) : ascii :=
  let n := nat_of_ascii c in
  if ((97 <=? n) && (n <=? 122))%nat then ascii_of_nat (n - 32) else c.

(** The value of a hexadecimal digit, in either case. *)
Definition hex_digit (c : ascii) : option Z :=
  let n := nat_of_ascii c in
  if ((48 <=? n) && (n <=? 57))%nat then Some (Z.of_nat (n - 48))
  else if ((65 <=? n) && (n <=? 70))%nat then Some (Z.of_nat (n - 55))
  else if ((97 <=? n) && (n <=? 102))%nat then Some (Z.of_nat (n - 87))
  else None.

(** The number written by a string of hexadecimal digits, read after the
    digits worth [acc]; [None] when a character is no digit. *)
Fixpoint hex_digits_value (acc : Z) (s : string) : option Z :=
  match s with
  | EmptyString => Some acc
  | String c s' =>
      match hex_digit c with
      | Some d => hex_digits_value (16 * acc + d) s'
      | None => None
      end
  end.

(** [RGBColor] of python-docx: three integers. *)
Record RGBColor : Type := MkRGBColor {
  red : Z;
  green : Z;
  blue : Z
}.

(** [RGBColor(r, g, b)]: the constructor refuses a value outside 0..255. *)
Definition new_RGBColor (r g b : Z) : exn + RGBColor :=
  if forallb (fun v => (0 <=? v)%Z && (v <=? 255)%Z) [r; g; b]
  then inr (MkRGBColor r g b)
  else inl ValueError.

(** The attributes of a [w:shd] element. *)
Record shading : Type := MkShading {
  shd_val : string;
  shd_color : string;
  shd_fill : string
}.

Section Colours.

(** [c.upper()] for a character beyond ASCII (a builtin table; the result
    can be more than one character). *)
Variable upper_beyond_ascii : ascii -> string.

(** [int(s, 16)] for a string that is not a non-empty run of hexadecimal
    digits (the builtin parser: signs, blanks, a prefix, underscores). *)
Variable int16_other : string -> exn + Z.

(** [s.upper()] *)
Fixpoint py_upper (s : string) : string :=
  match s with
  | EmptyString => EmptyString
  | String c s' =>
      (if (nat_of_ascii c <? 128)%nat then String (ascii_upper c) EmptyString
       else upper_beyond_ascii c) +:+ py_upper s'
  end.

(** [int(s, 16)] *)
Definition int16 (s : string) : exn + Z :=
  match s with
  | EmptyString => int16_other s
  | _ =>
      match hex_digits_value 0 s with
      | Some n => inr n
      | None => int16_other s
      end
  end.

(** [clean_hex(value, fallback)].  The value comes out of the parsed
    specification: on anything but a [str] the call [value.strip()] inside
    [is_hex_color] raises [AttributeError]. *)
Definition clean_hex (value : json) (fallback : string) : exn + string :=
  match value with
  | JStr text =>
      let source := if is_hex_color text then text else fallback in
      let source := strip source in
      let source :=
        match source with
        | String "#" rest => rest
        | _ => source
        end in
      inr (py_upper source)
  | _ => inl AttributeError
  end.

(** [set_cell_background(cell, hex_color)], seen on the [w:shd] children of
    the cell properties: the old ones are removed, then the fill is computed
    and the new element is appended.  The first component is the list of
    children after the call, also when the call raised. *)
Definition set_cell_background (shadings : list shading) (hex_color : json)
    : list shading * (exn + unit) :=
  match clean_hex hex_color "#FFFFFF" with
  | inl e => ([], inl e)
  | inr fill => ([MkShading "clear" "auto" fill], inr tt)
  end.

(** [hex_to_rgb(value, fallback)] *)
Definition hex_to_rgb (value : json) (fallback : string) : exn + RGBColor :=
  match clean_hex value fallback with
  | inl e => inl e
  | inr hex_value =>
      match int16 (string_take 2 hex_value) with
      | inl e => inl e
      | inr r =>
          match int16 (string_take 2 (string_drop 2 hex_value)) with
          | inl e => inl e
          | inr g =>
              match int16 (string_take 2 (string_drop 4 hex_value)) with
              | inl e => inl e
              | inr b => new_RGBColor r g b
              end
          end
      end
  end.

End Colours.

(* ===================================================================== *)
(** ** Paths, files and the run of the script *)
(* ===================================================================== *)

(** The exceptions met at this level: those above, the [FileNotFoundError]
    the script raises itself, an [OSError] of a file operation, and any other
    exception derived from [Exception] that a library call raises. *)
Inductive error : Type :=
| Raised (e : exn)
| FileNotFoundError (message : string)
| OSError (message : string)
| OtherException (message : string).

(** The namespace [parse_args] returns. *)
Record Namespace : Type := MkNamespace {
  arg_spec : string;
  arg_out : string;
  arg_logo : option string;
  arg_validate_only : bool;
  arg_no_com : bool
}.

(** The namespace of a call without arguments: the defaults of lines
    59-83. *)
Definition default_args : Namespace :=
  MkNamespace "forms/intake_anamnese_spec.json"
    "output/Menyentuh_Intake_Anamnese.docx" None false false.

Section Script.

(** Python's [repr] of floats, lists and dicts, and of a string used as a
    key. *)
Variable py_repr : json -> string.

(** [pathlib.Path] and the file system, as far as the script uses them. *)
Variable path : Type.
Variable Path : string -> path.                    (* [Path(text)] *)
Variable path_str : path -> string.                (* [str(path)] *)
Variable is_absolute : path -> bool.               (* [path.is_absolute()] *)
Variable joinpath : path -> path -> path.          (* [left / right] *)
Variable parent : path -> path.                    (* [path.parent] *)
Variable path_resolve : path -> path.              (* [path.resolve()] *)
Variable cwd : path.                               (* [Path.cwd()] *)
Variable path_exists : path -> bool.               (* [path.exists()] *)
Variable is_file : path -> bool.                   (* [path.is_file()] *)
Variable read_text : path -> error + string.       (* [path.read_text(...)] *)
(** [json.loads(text)]; [inl] carries [str] of the [JSONDecodeError]. *)
Variable json_loads : string -> string + json.

Definition load_spec (spec_path : path) : error + json :=
  if negb (path_exists spec_path) then
    inl (FileNotFoundError ("Spec-bestand niet gevonden: " +:+ path_str spec_path))
  else
    match read_text spec_path with
    | inl e => inl e
    | inr text =>
        match json_loads text with
        | inl decode_error =>
            inl (Raised (SpecValidationError
                   ("Ongeldige JSON in " +:+ path_str spec_path +:+ ": "
                      +:+ decode_error)))
        | inr spec => inr spec
        end
    end.

(** [str(spec["branding"]["logo_path"])] *)
Definition spec_logo_path (spec : json) : exn + string :=
  match subscript spec "branding" with
  | inl e => inl e
  | inr branding =>
      match subscript branding "logo_path" with
      | inl e => inl e
      | inr v => inr (py_str py_repr v)
      end
  end.

(** [override_logo or str(spec["branding"]["logo_path"])]: the right operand
    is evaluated only for an override that is [None] or empty. *)
Definition logo_value_of (spec : json) (override_logo : option string)
    : exn + string :=
  match override_logo with
  | Some text => if str_truthy text then inr text else spec_logo_path spec
  | None => spec_logo_path spec
  end.

(** Lines 273-281: the paths that are tried, in order. *)
Definition possible_logo_paths (spec_path : path) (logo_value : string)
    : list path :=
  let candidate := Path logo_value in
  if is_absolute candidate then [candidate]
  else [joinpath cwd candidate;
        joinpath (parent spec_path) candidate;
        joinpath (parent (parent spec_path)) candidate].

Definition resolve_logo_path (spec_path : path) (spec : json)
    (override_logo : option string) : error + path :=
  match logo_value_of spec override_logo with
  | inl e => inl (Raised e)
  | inr logo_value =>
      let possible_paths := possible_logo_paths spec_path logo_value in
      match List.find (fun p => path_exists p && is_file p) possible_paths with
      | Some p => inr (path_resolve p)
      | None =>
          inl (FileNotFoundError
                 ("Logo-pad niet gevonden. Ontvangen: '" +:+ logo_value
                    +:+ "'. Gecontroleerde paden: "
                    +:+ join ", " (map path_str possible_paths)))
      end
  end.

(** What a run does besides computing: the lines it prints and the calls it
    makes on files, in order. *)
Inductive event : Type :=
| Printed (line : string)                       (* [print(line)] *)
| PrintedErr (line : string)                    (* [print(line, file=sys.stderr)] *)
| TempDirCreated                                (* entering the [with] block *)
| TempDirRemoved                                (* leaving it *)
| Built (spec : json) (logo_path base_doc_path : path)
| FallbackApplied (base_doc_path : path) (placeholders : list PlaceholderSpec)
| ParentsMade (file : path)                     (* [file.parent.mkdir(...)] *)
| Copied (source target : path)                 (* [shutil.copyfile] *)
| ComApplied (base_doc_path output_path : path) (placeholders : list PlaceholderSpec).

(** How the calls on files end in the environment of the run. *)
Variable temporary_directory : error + string.  (* [tmp_dir], once created *)
Variable built : json -> path -> path -> error + list PlaceholderSpec.
Variable fallback_applied : path -> list PlaceholderSpec -> error + unit.
Variable parents_made : path -> error + unit.
Variable copied : path -> path -> error + unit.
Variable com_applied : path -> path -> list PlaceholderSpec -> error + unit.

(** A step of the run: the events so far and the value or the exception. *)
Definition R (A : Type) : Type := list event * (error + A).

Definition r_ret {A} (a : A) : R A := ([], inr a).

Definition r_bind {A B} (m : R A) (k : A -> R B) : R B :=
  match m with
  | (events, inl e) => (events, inl e)
  | (events, inr a) => let (more, r) := k a in (events ++ more, r)
  end.

(** A call on files: the event, then its result. *)
Definition call {A} (ev : event) (result : error + A) : R A := ([ev], result).

(** An expression that may raise. *)
Definition r_lift {A} (result : error + A) : R A := ([], result).

(** [with tempfile.TemporaryDirectory(...) as tmp_dir: body]: the directory
    is removed when the block is left, by [return] or by an exception. *)
Definition with_temporary_directory {A} (body : string -> R A) : R A :=
  match temporary_directory with
  | inl e => ([], inl e)
  | inr tmp_dir =>
      let (events, r) := body tmp_dir in
      (TempDirCreated :: events ++ [TempDirRemoved], r)
  end.

Definition run_generation (spec_path output_path : path)
    (override_logo : option string) (validate_only no_com : bool) : R unit :=
  r_bind (r_lift (load_spec spec_path)) (fun spec =>
  r_bind (r_lift (match validate_spec py_repr spec with
                  | inl e => inl (Raised e)
                  | inr u => inr u
                  end)) (fun _ =>
  r_bind (r_lift (resolve_logo_path spec_path spec override_logo)) (fun logo_path =>
  if validate_only then
    r_bind (call (Printed ("Validatie geslaagd voor spec: " +:+ path_str spec_path))
              (inr tt)) (fun _ =>
    call (Printed ("Gevonden logo: " +:+ path_str logo_path)) (inr tt))
  else
    with_temporary_directory (fun tmp_dir =>
      let base_doc_path := joinpath (Path tmp_dir) (Path "base_form.docx") in
      r_bind (call (Built spec logo_path base_doc_path)
                (built spec logo_path base_doc_path)) (fun placeholders =>
      if no_com then
        r_bind (call (FallbackApplied base_doc_path placeholders)
                  (fallback_applied base_doc_path placeholders)) (fun _ =>
        r_bind (call (ParentsMade output_path) (parents_made output_path)) (fun _ =>
        r_bind (call (Copied base_doc_path output_path)
                  (copied base_doc_path output_path)) (fun _ =>
        r_bind (call (Printed "Waarschuwing: '--no-com' actief. Output bevat geen echte interactieve Word-controls.")
                  (inr tt)) (fun _ =>
        call (Printed ("Document opgeslagen op: " +:+ path_str output_path))
          (inr tt)))))
      else
        r_bind (call (ComApplied base_doc_path output_path placeholders)
                  (com_applied base_doc_path output_path placeholders)) (fun _ =>
        call (Printed ("Document met interactieve velden opgeslagen op: "
                         +:+ path_str output_path)) (inr tt))))))).

(** [str(exc)] for the builtin exceptions whose text the interpreter
    composes. *)
Variable builtin_message : exn -> string.

(** [str(exc)] *)
Definition error_str (e : error) : string :=
  match e with
  | Raised (SpecValidationError message) => message
  | Raised (RuntimeError message) => message
  | Raised (KeyError key) => py_repr (JStr key)
  | Raised other => builtin_message other
  | FileNotFoundError message => message
  | OSError message => message
  | OtherException message => message
  end.

(** The first [except] clause of [main]: [SpecValidationError],
    [FileNotFoundError], [RuntimeError], [OSError] and their subclasses. *)
Definition expected_error (e : error) : bool :=
  match e with
  | Raised (SpecValidationError _) | Raised (RuntimeError _) => true
  | Raised _ => false
  | FileNotFoundError _ | OSError _ => true
  | OtherException _ => false
  end.

(** [main()] on the namespace [parse_args] returned: the events and the exit
    status. *)
Definition main (args : Namespace) : list event * Z :=
  let spec_path := path_resolve (Path (arg_spec args)) in
  let output_path := path_resolve (Path (arg_out args)) in
  match run_generation spec_path output_path (arg_logo args)
          (arg_validate_only args) (arg_no_com args) with
  | (events, inr _) => (events, 0%Z)
  | (events, inl e) =>
      (events ++ [PrintedErr ((if expected_error e then "Fout: "
                               else "Onverwachte fout: ") +:+ error_str e)],
       1%Z)
  end.

End Script.

Arguments Printed {path} line.
Arguments PrintedErr {path} line.
Arguments TempDirCreated {path}.
Arguments TempDirRemoved {path}.
Arguments Built {path} spec logo_path base_doc_path.
Arguments FallbackApplied {path} base_doc_path placeholders.
Arguments ParentsMade {path} file.
Arguments Copied {path} source target.
Arguments ComApplied {path} base_doc_path output_path placeholders.

(* ===================================================================== *)
(** ** Notions used to state the properties *)
(* ===================================================================== *)

(** *** Ids the validator registers *)

Inductive id_kind : Type := FieldId | OptionId.

(** The duplicate-id message for an id of the given kind. *)
Definition duplicate_message (entry : id_kind * string) : string :=
  match entry with
  | (FieldId, id) => "Dubbele field id gevonden: '" +:+ id +:+ "'."
  | (OptionId, id) => "Dubbele option id gevonden: '" +:+ id +:+ "'."
  end.

(** A duplicate-id error is recognised by its opening words. *)
Definition is_duplicate_message (message : string) : bool :=
  startswith message "Dubbele ".

(** A field object with all five required keys. *)
Definition has_field_keys (items : list (string * json)) : bool :=
  forallb (fun key => dict_has key items) FIELD_REQUIRED_KEYS.

(** The id of an option object that has the keys id and label and a
    non-blank string as id. *)
Definition option_registered (option : json) : list (id_kind * string) :=
  match option with
  | JDict items =>
      if dict_has "id" items && dict_has "label" items then
        match dict_get "id" items with
        | Some (JStr id) => if str_truthy (strip id) then [(OptionId, id)] else []
        | _ => []
        end
      else []
  | _ => []
  end.

(** The id of a field object that has all five keys and a non-blank string
    as id, followed, for a checkbox_group with a non-empty list of options,
    by the ids of its options. *)
Definition field_registered (field_spec : json) : list (id_kind * string) :=
  match field_spec with
  | JDict items =>
      if has_field_keys items then
        match dict_get "id" items with
        | Some (JStr id) =>
            if str_truthy (strip id) then
              (FieldId, id)
              :: (if eq_str (dict_get_default "type" JNull items) "checkbox_group"
                  then match dict_get "options" items with
                       | Some (JList opts) => flat_map option_registered opts
                       | _ => []
                       end
                  else [])
            else []
        | _ => []
        end
      else []
  | _ => []
  end.

(** The ids of the fields of a section object whose fields are a list. *)
Definition section_registered (section : json) : list (id_kind * string) :=
  match section with
  | JDict items =>
      match dict_get "fields" items with
      | Some (JList fields) => flat_map field_registered fields
      | _ => []
      end
  | _ => []
  end.

(** The ids of the document, in reading order. *)
Definition registered_ids (spec : json) : list (id_kind * string) :=
  match spec with
  | JDict items =>
      match dict_get "sections" items with
      | Some (JList sections) => flat_map section_registered sections
      | _ => []
      end
  | _ => []
  end.

(** The entries of [l] whose id stands among the ids [before] or earlier in
    [l]: the occurrences beyond the first. *)
Fixpoint later_occurrences (before : list string) (l : list (id_kind * string))
    : list (id_kind * string) :=
  match l with
  | [] => []
  | entry :: rest =>
      (if existsb (String.eqb (snd entry)) before then [entry] else [])
      ++ later_occurrences (before ++ [snd entry]) rest
  end.

(** *** Inputs on which the validator raises nothing but its own error *)

(** A field that reaches the type check has a hashable type. *)
Definition field_crash_free (field_spec : json) : bool :=
  match field_spec with
  | JDict items =>
      if has_field_keys items && is_nonblank_str (dict_get_default "id" JNull items)
      then hashable (dict_get_default "type" JNull items)
      else true
  | _ => true
  end.

Definition section_crash_free (section : json) : bool :=
  match section with
  | JDict items =>
      match dict_get "fields" items with
      | Some (JList fields) => forallb field_crash_free fields
      | _ => true
      end
  | _ => true
  end.

(** A branding object has the three keys that lines 138-143 subscript. *)
Definition branding_crash_free (branding : json) : bool :=
  match branding with
  | JDict items =>
      dict_has "heading_font" items && dict_has "body_font" items
      && dict_has "logo_path" items
  | _ => true
  end.

Definition crash_free (spec : json) : bool :=
  match spec with
  | JDict items =>
      branding_crash_free (dict_get_default "branding" JNull items)
      && match dict_get "sections" items with
         | Some (JList sections) => forallb section_crash_free sections
         | _ => true
         end
  | _ => true
  end.

(** The state [st'] has the errors of [st] and possibly more. *)
Definition extends (st st' : vstate) : Prop :=
  exists added, errors st' = errors st ++ added.

(** A statement that only appends to [errors]. *)
Definition monotone {A} (m : V A) : Prop :=
  forall st a st', m st = inr (a, st') -> extends st st'.

(** A statement that registers the ids [ids]: what it appends holds, as
    duplicate-id errors, the messages of the occurrences beyond the first,
    and [seen_ids] grows by the ids. *)
Definition tracks {A} (m : V A) (ids : list (id_kind * string)) : Prop :=
  forall st a st' before,
    m st = inr (a, st') ->
    (forall x, x ∈ seen_ids st <-> List.In x before) ->
    exists added,
      errors st' = errors st ++ added
      /\ List.filter is_duplicate_message added
         = map duplicate_message (later_occurrences before ids)
      /\ (forall x, x ∈ seen_ids st' <-> List.In x (before ++ map snd ids)).

(** A statement that raises nothing. *)
Definition returns {A} (m : V A) : Prop :=
  forall st, exists a st', m st = inr (a, st').

(** *** The shape of a specification that passes validation *)

Definition valid_option (option : json) : bool :=
  match option with
  | JDict items =>
      is_nonblank_str (dict_get_default "id" JNull items)
      && is_nonblank_str (dict_get_default "label" JNull items)
  | _ => false
  end.

Definition valid_field (field_spec : json) : bool :=
  match field_spec with
  | JDict items =>
      let ty := dict_get_default "type" JNull items in
      has_field_keys items
      && is_nonblank_str (dict_get_default "id" JNull items)
      && in_allowed_types ty
      && is_bool (dict_get_default "required" JNull items)
      && is_nonblank_str (dict_get_default "label" JNull items)
      && is_str (dict_get_default "help_text" JNull items)
      && (if eq_str ty "dropdown"
          then match dict_get "options" items with
               | Some (JList (o :: os)) => all_nonblank_strings (o :: os)
               | _ => false
               end
          else true)
      && (if eq_str ty "checkbox_group"
          then match dict_get "options" items with
               | Some (JList (o :: os)) => forallb valid_option (o :: os)
               | _ => false
               end
          else true)
  | _ => false
  end.

Definition valid_section (section : json) : bool :=
  match section with
  | JDict items =>
      is_nonblank_str (dict_get_default "id" JNull items)
      && is_nonblank_str (dict_get_default "title" JNull items)
      && match dict_get "fields" items with
         | Some (JList (f :: fs)) => forallb valid_field (f :: fs)
         | _ => false
         end
  | _ => false
  end.

(** *** The placeholders a validated specification calls for *)







(** *** Inputs on which the planner raises nothing *)




(** What one visit of [apply_plain_fallback] does to the paragraph. *)
Definition fallback_paragraph (replacement_map : list (string * string))
    (p : paragraph) : paragraph :=
  let updated_text := substitute_text replacement_map (paragraph_text p) in
  if negb (String.eqb updated_text (paragraph_text p))
  then set_paragraph_text p updated_text
  else p.

(** The elements of [l], each kept at its first occurrence. *)
Fixpoint first_occurrences (l : list string) : list string :=
  match l with
  | [] => []
  | x :: rest =>
      x :: List.filter (fun y => negb (String.eqb y x)) (first_occurrences rest)
  end.

(** The glyph of the last placeholder whose marker is [m]. *)
Definition last_glyph (placeholders : list PlaceholderSpec) (m : string) : string :=
  fold_left
    (fun g placeholder =>
       if String.eqb (marker placeholder) m
       then fallback_glyph (field_type placeholder)
       else g)
    placeholders EmptyString.

(** Every distinct marker, in the order of first appearance in the
    placeholder list, replaced throughout the text by the glyph of the last
    placeholder that carries it. *)
Definition replace_all_markers (placeholders : list PlaceholderSpec)
    (text : string) : string :=
  fold_left (fun t m => py_replace t m (last_glyph placeholders m))
    (first_occurrences (map marker placeholders)) text.

(** Every paragraph of a table, those of the tables nested in its cells
    included. *)
Fixpoint cell_all_paragraphs (c : cell) : list handle :=
  match c with
  | Cell ps ts =>
      (ps ++ flat_map
               (fun t => flat_map (fun row => flat_map cell_all_paragraphs row) t)
               ts)%list
  end.

Definition table_all_paragraphs (t : table) : list handle :=
  flat_map (fun row => flat_map cell_all_paragraphs row) t.

(** Every paragraph of the document. *)
Definition all_paragraphs (doc : Document) : list handle :=
  (doc_paragraphs doc ++ flat_map table_all_paragraphs (doc_tables doc))%list.

(** The six literals [fallback_glyph] can return. *)
Definition GLYPHS : list string :=
  ["[ ]"; "__-__-____"; "[Kies een optie]";
   "______________________________ (Handtekening)";
   "____________________________________________";
   "____________________________"].

(** A placeholder whose marker is the one derived from its id and contains
    none of the six glyph literals. *)
Definition glyph_free_placeholder (placeholder : PlaceholderSpec) : bool :=
  String.eqb (marker placeholder) (marker_for (field_id placeholder))
  && forallb (fun g => negb (py_in g (marker placeholder))) GLYPHS.

(** Every "[" of [g] is followed, within [g], by a character other than "[". *)
Fixpoint no_open_pair (g : string) : bool :=
  match g with
  | EmptyString => true
  | String c rest =>
      (if Ascii.eqb c "["
       then match rest with
            | String d _ => negb (Ascii.eqb d "[")
            | EmptyString => false
            end
       else true)
      && no_open_pair rest
  end.

(** A "]" occurs in [g] at most as its last character. *)
Fixpoint close_only_last (g : string) : bool :=
  match g with
  | EmptyString => true
  | String c rest =>
      (if Ascii.eqb c "]"
       then match rest with EmptyString => true | _ => false end
       else true)
      && close_only_last rest
  end.

(** The shape of a marker that the glyphs cannot rebuild: it opens with
    "[[", closes with "]" and contains no glyph. *)
Definition glyph_free_marker (m : string) : Prop :=
  startswith m "[[" = true
  /\ (exists w, m = w +:+ "]")
  /\ forall g, List.In g GLYPHS -> py_in g m = false.

(** The id a marker was derived from: the text between "[[FIELD:" and the
    closing "]]". *)
Definition marker_id (m : string) : option string :=
  if startswith m "[[FIELD:" then
    let body := string_drop 8 m in
    let n := String.length body in
    if (2 <=? n)%nat && String.eqb (string_drop (n - 2) body) "]]"
    then Some (string_take (n - 2) body)
    else None
  else None.

(** *** Colours *)

(** A string of blanks. *)
Definition all_blank (s : string) : bool := string_forallb py_isspace s.

(** Six hexadecimal digits. *)
Definition six_hex_digits (h : string) : bool :=
  (String.length h =? 6)%nat
  && string_forallb (fun c => char_in c "0123456789abcdefABCDEF") h.

(** Six hexadecimal digits, letters in upper case. *)
Definition six_upper_hex_digits (h : string) : bool :=
  (String.length h =? 6)%nat
  && string_forallb (fun c => char_in c "0123456789ABCDEF") h.

(** The digit of a value below 16, in upper case. *)
Definition upper_hex_digit (d : Z) : ascii :=
  if (d <? 10)%Z then ascii_of_nat (Z.to_nat d + 48)
  else ascii_of_nat (Z.to_nat d + 55).

(** A component as two hexadecimal digits. *)
Definition hex_pair (v : Z) : string :=
  String (upper_hex_digit (v / 16)) (String (upper_hex_digit (v mod 16)) EmptyString).

(** A colour written as python-docx prints it: two upper-case hexadecimal
    digits per component. *)
Definition rgb_hex (c : RGBColor) : string :=
  hex_pair (red c) +:+ hex_pair (green c) +:+ hex_pair (blue c).

(** *** Specifications the validator accepts *)

(** A colour of the branding object: the key is there and [str] of its
    value is an accepted colour. *)
Definition valid_color (py_repr : json -> string) (items : list (string * json))
    (key : string) : bool :=
  dict_has key items
  && is_hex_color (py_str py_repr (dict_get_default key (JStr EmptyString) items)).

(** A font or path of the branding object: a non-empty string. *)
Definition valid_branding_string (items : list (string * json)) (key : string)
    : bool :=
  match dict_get key items with
  | Some (JStr s) => str_truthy s
  | _ => false
  end.

Definition BRANDING_STRING_KEYS : list string :=
  ["heading_font"; "body_font"; "logo_path"].

Definition valid_branding (py_repr : json -> string) (branding : json) : bool :=
  match branding with
  | JDict items =>
      forallb (valid_color py_repr items) BRANDING_COLOR_KEYS
      && forallb (valid_branding_string items) BRANDING_STRING_KEYS
  | _ => false
  end.

(** The margin, 2.0 when absent, is an [int] or [float] instance and not
    [<= 0]. *)
Definition valid_layout (layout : json) : bool :=
  match layout with
  | JDict items =>
      let margin_cm :=
        dict_get_default "margin_cm" (JFloat (S754_finite false 1 1)) items in
      is_int_or_float margin_cm && negb (le_zero margin_cm)
  | _ => false
  end.

(** No string occurs twice. *)
Fixpoint distinct (l : list string) : bool :=
  match l with
  | [] => true
  | x :: rest => negb (existsb (String.eqb x) rest) && distinct rest
  end.

(** The specifications without any error: the four parts have their shape
    and the ids of fields and options are pairwise distinct. *)
Definition well_formed (py_repr : json -> string) (spec : json) : bool :=
  match spec with
  | JDict items =>
      is_dict (dict_get_default "metadata" JNull items)
      && valid_branding py_repr (dict_get_default "branding" JNull items)
      && valid_layout (dict_get_default "document_layout" JNull items)
      && match dict_get "sections" items with
         | Some (JList (s :: ss)) => forallb valid_section (s :: ss)
         | _ => false
         end
      && distinct (map snd (registered_ids spec))
  | _ => false
  end.

(** A statement that, from a state in which the ids [ids] are new, returns
    without a new error and adds the ids to [seen_ids]. *)
Definition accepts {A} (m : V A) (ids : list string) : Prop :=
  forall st,
    List.NoDup ids -> (forall x, List.In x ids -> x ∉ seen_ids st) ->
    exists a st',
      m st = inr (a, st') /\ errors st' = errors st
      /\ (forall x, x ∈ seen_ids st' <-> x ∈ seen_ids st \/ List.In x ids).

(** A statement whose exceptions all satisfy [allowed]. *)
Definition raises_only {A} (allowed : exn -> Prop) (m : V A) : Prop :=
  forall st e, m st = inl e -> allowed e.

(** The exceptions [validate_spec] lets through besides its own: the
    [KeyError] of a font or path key and the [TypeError] of an unhashable
    field type. *)
Definition stray_exception (e : exn) : Prop :=
  e = TypeError \/ exists key, List.In key BRANDING_STRING_KEYS /\ e = KeyError key.

(** A statement that raises [e] from every state. *)
Definition always_raises {A} (m : V A) (e : exn) : Prop :=
  forall st, m st = inl e.

(** *** Placeholders as the planner builds them *)


(** A placeholder as the planner builds it: the marker is the one derived
    from the id, the type is neither info_block nor checkbox_group, and a
    checkbox carries no options. *)
Definition planned_well (p : PlaceholderSpec) : Prop :=
  marker p = marker_for (field_id p)
  /\ field_type p <> "info_block"
  /\ field_type p <> "checkbox_group"
  /\ (field_type p = "checkbox" -> options p = []).

(** A statement of the planner that only appends placeholders, each of
    which satisfies [Q]. *)
Definition appends (Q : PlaceholderSpec -> Prop) {A}
    (m : M (list PlaceholderSpec) A) : Prop :=
  forall st a st',
    m st = inr (a, st') ->
    exists added, st' = st ++ added /\ forall p, List.In p added -> Q p.

(** *** Dropdown entries *)

(** The value of an entry of a dropdown: the second of its three parts. *)
Definition entry_value (entry : string * string * nat) : string :=
  snd (fst entry).

(** The position given to an entry. *)
Definition entry_index (entry : string * string * nat) : nat := snd entry.

(** *** Runs of the script *)

(** An event that creates, changes or removes a file or directory. *)
Definition touches_files {path : Type} (ev : event path) : bool :=
  match ev with
  | Printed _ | PrintedErr _ => false
  | _ => true
  end.

(** A call of the interactive resolver. *)
Definition is_com_event {path : Type} (ev : event path) : bool :=
  match ev with
  | ComApplied _ _ _ => true
  | _ => false
  end.

(** A call of the fallback path: the fallback itself, the directory of the
    output and the copy. *)
Definition is_fallback_event {path : Type} (ev : event path) : bool :=
  match ev with
  | FallbackApplied _ _ | ParentsMade _ | Copied _ _ => true
  | _ => false
  end.

(** The last element of a list. *)
Fixpoint last_event {path : Type} (events : list (event path))
    : option (event path) :=
  match events with
  | [] => None
  | [ev] => Some ev
  | _ :: rest => last_event rest
  end.

(** *** Ids whose markers the glyphs cannot contain *)



(* ===================================================================== *)
(** ** Sample inputs *)
(* ===================================================================== *)

(** A stand-in for [repr]; no sample input holds a float, list or dict where
    [str] is applied. *)
Definition sample_repr (v : json) : string := "?".

Definition sample_branding : json :=
  JDict [("primary_color", JStr "#17372c"); ("secondary_color", JStr "#2d5647");
         ("accent_color", JStr "#c99642"); ("surface_color", JStr "#f4f1ea");
         ("text_color", JStr "#1f332c"); ("heading_font", JStr "Georgia");
         ("body_font", JStr "Calibri"); ("logo_path", JStr "assets/logo.png")].

Definition sample_field (id type_name : string) (extra : list (string * json)) : json :=
  JDict ([("id", JStr id); ("label", JStr "Vraag"); ("type", JStr type_name);
          ("required", JBool true); ("help_text", JStr EmptyString)] ++ extra).

Definition sample_option (id : string) : json :=
  JDict [("id", JStr id); ("label", JStr "Keuze")].

Definition sample_section (fields : list json) : json :=
  JDict [("id", JStr "s1"); ("title", JStr "Gegevens"); ("fields", JList fields)].

Definition sample_spec_with (layout : json) (sections : list json) : json :=
  JDict [("metadata", JDict []); ("branding", sample_branding);
         ("document_layout", layout); ("sections", JList sections)].


Definition text_paragraph (text : string) : paragraph := [MkRun text 0].

Definition ph_name : PlaceholderSpec :=
  MkPlaceholderSpec (marker_for "name") "text_short" "name" "Naam" true [].

Definition ph_pain : PlaceholderSpec :=
  MkPlaceholderSpec (marker_for "pain") "checkbox" "pain" "Pijn" false [].

Definition ph_fatigue : PlaceholderSpec :=
  MkPlaceholderSpec (marker_for "fatigue") "checkbox" "fatigue" "Moe" false [].

(** A document as [build_base_document] lays it out: one body paragraph and
    one single-column table with a title row, a label row and marker rows. *)
Definition flat_doc : Document :=
  MkDocument [0]
    [[[Cell [1] []]; [Cell [2] []]; [Cell [3] []]; [Cell [4] []]; [Cell [5] []]]]
    [ text_paragraph "Intake";
      [MkRun "Gegevens" 7];
      [MkRun "Naam" 3; MkRun " *" 4];
      text_paragraph "[[FIELD:name]]";
      text_paragraph "[[FIELD:pain]] Pijn";
      text_paragraph "[[FIELD:fatigue]] Moe" ].

(** A body table whose only cell holds paragraph 0 and a nested table whose
    only cell holds paragraph 1. *)
Definition nested_doc : Document :=
  MkDocument []
    [[[Cell [0] [[[Cell [1] []]]]]]]
    [ text_paragraph "[[FIELD:name]]"; text_paragraph "[[FIELD:name]]" ].

(** The option "name" repeats the id of the first field and the last field
    repeats the id of the option "pain". *)
Definition duplicate_ids_sections : list json :=
  [sample_section
     [sample_field "name" "text_short" [];
      sample_field "symptoms" "checkbox_group"
        [("options", JList [sample_option "pain"; sample_option "name"])];
      sample_field "pain" "date" []]].

Definition duplicate_ids_spec : json :=
  sample_spec_with (JDict []) duplicate_ids_sections.

(** The same sections in a document without the key metadata. *)
Definition duplicate_ids_no_metadata : json :=
  JDict [("branding", sample_branding); ("document_layout", JDict []);
         ("sections", JList duplicate_ids_sections)].

(** A field with the empty string as id and a type outside the enumeration. *)
Definition blank_id_bad_type_spec : json :=
  sample_spec_with (JDict [])
    [sample_section [sample_field EmptyString "bogus" []]].

(** A field with a proper id whose type, required flag, label and help text
    are all wrong. *)
Definition all_wrong_field : list (string * json) :=
  [("id", JStr "name"); ("label", JStr " "); ("type", JStr "bogus");
   ("required", JInt 1); ("help_text", JNull)].

Definition all_wrong_items : list (string * json) :=
  [("metadata", JDict []); ("branding", sample_branding);
   ("document_layout", JDict []);
   ("sections", JList [sample_section [JDict all_wrong_field]])].

Definition sample_float_parses (s : string) : bool := false.


(** A document text in which the loop replaces the marker of [ph_name]
    once, that of [ph_pain] twice and that of [ph_fatigue] never. *)
Definition sample_text_doc : text_doc :=
  MkTextDoc "[[FIELD:name]] [[FIELD:pain]] eerste keuze, tweede keuze [[FIELD:pain]]" [].

(** A checkbox whose id is the checkbox glyph, and a paragraph in which its
    marker is wrapped in a second marker frame. *)
Definition ph_glyph_id : PlaceholderSpec :=
  MkPlaceholderSpec (marker_for "[ ]") "checkbox" "[ ]" "Akkoord" false [].

Definition wrapped_doc : Document :=
  MkDocument [0] [] [ text_paragraph "[[FIELD:[[FIELD:[ ]]]]]" ].

(** Stand-ins for the builtin tables and parsers; no sample input reaches
    them. *)
Definition sample_upper_beyond_ascii (c : ascii) : string := String c EmptyString.

Definition sample_int16_other (s : string) : exn + Z := inl ValueError.

(** A stand-in for [repr] that quotes a string. *)
Definition quoting_repr (v : json) : string :=
  match v with
  | JStr s => "'" +:+ s +:+ "'"
  | _ => "?"
  end.

(** The sample specification with the number 123456 as primary colour. *)
Definition number_colour_spec : json :=
  JDict [("metadata", JDict []);
         ("branding",
          JDict [("primary_color", JInt 123456); ("secondary_color", JStr "#2d5647");
                 ("accent_color", JStr "#c99642"); ("surface_color", JStr "#f4f1ea");
                 ("text_color", JStr "#1f332c"); ("heading_font", JStr "Georgia");
                 ("body_font", JStr "Calibri"); ("logo_path", JStr "assets/logo.png")]);
         ("document_layout", JDict []);
         ("sections", JList [sample_section [sample_field "name" "text_short" []]])].

(** A specification whose branding has no body font, and whose only field
    has a blank label. *)
Definition no_body_font_items : list (string * json) :=
  [("metadata", JDict []);
   ("branding",
    JDict [("primary_color", JStr "#17372c"); ("secondary_color", JStr "#2d5647");
           ("accent_color", JStr "#c99642"); ("surface_color", JStr "#f4f1ea");
           ("text_color", JStr "#1f332c"); ("heading_font", JStr "Georgia");
           ("logo_path", JStr "assets/logo.png")]);
   ("document_layout", JDict []);
   ("sections",
    JList [sample_section
             [JDict [("id", JStr "name"); ("label", JStr " "); ("type", JStr "date");
                     ("required", JBool true); ("help_text", JStr EmptyString)]]])].

(** A field whose type is a list. *)
Definition list_type_field : json :=
  JDict [("id", JStr "age"); ("label", JStr "Leeftijd");
         ("type", JList [JStr "text_short"]); ("required", JBool false);
         ("help_text", JStr EmptyString)].

Definition list_type_items : list (string * json) :=
  [("metadata", JDict []); ("branding", sample_branding);
   ("document_layout", JDict []);
   ("sections",
    JList [sample_section [sample_field "name" "text_short" []];
           JDict [("id", JStr "s2"); ("title", JStr "Meer");
                  ("fields", JList [sample_field "city" "date" []; list_type_field;
                                    sample_field "street" "date" []])]])].

Definition ph_city : PlaceholderSpec :=
  MkPlaceholderSpec (marker_for "city") "dropdown" "city" "Stad" true
    ["Utrecht"; "Zwolle"].

(** A file system for the script: paths are their text, the working
    directory is /work, and two files exist. *)
Definition sample_is_absolute (p : string) : bool := startswith p "/".

Definition sample_joinpath (left right : string) : string :=
  if sample_is_absolute right then right else left +:+ "/" +:+ right.

Definition sample_parent (p : string) : string :=
  if String.eqb p "/work/forms/intake_anamnese_spec.json" then "/work/forms"
  else if String.eqb p "/work/forms" then "/work"
  else "/".

Definition sample_resolve (p : string) : string :=
  if sample_is_absolute p then p else "/work/" +:+ p.

Definition sample_exists (p : string) : bool :=
  String.eqb p "/work/forms/intake_anamnese_spec.json"
  || String.eqb p "/work/assets/logo.png".

Definition sample_read_text (p : string) : error + string := inr "{...}".

(** The file holds the specification without body font. *)
Definition sample_json_loads (text : string) : string + json :=
  inr (JDict no_body_font_items).

Definition sample_builtin_message (e : exn) : string := "?".

(* ===================================================================== *)
(** * Properties *)
(* ===================================================================== *)

(** ** Strings: prefixes, occurrences and replacement *)

#[local] Arguments String.append !s1 s2 : simpl nomatch.

Lemma append_nil_r (s : string) : s +:+ EmptyString = s.
Proof. induction s as [|c s IH]; simpl; [reflexivity | now rewrite IH]. Qed.

Lemma append_assoc (a b c : string) : (a +:+ b) +:+ c = a +:+ (b +:+ c).
Proof. induction a as [|x a IH]; simpl; [reflexivity | now rewrite IH]. Qed.

Lemma append_length (a b : string) :
  String.length (a +:+ b) = String.length a + String.length b.
Proof. induction a as [|x a IH]; simpl; [reflexivity | now rewrite IH]. Qed.

Lemma append_inv_head (a b c : string) : a +:+ b = a +:+ c -> b = c.
Proof.
  induction a as [|x a IH]; simpl; intros H; [exact H | ].
  injection H as H. now apply IH.
Qed.

Lemma append_inv_tail (a b c : string) : a +:+ c = b +:+ c -> a = b.
Proof.
  revert b. induction a as [|x a IH]; intros [|y b] H; simpl in H.
  - reflexivity.
  - exfalso. apply (f_equal String.length) in H. simpl in H.
    rewrite append_length in H. lia.
  - exfalso. apply (f_equal String.length) in H. simpl in H.
    rewrite append_length in H. lia.
  - injection H as -> H. f_equal. now apply IH.
Qed.

Lemma startswith_spec (s p : string) :
  startswith s p = true <-> exists r, s = p +:+ r.
Proof.
  revert s. induction p as [|c p IH]; intros s; simpl.
  - split; [intros _; now exists s | reflexivity].
  - destruct s as [|d s].
    + split; [discriminate | intros [r H]; discriminate].
    + rewrite andb_true_iff, Ascii.eqb_eq, IH. split.
      * intros [-> [r ->]]. now exists r.
      * intros [r H]. injection H as -> ->. split; [reflexivity | now exists r].
Qed.

Lemma startswith_app (p r : string) : startswith (p +:+ r) p = true.
Proof. apply startswith_spec. now exists r. Qed.

(** [sub in s] holds exactly when [s] splits around a copy of [sub]. *)
Lemma py_in_spec (sub s : string) :
  py_in sub s = true <-> exists a b, s = a +:+ sub +:+ b.
Proof.
  induction s as [|c s IH].
  - simpl. rewrite orb_false_r. rewrite startswith_spec. split.
    + intros [r H]. exists EmptyString, r. exact H.
    + intros [a [b H]]. destruct a; simpl in H; [now exists b | discriminate].
  - simpl. rewrite orb_true_iff, IH, startswith_spec. split.
    + intros [[r H] | [a [b H]]].
      * exists EmptyString, r. exact H.
      * exists (String c a), b. simpl. now rewrite H.
    + intros [a [b H]]. destruct a as [|x a]; simpl in H.
      * left. now exists b.
      * right. injection H as _ H. now exists a, b.
Qed.

Lemma string_drop_app (a b : string) :
  string_drop (String.length a) (a +:+ b) = b.
Proof. induction a as [|x a IH]; simpl; [now destruct b | exact IH]. Qed.

Lemma string_take_app (a b : string) :
  string_take (String.length a) (a +:+ b) = a.
Proof. induction a as [|x a IH]; simpl; [now destruct b | now rewrite IH]. Qed.

(** Passing over [k] characters is dropping them. *)
Lemma replace_scan_skip (old new : string) (k : nat) (s : string) :
  replace_scan old new k s = replace_scan old new 0 (string_drop k s).
Proof.
  revert s. induction k as [|k IH]; intros [|c s]; simpl; try reflexivity.
  rewrite IH. now destruct (string_drop k s).
Qed.

(** The two equations of the scan. *)
Lemma replace_scan_match (old new rest : string) (c : ascii) (o : string) :
  old = String c o ->
  replace_scan old new 0 (old +:+ rest) = new +:+ replace_scan old new 0 rest.
Proof.
  intros ->. cbn [append replace_scan].
  change (String c (o +:+ rest)) with (String c o +:+ rest).
  rewrite startswith_app. f_equal.
  rewrite replace_scan_skip.
  replace (String.length (String c o) - 1) with (String.length o)
    by (cbn [String.length]; lia).
  now rewrite string_drop_app.
Qed.

Lemma replace_scan_no_match (old new : string) (c : ascii) (s : string) :
  startswith (String c s) old = false ->
  replace_scan old new 0 (String c s) = String c (replace_scan old new 0 s).
Proof. intros H. cbn [replace_scan]. now rewrite H. Qed.

(** Without an occurrence, [replace] returns its input. *)
Lemma replace_scan_absent (old new : string) (s : string) :
  py_in old s = false -> replace_scan old new 0 s = s.
Proof.
  induction s as [|c s IH]; intros H; [reflexivity | ].
  simpl in H. apply orb_false_iff in H as [Hp Hin].
  rewrite replace_scan_no_match by exact Hp. now rewrite IH.
Qed.

Lemma py_replace_absent (s old new : string) :
  py_in old s = false -> py_replace s old new = s.
Proof.
  destruct old as [|c o].
  - intros H. exfalso. destruct s; simpl in H; discriminate.
  - intros H. now apply replace_scan_absent.
Qed.

(** The model of [str.replace], [strip] and [is_hex_color] on a few inputs. *)
Example py_replace_non_overlapping : py_replace "aaaa" "aa" "X" = "XX".
Proof. reflexivity. Qed.

Example py_replace_left_to_right : py_replace "abcabcab" "abc" "-" = "--ab".
Proof. reflexivity. Qed.

Example py_replace_empty_old : py_replace "abc" EmptyString "-" = "-a-b-c-".
Proof. reflexivity. Qed.

Example strip_both_ends : strip "  ab c  " = "ab c".
Proof. reflexivity. Qed.

Example is_hex_color_samples :
  is_hex_color " #17372c " = true /\ is_hex_color "17372C" = true
  /\ is_hex_color "#17372" = false /\ is_hex_color "#17372g" = false.
Proof. repeat split; reflexivity. Qed.

(** ** The replacement map *)

Lemma first_occurrences_In (x : string) (l : list string) :
  List.In x (first_occurrences l) <-> List.In x l.
Proof.
  induction l as [|y l IH]; simpl; [tauto | ].
  rewrite filter_In, IH. destruct (String.eqb_spec x y) as [->|Hne]; simpl.
  - tauto.
  - split; [tauto | ]. intros [H | H]; [now left | right; split; auto].
Qed.

Lemma first_occurrences_NoDup (l : list string) :
  List.NoDup (first_occurrences l).
Proof.
  induction l as [|y l IH]; simpl; constructor.
  - rewrite filter_In. intros [_ H]. now rewrite String.eqb_refl in H.
  - now apply List.NoDup_filter.
Qed.

Lemma first_occurrences_snoc (l : list string) (k : string) :
  first_occurrences (l ++ [k]) =
  if existsb (String.eqb k) l then first_occurrences l
  else first_occurrences l ++ [k].
Proof.
  induction l as [|x l IH]; simpl; [reflexivity | ].
  rewrite IH. destruct (String.eqb_spec k x) as [->|Hne]; simpl.
  - destruct (existsb (String.eqb x) l); [reflexivity | ].
    rewrite List.filter_app. simpl. rewrite String.eqb_refl. simpl.
    now rewrite app_nil_r.
  - destruct (existsb (String.eqb k) l); [reflexivity | ].
    rewrite List.filter_app. simpl.
    destruct (String.eqb_spec k x) as [->|_]; [contradiction | reflexivity].
Qed.

Lemma last_glyph_snoc (placeholders : list PlaceholderSpec)
    (placeholder : PlaceholderSpec) (m : string) :
  last_glyph (placeholders ++ [placeholder]) m =
  if String.eqb (marker placeholder) m
  then fallback_glyph (field_type placeholder)
  else last_glyph placeholders m.
Proof. unfold last_glyph. now rewrite fold_left_app. Qed.

(** Assigning a key of a dict whose keys are distinct. *)
Lemma map_set_tabulate (k v : string) (F : string -> string) (L : list string) :
  List.NoDup L ->
  map_set k v (map (fun m => (m, F m)) L) =
  map (fun m => (m, if String.eqb m k then v else F m))
      (if existsb (String.eqb k) L then L else L ++ [k]).
Proof.
  induction L as [|x L IH]; intros Hnd; simpl.
  - now rewrite String.eqb_refl.
  - inversion Hnd as [|? ? Hx HL]; subst.
    rewrite (String.eqb_sym k x).
    destruct (String.eqb x k) eqn:E; simpl.
    + apply String.eqb_eq in E as ->. rewrite String.eqb_refl. f_equal.
      apply map_ext_in. intros m Hm.
      destruct (String.eqb_spec m k) as [->|_]; [contradiction | reflexivity].
    + rewrite IH by exact HL.
      destruct (existsb (String.eqb k) L); simpl; now rewrite E.
Qed.

(** The dict built by lines 795-808, item by item. *)
Lemma build_replacement_map_items (placeholders : list PlaceholderSpec) :
  build_replacement_map placeholders =
  map (fun m => (m, last_glyph placeholders m))
      (first_occurrences (map marker placeholders)).
Proof.
  induction placeholders as [|ph phs IH] using rev_ind; [reflexivity | ].
  unfold build_replacement_map in *. rewrite fold_left_app. simpl.
  rewrite IH, map_app. simpl. rewrite first_occurrences_snoc.
  rewrite map_set_tabulate by apply first_occurrences_NoDup.
  assert (Hex : existsb (String.eqb (marker ph))
                  (first_occurrences (map marker phs))
                = existsb (String.eqb (marker ph)) (map marker phs)).
  { apply eq_true_iff_eq. rewrite !existsb_exists.
    split; intros [x [Hx Hk]]; exists x; split; auto;
      now apply first_occurrences_In. }
  rewrite Hex. apply map_ext. intros m. f_equal.
  rewrite last_glyph_snoc. now rewrite (String.eqb_sym m).
Qed.

Lemma build_replacement_map_keys (placeholders : list PlaceholderSpec) (k : string) :
  List.In k (map fst (build_replacement_map placeholders)) <->
  exists placeholder, List.In placeholder placeholders /\ marker placeholder = k.
Proof.
  rewrite build_replacement_map_items, map_map. simpl. rewrite map_id.
  rewrite first_occurrences_In, in_map_iff. firstorder.
Qed.

Lemma fallback_glyph_in_GLYPHS (type_name : string) :
  List.In (fallback_glyph type_name) GLYPHS.
Proof.
  unfold fallback_glyph, GLYPHS.
  repeat match goal with
         | |- context [if ?b then _ else _] => destruct b
         end; simpl; tauto.
Qed.

Lemma last_glyph_in_GLYPHS (placeholders : list PlaceholderSpec) (m : string) :
  List.In m (map marker placeholders) ->
  List.In (last_glyph placeholders m) GLYPHS.
Proof.
  induction placeholders as [|ph phs IH] using rev_ind; [intros [] | ].
  rewrite map_app, in_app_iff, last_glyph_snoc. simpl.
  destruct (String.eqb_spec (marker ph) m) as [_|Hne].
  - intros _. apply fallback_glyph_in_GLYPHS.
  - intros [H | [H | []]]; [now apply IH | contradiction].
Qed.

Lemma build_replacement_map_values (placeholders : list PlaceholderSpec)
    (k v : string) :
  List.In (k, v) (build_replacement_map placeholders) -> List.In v GLYPHS.
Proof.
  rewrite build_replacement_map_items, in_map_iff.
  intros [m [Heq Hm]]. injection Heq as -> <-.
  apply last_glyph_in_GLYPHS. now apply first_occurrences_In.
Qed.

(** ** One paragraph *)

(** The guard [if marker in updated_text] changes nothing: the loop is a
    chain of replacements. *)
Lemma substitute_text_unguarded (replacement_map : list (string * string))
    (text : string) :
  substitute_text replacement_map text =
  fold_left (fun t entry => py_replace t (fst entry) (snd entry))
    replacement_map text.
Proof.
  unfold substitute_text. revert text.
  induction replacement_map as [|[k v] rm IH]; intros text; simpl; [reflexivity | ].
  unfold substitute_step at 2. simpl.
  destruct (py_in k text) eqn:Hin; [apply IH | ].
  rewrite py_replace_absent by exact Hin. apply IH.
Qed.

Lemma substitute_text_spec (placeholders : list PlaceholderSpec) (text : string) :
  substitute_text (build_replacement_map placeholders) text =
  replace_all_markers placeholders text.
Proof.
  rewrite substitute_text_unguarded, build_replacement_map_items.
  unfold replace_all_markers.
  generalize (first_occurrences (map marker placeholders)). intros L.
  revert text. induction L as [|m L IH]; intros text; simpl; [reflexivity | apply IH].
Qed.

(** A text without any key of the map is returned as it is. *)
Lemma substitute_text_absent (replacement_map : list (string * string))
    (text : string) :
  (forall k, List.In k (map fst replacement_map) -> py_in k text = false) ->
  substitute_text replacement_map text = text.
Proof.
  unfold substitute_text.
  induction replacement_map as [|[k v] rm IH]; intros H; simpl; [reflexivity | ].
  unfold substitute_step at 2. simpl.
  rewrite (H k) by (simpl; now left). apply IH.
  intros k' Hk'. apply H. simpl. now right.
Qed.

Lemma fallback_paragraph_text (replacement_map : list (string * string))
    (p : paragraph) :
  paragraph_text (fallback_paragraph replacement_map p) =
  substitute_text replacement_map (paragraph_text p).
Proof.
  unfold fallback_paragraph.
  destruct (String.eqb_spec (substitute_text replacement_map (paragraph_text p))
              (paragraph_text p)) as [Heq|Hne]; simpl.
  - now rewrite Heq.
  - now rewrite append_nil_r.
Qed.

(** ** The loop over the paragraphs *)

Lemma fallback_visit_lookup (replacement_map : list (string * string))
    (st : fallback_state) (h' h : handle) :
  fb_store (fallback_visit replacement_map st h') !! h =
  (if Nat.eq_dec h' h then fallback_paragraph replacement_map else id)
    <$> (fb_store st !! h).
Proof.
  unfold fallback_visit.
  destruct (fb_store st !! h') as [p|] eqn:Hp.
  - unfold fallback_paragraph.
    destruct (negb (String.eqb _ _)) eqn:Hchg; simpl.
    + destruct (Nat.eq_dec h' h) as [->|Hne].
      * rewrite list_lookup_insert_eq by (eapply lookup_lt_Some; eauto).
        rewrite Hp. simpl. unfold fallback_paragraph. now rewrite Hchg.
      * rewrite list_lookup_insert_ne by exact Hne.
        now rewrite option_fmap_id.
    + destruct (Nat.eq_dec h' h) as [->|Hne].
      * rewrite Hp. simpl. unfold fallback_paragraph. now rewrite Hchg.
      * now rewrite option_fmap_id.
  - destruct (Nat.eq_dec h' h) as [->|Hne].
    + now rewrite Hp.
    + now rewrite option_fmap_id.
Qed.

(** After the loop a paragraph has been through one visit per time its
    handle was yielded. *)
Lemma fallback_loop_lookup (replacement_map : list (string * string))
    (hs : list handle) (st : fallback_state) (h : handle) :
  fb_store (fold_left (fallback_visit replacement_map) hs st) !! h =
  Nat.iter (count_occ Nat.eq_dec hs h) (fallback_paragraph replacement_map)
    <$> (fb_store st !! h).
Proof.
  revert st. induction hs as [|h' hs IH]; intros st; simpl.
  - now rewrite option_fmap_id.
  - rewrite IH, fallback_visit_lookup.
    destruct (Nat.eq_dec h' h) as [->|Hne].
    + destruct (fb_store st !! h) as [p|]; simpl; [ | reflexivity].
      f_equal. now rewrite <- Nat.iter_succ_r.
    + now rewrite option_fmap_id.
Qed.

(** A paragraph that the substitution maps to itself, or a handle without
    paragraph, is never assigned and stays as it is. *)
Lemma fallback_loop_fixed (replacement_map : list (string * string))
    (hs : list handle) (st : fallback_state) (h : handle) :
  (forall p, fb_store st !! h = Some p ->
             substitute_text replacement_map (paragraph_text p) = paragraph_text p) ->
  ~ List.In h (fb_assigned st) ->
  fb_store (fold_left (fallback_visit replacement_map) hs st) !! h = fb_store st !! h
  /\ ~ List.In h (fb_assigned (fold_left (fallback_visit replacement_map) hs st)).
Proof.
  revert st. induction hs as [|h' hs IH]; intros st Hfix Hlog; simpl; [now split | ].
  assert (Hstep : fb_store (fallback_visit replacement_map st h') !! h = fb_store st !! h
                  /\ ~ List.In h (fb_assigned (fallback_visit replacement_map st h'))).
  { unfold fallback_visit.
    destruct (fb_store st !! h') as [q|] eqn:Hq; [ | now split].
    destruct (negb (String.eqb _ _)) eqn:Hchg; [ | now split]. simpl.
    destruct (Nat.eq_dec h' h) as [->|Hne].
    - rewrite (Hfix q Hq), String.eqb_refl in Hchg. discriminate.
    - split; [now apply list_lookup_insert_ne | ].
      rewrite in_app_iff. simpl. tauto. }
  destruct Hstep as [Hs Hl].
  destruct (IH (fallback_visit replacement_map st h')) as [IH1 IH2].
  - intros p Hp. apply Hfix. now rewrite <- Hs.
  - exact Hl.
  - split; [now rewrite IH1 | exact IH2].
Qed.

Lemma in_iter_all_paragraphs (doc : Document) (h : handle) :
  List.In h (iter_all_paragraphs doc) <->
  List.In h (doc_paragraphs doc)
  \/ exists (t : table) (row : list cell) (c : cell),
       List.In t (doc_tables doc) /\ List.In row t /\ List.In c row
       /\ List.In h (cell_paragraphs c).
Proof.
  unfold iter_all_paragraphs. rewrite in_app_iff, in_flat_map.
  split; (intros [H | H]; [now left | right]).
  - destruct H as [t [Ht H]]. apply in_flat_map in H as [row [Hrow H]].
    apply in_flat_map in H as [c [Hc H]]. now exists t, row, c.
  - destruct H as [t [row [c [Ht [Hrow [Hc H]]]]]].
    exists t. split; [exact Ht | ]. apply in_flat_map. exists row.
    split; [exact Hrow | ]. apply in_flat_map. now exists c.
Qed.

Lemma iter_fallback_paragraph_text (replacement_map : list (string * string))
    (n : nat) (p : paragraph) :
  paragraph_text (Nat.iter n (fallback_paragraph replacement_map) p) =
  Nat.iter n (substitute_text replacement_map) (paragraph_text p).
Proof.
  induction n as [|n IH]; simpl; [reflexivity | ].
  now rewrite fallback_paragraph_text, IH.
Qed.

(** ** C10: the frame of the fallback *)

(** C10.  A paragraph whose text contains the marker of no placeholder is
    the same paragraph, runs included, after [apply_plain_fallback], and its
    text was never assigned; every paragraph whose text was assigned is one
    whose text the substitution changes; and a visit alters the state only
    when the substitution changes the text of the visited paragraph. *)
Theorem fallback_frame (doc : Document) (placeholders : list PlaceholderSpec)
    (h : handle) (p : paragraph) :
  doc_store doc !! h = Some p ->
  (forall placeholder, List.In placeholder placeholders ->
     py_in (marker placeholder) (paragraph_text p) = false) ->
  doc_store (apply_plain_fallback doc placeholders) !! h = Some p
  /\ ~ List.In h (fb_assigned (apply_plain_fallback_run doc placeholders))
  /\ (forall h', List.In h' (fb_assigned (apply_plain_fallback_run doc placeholders)) ->
        exists q, doc_store doc !! h' = Some q
          /\ substitute_text (build_replacement_map placeholders) (paragraph_text q)
             <> paragraph_text q)
  /\ (forall st h',
        fallback_visit (build_replacement_map placeholders) st h' <> st ->
        exists q, fb_store st !! h' = Some q
          /\ substitute_text (build_replacement_map placeholders) (paragraph_text q)
             <> paragraph_text q).
Proof.
  intros Hp Hfree.
  set (rm := build_replacement_map placeholders).
  assert (Hfix : substitute_text rm (paragraph_text p) = paragraph_text p).
  { apply substitute_text_absent. intros k Hk.
    apply build_replacement_map_keys in Hk as [ph [Hin <-]]. now apply Hfree. }
  destruct (fallback_loop_fixed rm (iter_all_paragraphs doc)
              (MkFallbackState (doc_store doc) []) h) as [H1 H2].
  { simpl. intros q Hq. rewrite Hp in Hq. now injection Hq as <-. }
  { simpl. tauto. }
  split; [ | split; [ | split]].
  - simpl. unfold apply_plain_fallback_run. fold rm. now rewrite H1.
  - exact H2.
  - intros h' Hlog.
    destruct (doc_store doc !! h') as [q|] eqn:Hq.
    + exists q. split; [reflexivity | ]. intros Hq_fix.
      destruct (fallback_loop_fixed rm (iter_all_paragraphs doc)
                  (MkFallbackState (doc_store doc) []) h') as [_ Hn].
      * simpl. intros q' Hq'. rewrite Hq in Hq'. now injection Hq' as <-.
      * simpl. tauto.
      * now apply Hn.
    + exfalso.
      destruct (fallback_loop_fixed rm (iter_all_paragraphs doc)
                  (MkFallbackState (doc_store doc) []) h') as [_ Hn].
      * simpl. intros q' Hq'. rewrite Hq in Hq'. discriminate.
      * simpl. tauto.
      * now apply Hn.
  - intros st h' Hchg. unfold fallback_visit in Hchg.
    destruct (fb_store st !! h') as [q|]; [ | contradiction].
    exists q. split; [reflexivity | ]. intros Hsame. apply Hchg.
    now rewrite Hsame, String.eqb_refl.
Qed.

Lemma fallback_frame_witness :
  doc_store (apply_plain_fallback flat_doc [ph_name; ph_pain; ph_fatigue]) !! 2
    = Some [MkRun "Naam" 3; MkRun " *" 4]
  /\ ~ List.In 2 (fb_assigned
                    (apply_plain_fallback_run flat_doc [ph_name; ph_pain; ph_fatigue])).
Proof.
  destruct (fallback_frame flat_doc [ph_name; ph_pain; ph_fatigue] 2
              [MkRun "Naam" 3; MkRun " *" 4]) as [H1 [H2 _]].
  - reflexivity.
  - intros placeholder [<- | [<- | [<- | []]]]; reflexivity.
  - split; [exact H1 | exact H2].
Defined.

(** ** C7: which paragraphs the fallback visits and what it does to them *)

(** C7, amended.  The fallback visits the body paragraphs and the paragraphs
    that lie directly in a cell of a body table, and no other; a paragraph of
    the store ends with the text obtained by replacing, once per visit, every
    distinct marker in its order of first appearance by the glyph of the last
    placeholder carrying it.  A paragraph that is not visited (one of a table
    nested in a cell) keeps its text. *)
Theorem fallback_visits_top_level (doc : Document)
    (placeholders : list PlaceholderSpec) (h : handle) (p : paragraph) :
  doc_store doc !! h = Some p ->
  let visits := count_occ Nat.eq_dec (iter_all_paragraphs doc) h in
  paragraph_text <$> (doc_store (apply_plain_fallback doc placeholders) !! h)
    = Some (Nat.iter visits (replace_all_markers placeholders) (paragraph_text p))
  /\ (0 < visits <->
      List.In h (doc_paragraphs doc)
      \/ exists (t : table) (row : list cell) (c : cell),
           List.In t (doc_tables doc) /\ List.In row t /\ List.In c row
           /\ List.In h (cell_paragraphs c)).
Proof.
  intros Hp visits. split.
  - simpl. unfold apply_plain_fallback_run.
    rewrite fallback_loop_lookup. simpl. rewrite Hp. simpl. f_equal.
    rewrite iter_fallback_paragraph_text. fold visits.
    generalize (paragraph_text p). intros text.
    induction visits as [|n IH]; simpl; [reflexivity | ].
    now rewrite IH, substitute_text_spec.
  - unfold visits. rewrite <- in_iter_all_paragraphs.
    rewrite (count_occ_In Nat.eq_dec). unfold gt. reflexivity.
Qed.

Lemma fallback_visits_top_level_witness :
  paragraph_text <$>
    (doc_store (apply_plain_fallback flat_doc [ph_name; ph_pain; ph_fatigue]) !! 4)
  = Some "[ ] Pijn".
Proof.
  destruct (fallback_visits_top_level flat_doc [ph_name; ph_pain; ph_fatigue] 4
              (text_paragraph "[[FIELD:pain]] Pijn")) as [H _].
  - reflexivity.
  - exact H.
Defined.

(** C7 as stated fails: paragraph 1 of [nested_doc] lies in a cell of a
    table nested in a cell, and the fallback leaves its marker in place. *)
Lemma fallback_skips_nested_tables :
  List.In 1 (all_paragraphs nested_doc)
  /\ paragraph_text <$> (doc_store (apply_plain_fallback nested_doc [ph_name]) !! 1)
     = Some "[[FIELD:name]]"
  /\ py_in (marker ph_name) "[[FIELD:name]]" = true
  /\ paragraph_text <$> (doc_store (apply_plain_fallback nested_doc [ph_name]) !! 0)
     = Some "____________________________".
Proof. repeat split; vm_compute; tauto. Qed.

(** ** Replacement cannot rebuild a glyph-free marker *)

Lemma glyph_shapes (g : string) :
  List.In g GLYPHS ->
  no_open_pair g = true /\ close_only_last g = true /\ g <> EmptyString.
Proof.
  unfold GLYPHS. simpl.
  intros [<- | [<- | [<- | [<- | [<- | [<- | []]]]]]];
    (split; [reflexivity | split; [reflexivity | discriminate]]).
Qed.

Lemma no_open_pair_suffix (a gs : string) :
  no_open_pair (a +:+ gs) = true -> no_open_pair gs = true.
Proof.
  induction a as [|c a IH]; simpl; [tauto | ].
  intros H. apply andb_true_iff in H as [_ H]. now apply IH.
Qed.

(** No suffix of such a glyph can begin a "[[". *)
Lemma glyph_suffix_not_open (g a gs x : string) :
  no_open_pair g = true -> g = a +:+ gs -> gs <> EmptyString ->
  startswith (gs +:+ x) "[[" = false.
Proof.
  intros Hg -> Hne. apply no_open_pair_suffix in Hg.
  destruct gs as [|c gs]; [contradiction | ].
  cbn [no_open_pair] in Hg. apply andb_true_iff in Hg as [Hc _].
  cbn [String.append startswith].
  destruct (Ascii.eqb_spec "[" c) as [<-|Hcne]; [ | reflexivity].
  rewrite Ascii.eqb_refl in Hc.
  destruct gs as [|d gs]; [discriminate | ].
  cbn [String.append]. apply negb_true_iff in Hc.
  rewrite Ascii.eqb_sym, Hc. reflexivity.
Qed.

Lemma close_only_last_split (g q0 r : string) :
  close_only_last g = true -> g = q0 +:+ "]" +:+ r -> r = EmptyString.
Proof.
  revert g. induction q0 as [|c q0 IH]; intros g Hg ->; simpl in Hg.
  - apply andb_true_iff in Hg as [Hg _]. now destruct r.
  - apply andb_true_iff in Hg as [_ Hg]. now apply (IH _ Hg).
Qed.

Lemma py_in_app_cases (m g r : string) :
  py_in m (g +:+ r) = true ->
  (exists a gs, g = a +:+ gs /\ gs <> EmptyString /\ startswith (gs +:+ r) m = true)
  \/ py_in m r = true.
Proof.
  induction g as [|c g IH]; simpl; [now right | ].
  intros H. apply orb_true_iff in H as [H | H].
  - left. exists EmptyString, (String c g). now repeat split.
  - destruct (IH H) as [[a [gs [-> [Hne Hs]]]] | Hr]; [left | now right].
    now exists (String c a), gs.
Qed.

Lemma startswith_app_cases (g r q : string) :
  startswith (g +:+ r) q = true ->
  startswith q g = true \/ exists g2, g2 <> EmptyString /\ g = q +:+ g2.
Proof.
  revert g. induction q as [|c q IH]; intros g H.
  - destruct g as [|d g]; [now left | right]. now exists (String d g).
  - destruct g as [|d g]; [now left | ]. simpl in H.
    apply andb_true_iff in H as [Hc H]. apply Ascii.eqb_eq in Hc as ->.
    destruct (IH g H) as [Hl | [g2 [Hne ->]]].
    + left. simpl. now rewrite Ascii.eqb_refl.
    + right. now exists g2.
Qed.

Lemma startswith_trans (s m p : string) :
  startswith s m = true -> startswith m p = true -> startswith s p = true.
Proof.
  rewrite !startswith_spec. intros [r ->] [r' ->].
  exists (r' +:+ r). now rewrite append_assoc.
Qed.

Lemma suffix_closes (w a q : string) :
  a +:+ q = w +:+ "]" -> q <> EmptyString -> exists q0, q = q0 +:+ "]".
Proof.
  revert w. induction a as [|x a IH]; intros w H Hne; simpl in H.
  - now exists w.
  - destruct w as [|y w]; simpl in H.
    + injection H as _ H. destruct a; simpl in H; [contradiction | discriminate].
    + injection H as _ H. now apply (IH w).
Qed.

Section GlyphFree.

Variables (old g m : string).
Hypothesis Hg : List.In g GLYPHS.
Hypothesis Hm : glyph_free_marker m.

(** A suffix of the marker at the head of the replaced text was already at
    the head of the text. *)
Lemma replace_scan_head (t q : string) :
  (exists a, m = a +:+ q) ->
  startswith (replace_scan old g 0 t) q = true -> startswith t q = true.
Proof.
  destruct (glyph_shapes g Hg) as [_ [Hclose Hgne]].
  destruct Hm as [_ [[w Hw] Hfree]].
  revert q. induction t as [|c t IH]; intros q [a Ha] H; [exact H | ].
  cbn [replace_scan] in H.
  destruct (startswith (String c t) old) eqn:Hold.
  - destruct q as [|d q]; [reflexivity | exfalso].
    apply startswith_app_cases in H as [H | [g2 [Hne Hg2]]].
    + apply startswith_spec in H as [q2 Hq2].
      assert (Hin : py_in g m = true).
      { apply py_in_spec. exists a, q2. now rewrite Ha, Hq2. }
      rewrite (Hfree g Hg) in Hin. discriminate.
    + destruct (suffix_closes w a (String d q)) as [q0 Hq0];
        [now rewrite <- Ha | discriminate | ].
      apply Hne. apply (close_only_last_split g q0 g2 Hclose).
      now rewrite Hg2, Hq0, append_assoc.
  - destruct q as [|d q]; [reflexivity | ]. simpl in H |- *.
    apply andb_true_iff in H as [Hc H]. rewrite Hc. simpl.
    apply IH; [ | exact H].
    exists (a +:+ String d EmptyString). rewrite Ha, append_assoc. reflexivity.
Qed.

(** Replacing [old] by a glyph creates no occurrence of the marker. *)
Lemma replace_scan_creates_none (t : string) (k : nat) :
  py_in m (replace_scan old g k t) = true -> py_in m t = true.
Proof.
  destruct (glyph_shapes g Hg) as [Hopen _].
  pose proof Hm as [Hstart _].
  revert k. induction t as [|c t IH]; intros k H; [exact H | ].
  destruct k as [|k].
  - cbn [replace_scan] in H.
    destruct (startswith (String c t) old) eqn:Hold.
    + apply py_in_app_cases in H as [[a [gs [Hsplit [Hne Hs]]]] | H].
      * exfalso.
        pose proof (startswith_trans _ _ _ Hs Hstart) as Hs2.
        rewrite (glyph_suffix_not_open g a gs _ Hopen Hsplit Hne) in Hs2.
        discriminate.
      * simpl. rewrite (IH _ H). apply orb_true_r.
    + change (py_in m (String c (replace_scan old g 0 t)) = true) in H.
      cbn [py_in] in H. apply orb_true_iff in H as [H | H].
      * assert (Hhead : startswith (String c t) m = true).
        { apply replace_scan_head; [now exists EmptyString | ].
          cbn [replace_scan]. now rewrite Hold. }
        cbn [py_in]. now rewrite Hhead.
      * cbn [py_in]. rewrite (IH _ H). apply orb_true_r.
  - cbn [replace_scan] in H. cbn [py_in]. rewrite (IH _ H). apply orb_true_r.
Qed.

End GlyphFree.

(** After the replacement of a glyph-free marker by a glyph the marker does
    not occur. *)
Lemma replace_scan_removes (g m : string) (t : string) (k : nat) :
  List.In g GLYPHS -> glyph_free_marker m ->
  py_in m (replace_scan m g k t) = false.
Proof.
  intros Hg Hm.
  destruct (glyph_shapes g Hg) as [Hopen _].
  pose proof Hm as [Hstart _].
  revert k. induction t as [|c t IH]; intros k.
  - simpl. destruct m; [discriminate | reflexivity].
  - destruct k as [|k]; [ | apply IH].
    cbn [replace_scan].
    destruct (startswith (String c t) m) eqn:Hold.
    + destruct (py_in m (g +:+ replace_scan m g (String.length m - 1) t)) eqn:H;
        [exfalso | reflexivity].
      apply py_in_app_cases in H as [[a [gs [Hsplit [Hne Hs]]]] | H].
      * pose proof (startswith_trans _ _ _ Hs Hstart) as Hs2.
        rewrite (glyph_suffix_not_open g a gs _ Hopen Hsplit Hne) in Hs2.
        discriminate.
      * rewrite IH in H. discriminate.
    + cbn [py_in]. rewrite IH, orb_false_r.
      destruct (startswith (String c (replace_scan m g 0 t)) m) eqn:H;
        [exfalso | reflexivity].
      assert (Hhead : startswith (String c t) m = true).
      { apply (replace_scan_head m g m Hg Hm); [now exists EmptyString | ].
        cbn [replace_scan]. now rewrite Hold. }
      rewrite Hhead in Hold. discriminate.
Qed.

Lemma glyph_free_marker_nonempty (m : string) :
  glyph_free_marker m -> m <> EmptyString.
Proof. intros [H _] ->. discriminate. Qed.

Lemma substitute_step_removes (text k v : string) :
  glyph_free_marker k -> List.In v GLYPHS ->
  py_in k (substitute_step text (k, v)) = false.
Proof.
  intros Hk Hv. unfold substitute_step. simpl.
  destruct (py_in k text) eqn:Hin; [ | exact Hin].
  unfold py_replace. destruct k as [|c k].
  - now destruct (glyph_free_marker_nonempty _ Hk).
  - now apply replace_scan_removes.
Qed.

Lemma substitute_step_creates_none (text k v m : string) :
  glyph_free_marker k -> List.In v GLYPHS -> glyph_free_marker m ->
  py_in m text = false -> py_in m (substitute_step text (k, v)) = false.
Proof.
  intros Hk Hv Hm Hout. unfold substitute_step. simpl.
  destruct (py_in k text) eqn:Hin; [ | exact Hout].
  unfold py_replace. destruct k as [|c k].
  - now destruct (glyph_free_marker_nonempty _ Hk).
  - destruct (py_in m (replace_scan (String c k) v 0 text)) eqn:H; [ | reflexivity].
    apply (replace_scan_creates_none _ v m Hv Hm) in H. congruence.
Qed.

(** After the loop over the map no key occurs in the text. *)
Lemma substitute_text_removes_all (replacement_map : list (string * string))
    (text : string) :
  (forall k v, List.In (k, v) replacement_map ->
               glyph_free_marker k /\ List.In v GLYPHS) ->
  forall k, List.In k (map fst replacement_map) ->
            py_in k (substitute_text replacement_map text) = false.
Proof.
  unfold substitute_text. revert text. induction replacement_map as [|[k0 v0] rm IH]; intros text Hok k Hk;
    [destruct Hk | ].
  simpl. simpl in Hk.
  assert (Hrm : forall k v, List.In (k, v) rm ->
                            glyph_free_marker k /\ List.In v GLYPHS).
  { intros k' v' H. apply Hok. now right. }
  destruct (Hok k0 v0) as [Hk0 Hv0]; [now left | ].
  destruct (in_dec string_dec k (map fst rm)) as [Hin | Hout].
  - now apply IH.
  - destruct Hk as [<- | Hk]; [ | contradiction].
    clear IH Hout.
    assert (Hkeep : forall rm' t,
               (forall k v, List.In (k, v) rm' ->
                            glyph_free_marker k /\ List.In v GLYPHS) ->
               py_in k0 t = false ->
               py_in k0 (fold_left substitute_step rm' t) = false).
    { induction rm' as [|[k1 v1] rm' IH']; intros t Hok' Ht; [exact Ht | ].
      simpl. apply IH'; [intros k' v' H; apply Hok'; now right | ].
      destruct (Hok' k1 v1) as [Hk1 Hv1]; [now left | ].
      now apply substitute_step_creates_none. }
    apply Hkeep; [exact Hrm | ]. now apply substitute_step_removes.
Qed.

Lemma marker_for_closes (id : string) :
  exists w, marker_for id = w +:+ "]".
Proof.
  exists ("[[FIELD:" +:+ id +:+ "]"). unfold marker_for.
  rewrite !append_assoc. reflexivity.
Qed.

Lemma glyph_free_placeholder_marker (placeholder : PlaceholderSpec) :
  glyph_free_placeholder placeholder = true ->
  glyph_free_marker (marker placeholder).
Proof.
  unfold glyph_free_placeholder. intros H.
  apply andb_true_iff in H as [Heq Hfree]. apply String.eqb_eq in Heq.
  split; [ | split].
  - rewrite Heq. reflexivity.
  - rewrite Heq. apply marker_for_closes.
  - intros g Hg. rewrite forallb_forall in Hfree.
    apply negb_true_iff. now apply Hfree.
Qed.

(** A loop over paragraphs that the substitution maps to themselves leaves
    the state as it is. *)
Lemma fallback_loop_idle (replacement_map : list (string * string))
    (hs : list handle) (st : fallback_state) :
  (forall h p, List.In h hs -> fb_store st !! h = Some p ->
     substitute_text replacement_map (paragraph_text p) = paragraph_text p) ->
  fold_left (fallback_visit replacement_map) hs st = st.
Proof.
  induction hs as [|h hs IH]; intros Hfix; simpl; [reflexivity | ].
  assert (Hstep : fallback_visit replacement_map st h = st).
  { unfold fallback_visit. destruct (fb_store st !! h) as [p|] eqn:Hp; [ | reflexivity].
    rewrite (Hfix h p) by (simpl; auto). now rewrite String.eqb_refl. }
  rewrite Hstep. apply IH. intros h' p Hin. apply Hfix. now right.
Qed.

(** ** C8: one pass of the fallback is enough for glyph-free markers *)

(** C8, amended.  When the marker of every placeholder is the one derived
    from its id and contains none of the six glyph literals, one application
    of the fallback leaves no marker of any placeholder in a visited
    paragraph, and a second application leaves the document as it is and
    assigns no text. *)
Theorem fallback_idempotent_glyph_free (doc : Document)
    (placeholders : list PlaceholderSpec) :
  (forall placeholder, List.In placeholder placeholders ->
     glyph_free_placeholder placeholder = true) ->
  let once := apply_plain_fallback doc placeholders in
  (forall h p placeholder,
     List.In h (iter_all_paragraphs doc) -> doc_store once !! h = Some p ->
     List.In placeholder placeholders ->
     py_in (marker placeholder) (paragraph_text p) = false)
  /\ apply_plain_fallback once placeholders = once
  /\ fb_assigned (apply_plain_fallback_run once placeholders) = [].
Proof.
  intros Hfree once.
  set (rm := build_replacement_map placeholders).
  assert (Hrm : forall k v, List.In (k, v) rm ->
                            glyph_free_marker k /\ List.In v GLYPHS).
  { intros k v Hkv. split.
    - assert (Hk : List.In k (map fst rm)) by (apply in_map_iff; now exists (k, v)).
      apply build_replacement_map_keys in Hk as [ph [Hin <-]].
      apply glyph_free_placeholder_marker. now apply Hfree.
    - now apply (build_replacement_map_values placeholders k). }
  assert (Hclean : forall h p, List.In h (iter_all_paragraphs doc) ->
             doc_store once !! h = Some p ->
             forall k, List.In k (map fst rm) -> py_in k (paragraph_text p) = false).
  { intros h p Hh Hp k Hk. unfold once in Hp. simpl in Hp.
    unfold apply_plain_fallback_run in Hp. rewrite fallback_loop_lookup in Hp.
    simpl in Hp. fold rm in Hp.
    destruct (doc_store doc !! h) as [p0|]; [ | discriminate].
    simpl in Hp. injection Hp as <-.
    apply (count_occ_In Nat.eq_dec) in Hh.
    destruct (count_occ Nat.eq_dec (iter_all_paragraphs doc) h) as [|n]; [lia | ].
    cbn [Nat.iter nat_rect]. rewrite fallback_paragraph_text.
    now apply substitute_text_removes_all. }
  assert (Hidle : apply_plain_fallback_run once placeholders
                  = MkFallbackState (doc_store once) []).
  { unfold apply_plain_fallback_run. apply fallback_loop_idle.
    intros h p Hh Hp. simpl in Hp. apply substitute_text_absent.
    intros k Hk. apply (Hclean h p); assumption. }
  split; [ | split].
  - intros h p ph Hh Hp Hph. apply (Hclean h p Hh Hp).
    apply build_replacement_map_keys. now exists ph.
  - unfold apply_plain_fallback at 1. rewrite Hidle. reflexivity.
  - now rewrite Hidle.
Qed.

Lemma fallback_idempotent_glyph_free_witness :
  apply_plain_fallback
    (apply_plain_fallback flat_doc [ph_name; ph_pain; ph_fatigue])
    [ph_name; ph_pain; ph_fatigue]
  = apply_plain_fallback flat_doc [ph_name; ph_pain; ph_fatigue].
Proof.
  destruct (fallback_idempotent_glyph_free flat_doc [ph_name; ph_pain; ph_fatigue])
    as [_ [H _]].
  - intros placeholder [<- | [<- | [<- | []]]]; reflexivity.
  - exact H.
Defined.

(** C8 as stated fails: after one application [wrapped_doc] still holds the
    marker of its placeholder, and the second application changes it. *)
Lemma fallback_not_idempotent :
  paragraph_text <$>
    (doc_store (apply_plain_fallback wrapped_doc [ph_glyph_id]) !! 0)
  = Some (marker ph_glyph_id)
  /\ apply_plain_fallback (apply_plain_fallback wrapped_doc [ph_glyph_id]) [ph_glyph_id]
     <> apply_plain_fallback wrapped_doc [ph_glyph_id].
Proof. split; [reflexivity | vm_compute; discriminate]. Qed.

(** ** C5: marker derivation *)

Lemma marker_for_inj (a b : string) : marker_for a = marker_for b -> a = b.
Proof.
  unfold marker_for. intros H.
  apply append_inv_head in H. now apply append_inv_tail in H.
Qed.

Lemma marker_id_marker_for (id : string) : marker_id (marker_for id) = Some id.
Proof.
  unfold marker_id, marker_for. rewrite startswith_app.
  change 8 with (String.length "[[FIELD:"). rewrite string_drop_app.
  rewrite append_length. cbn [String.length].
  replace (String.length id + 2 - 2) with (String.length id) by lia.
  rewrite string_drop_app, string_take_app.
  replace (2 <=? String.length id + 2)%nat with true
    by (symmetry; apply Nat.leb_le; lia).
  reflexivity.
Qed.

(** C5.  [marker_for] is the function "[[FIELD:" + id + "]]" of the id
    alone; ids that differ have markers that differ; and the id is read back
    from the marker. *)
Theorem marker_for_injective_reversible :
  (forall id, marker_for id = "[[FIELD:" +:+ id +:+ "]]")
  /\ (forall a b, marker_for a = marker_for b -> a = b)
  /\ (forall a b, a <> b -> marker_for a <> marker_for b)
  /\ (forall id, marker_id (marker_for id) = Some id).
Proof.
  split; [reflexivity | ]. split; [exact marker_for_inj | ].
  split; [ | exact marker_id_marker_for].
  intros a b Hne H. apply Hne. now apply marker_for_inj.
Qed.

Lemma marker_for_injective_reversible_witness :
  marker_for "pain" <> marker_for "fatigue"
  /\ marker_id (marker_for "pain") = Some "pain".
Proof.
  destruct marker_for_injective_reversible as [_ [_ [Hne Hid]]].
  split; [apply Hne; discriminate | apply Hid].
Defined.

(** ** C4: missing top-level keys *)

Lemma missing_top_level_filter (items : list (string * json)) :
  missing_top_level items =
  map missing_top_level_message
    (List.filter (fun key => negb (dict_has key items)) TOP_LEVEL_REQUIRED_KEYS).
Proof.
  unfold missing_top_level, TOP_LEVEL_REQUIRED_KEYS. simpl.
  destruct (dict_has "metadata" items), (dict_has "branding" items),
    (dict_has "document_layout" items), (dict_has "sections" items); reflexivity.
Qed.

(** C4.  For a mapping that lacks one of the four top-level keys,
    [validate_spec] raises a [SpecValidationError] whose error list is one
    missing-key message per absent key, in the order of
    [TOP_LEVEL_REQUIRED_KEYS], and nothing else. *)
Theorem validate_spec_missing_top_level (py_repr : json -> string)
    (items : list (string * json)) :
  (exists key, List.In key TOP_LEVEL_REQUIRED_KEYS /\ dict_has key items = false) ->
  let absent :=
    List.filter (fun key => negb (dict_has key items)) TOP_LEVEL_REQUIRED_KEYS in
  validate_spec_errors py_repr (JDict items)
    = inr (map missing_top_level_message absent)
  /\ validate_spec py_repr (JDict items)
     = inl (SpecValidationError (join nl (map missing_top_level_message absent)))
  /\ length absent
     = length TOP_LEVEL_REQUIRED_KEYS
       - length (List.filter (fun key => dict_has key items) TOP_LEVEL_REQUIRED_KEYS).
Proof.
  intros [key [Hkey Hmiss]] absent.
  assert (Hne : absent <> []).
  { intros Habs. assert (Hin : List.In key absent).
    { apply filter_In. split; [exact Hkey | now rewrite Hmiss]. }
    rewrite Habs in Hin. destruct Hin. }
  assert (Herr : validate_spec_errors py_repr (JDict items)
                 = inr (map missing_top_level_message absent)).
  { unfold validate_spec_errors. rewrite missing_top_level_filter. fold absent.
    destruct absent; [contradiction | reflexivity]. }
  split; [exact Herr | split].
  - unfold validate_spec. rewrite Herr.
    destruct absent; [contradiction | reflexivity].
  - unfold absent, TOP_LEVEL_REQUIRED_KEYS. simpl.
    destruct (dict_has "metadata" items), (dict_has "branding" items),
      (dict_has "document_layout" items), (dict_has "sections" items); reflexivity.
Qed.

Lemma validate_spec_missing_top_level_witness :
  validate_spec sample_repr
    (JDict [("branding", JInt 3); ("sections", JList [JNull])])
  = inl (SpecValidationError
           (join nl ["Ontbrekende top-level key: 'metadata'.";
                     "Ontbrekende top-level key: 'document_layout'."])).
Proof.
  destruct (validate_spec_missing_top_level sample_repr
              [("branding", JInt 3); ("sections", JList [JNull])]) as [_ [H _]].
  - exists "metadata". split; [simpl; tauto | reflexivity].
  - exact H.
Defined.

(** ** C9: the margin check *)

(** The only message of [validate_layout], and when it is appended. *)
Lemma validate_layout_run (items : list (string * json)) (st : vstate) :
  validate_layout items st =
  inr (tt,
       let margin_cm :=
         dict_get_default "margin_cm" (JFloat (S754_finite false 1 1)) items in
       if negb (is_int_or_float margin_cm) || le_zero margin_cm
       then VState (errors st
                      ++ ["'document_layout.margin_cm' moet een positief getal zijn."])
                   (seen_ids st)
       else st).
Proof.
  unfold validate_layout, when. simpl.
  destruct (negb _ || _); reflexivity.
Qed.

Lemma validate_layout_absent (items : list (string * json)) (st : vstate) :
  dict_get "margin_cm" items = None -> validate_layout items st = inr (tt, st).
Proof.
  intros H. rewrite validate_layout_run. unfold dict_get_default. now rewrite H.
Qed.

(** C9 at the input [{"margin_cm": true}]: the value is a boolean, not a
    number, and the specification is accepted without any error; so is the
    float NaN.  The boolean [false] and the string "2" get the error. *)
Theorem margin_cm_true_accepted :
  let spec_with_margin (v : json) :=
    sample_spec_with (JDict [("margin_cm", v)])
      [sample_section [sample_field "name" "text_short" []]] in
  validate_spec sample_repr (spec_with_margin (JBool true)) = inr tt
  /\ validate_spec sample_repr (spec_with_margin (JFloat S754_nan)) = inr tt
  /\ validate_spec sample_repr (spec_with_margin (JBool false))
     = inl (SpecValidationError
              "'document_layout.margin_cm' moet een positief getal zijn.")
  /\ validate_spec sample_repr (spec_with_margin (JStr "2"))
     = inl (SpecValidationError
              "'document_layout.margin_cm' moet een positief getal zijn.").
Proof. repeat split; vm_compute; reflexivity. Qed.

(** ** C3: aggregation of the marker-resolution errors *)

Section AutomationFacts.

Variable word_doc : Type.
Variable content_end : word_doc -> Z.
Variable find_execute : word_doc -> Z -> Z -> string -> option (Z * Z).
Variable set_range_text : word_doc -> Z -> Z -> string -> word_doc.
Variable add_content_control : word_doc -> Z -> control -> word_doc.

Let run := apply_com_controls word_doc content_end find_execute
             set_range_text add_content_control.

Let marker_loop := replace_marker_loop word_doc content_end find_execute
                     set_range_text add_content_control.



(** On a channel where replacing a found marker does not lengthen the
    document, the marker loop ends: the distance from the cursor to the end
    of the content shrinks with every iteration. *)
Lemma replace_marker_loop_ends (placeholder : PlaceholderSpec) :
  (forall doc cursor start stop doc',
     find_execute doc cursor (content_end doc) (marker placeholder)
       = Some (start, stop) ->
     replace_single_marker word_doc set_range_text add_content_control
       doc (start, stop) placeholder = inr doc' ->
     (content_end doc' <= content_end doc)%Z) ->
  forall (fuel : nat) (doc : word_doc) (cursor : Z) (count : nat),
    Z.to_nat (content_end doc - cursor + 2) < fuel ->
    exists r, marker_loop fuel doc placeholder cursor count = Some r.
Proof.
  intros Hshrink. unfold marker_loop.
  induction fuel as [|fuel IH]; intros doc cursor count Hfuel; [lia | ].
  cbn [replace_marker_loop].
  destruct (cursor <=? content_end doc)%Z eqn:Hle; [ | now eexists].
  apply Z.leb_le in Hle.
  destruct (find_execute doc cursor (content_end doc) (marker placeholder))
    as [[start stop]|] eqn:Hfind; [ | now eexists].
  destruct (replace_single_marker word_doc set_range_text add_content_control
              doc (start, stop) placeholder) as [e|doc1] eqn:Hrep; [now eexists | ].
  apply IH. pose proof (Hshrink _ _ _ _ _ Hfind Hrep). lia.
Qed.





End AutomationFacts.


(** ** Statements of the validator: what they append *)

Lemma extends_refl (st : vstate) : extends st st.
Proof. exists []. now rewrite app_nil_r. Qed.

Lemma extends_trans (a b c : vstate) : extends a b -> extends b c -> extends a c.
Proof.
  intros [x Hx] [y Hy]. exists (x ++ y). now rewrite Hy, Hx, app_assoc.
Qed.

Lemma extends_In (st st' : vstate) (e : string) :
  extends st st' -> List.In e (errors st) -> List.In e (errors st').
Proof. intros [x ->] H. apply in_app_iff. now left. Qed.

Lemma bind_inr {A B} (m : V A) (k : A -> V B) (st st' : vstate) (b : B) :
  bind m k st = inr (b, st') ->
  exists a st1, m st = inr (a, st1) /\ k a st1 = inr (b, st').
Proof.
  unfold bind. destruct (m st) as [e | [a st1]]; [discriminate | ].
  intros H. now exists a, st1.
Qed.

Lemma monotone_ret {A} (a : A) : monotone (ret a : V A).
Proof. intros st x st' H. injection H as _ <-. apply extends_refl. Qed.

Lemma monotone_bind {A B} (m : V A) (k : A -> V B) :
  monotone m -> (forall a, monotone (k a)) -> monotone (bind m k).
Proof.
  intros Hm Hk st b st' H. apply bind_inr in H as [a [st1 [H1 H2]]].
  eapply extends_trans; [eapply Hm | eapply Hk]; eauto.
Qed.

Lemma monotone_lift {A} (r : exn + A) : monotone (lift r : V A).
Proof.
  intros st a st' H. unfold lift in H. destruct r; [discriminate | ].
  injection H as _ <-. apply extends_refl.
Qed.

Lemma monotone_append_error (message : string) : monotone (append_error message).
Proof. intros st a st' H. injection H as _ <-. now exists [message]. Qed.

Lemma monotone_seen_add (x : string) : monotone (seen_add x).
Proof. intros st a st' H. injection H as _ <-. exists []. simpl. now rewrite app_nil_r. Qed.

Lemma monotone_seen_mem (x : string) : monotone (seen_mem x).
Proof. intros st a st' H. injection H as _ <-. apply extends_refl. Qed.

Lemma monotone_when (cond : bool) (body : V unit) :
  monotone body -> monotone (when cond body).
Proof. intros H. destruct cond; [exact H | apply monotone_ret]. Qed.

Lemma monotone_for_each {A} (body : A -> V unit) (l : list A) :
  (forall x, monotone (body x)) -> monotone (for_each body l).
Proof.
  intros H. induction l as [|x l IH]; simpl; [apply monotone_ret | ].
  apply monotone_bind; [apply H | intros _; exact IH].
Qed.

Lemma monotone_for_enumerate {A} (body : nat -> A -> V unit) (l : list A) :
  (forall i x, monotone (body i x)) -> forall i, monotone (for_enumerate body i l).
Proof.
  intros H. induction l as [|x l IH]; intros i; simpl; [apply monotone_ret | ].
  apply monotone_bind; [apply H | intros _; apply IH].
Qed.

Create HintDb validator discriminated.

#[local] Hint Resolve monotone_ret monotone_lift monotone_append_error
  monotone_seen_add monotone_seen_mem : validator.

(** Takes a statement of the validator apart along its binds, branches and
    loops. *)
Ltac step_monotone :=
  repeat first
    [ solve [ auto with validator ]
    | apply monotone_bind; [ | intros ? ]
    | apply monotone_when
    | apply monotone_for_each; intros ?
    | apply monotone_for_enumerate; intros ? ?
    | match goal with
      | |- monotone (if ?b then _ else _) => destruct b
      | |- monotone (match ?x with _ => _ end) => destruct x
      end ].

Section ValidatorFacts.

Variable py_repr : json -> string.

Lemma monotone_validate_option (field_prefix : string) (i : nat) (option : json) :
  monotone (validate_option field_prefix i option).
Proof. unfold validate_option. step_monotone. Qed.

Lemma monotone_validate_field (section_prefix : string) (i : nat) (field_spec : json) :
  monotone (validate_field py_repr section_prefix i field_spec).
Proof.
  pose proof monotone_validate_option as Hopt.
  unfold validate_field, validate_dropdown_options, validate_group_options.
  step_monotone; apply Hopt.
Qed.

Lemma monotone_validate_section (i : nat) (section : json) :
  monotone (validate_section py_repr i section).
Proof.
  pose proof monotone_validate_field as Hfield.
  unfold validate_section. step_monotone; apply Hfield.
Qed.

Lemma monotone_validate_branding (items : list (string * json)) :
  monotone (validate_branding py_repr items).
Proof. unfold validate_branding, validate_branding_string. step_monotone. Qed.

Lemma monotone_validate_layout (items : list (string * json)) :
  monotone (validate_layout items).
Proof. unfold validate_layout. step_monotone. Qed.

End ValidatorFacts.

(** ** Statements of the validator: the ids they register *)

Lemma later_occurrences_app (before : list string) (l1 l2 : list (id_kind * string)) :
  later_occurrences before (l1 ++ l2) =
  later_occurrences before l1 ++ later_occurrences (before ++ map snd l1) l2.
Proof.
  revert before. induction l1 as [|e l1 IH]; intros before; simpl.
  - now rewrite app_nil_r.
  - rewrite IH, <- !app_assoc. reflexivity.
Qed.

Lemma bind_lift_inr {A B} (a : A) (k : A -> V B) : bind (lift (inr a)) k = k a.
Proof. reflexivity. Qed.

Lemma tracks_ret {A} (a : A) : tracks (ret a : V A) [].
Proof.
  intros st x st' before H Hseen. injection H as _ <-. exists [].
  simpl. rewrite !app_nil_r. auto.
Qed.

Lemma tracks_lift {A} (r : exn + A) : tracks (lift r : V A) [].
Proof.
  intros st x st' before H Hseen. unfold lift in H. destruct r; [discriminate | ].
  injection H as _ <-. exists []. simpl. rewrite !app_nil_r. auto.
Qed.

Lemma tracks_append_error (message : string) :
  is_duplicate_message message = false -> tracks (append_error message) [].
Proof.
  intros Hmsg st x st' before H Hseen. injection H as _ <-. exists [message].
  simpl. rewrite Hmsg, app_nil_r. auto.
Qed.

Lemma tracks_bind {A B} (m : V A) (k : A -> V B) (l1 l2 : list (id_kind * string)) :
  tracks m l1 -> (forall a, tracks (k a) l2) -> tracks (bind m k) (l1 ++ l2).
Proof.
  intros Hm Hk st b st' before H Hseen.
  apply bind_inr in H as [a [st1 [H1 H2]]].
  destruct (Hm st a st1 before H1 Hseen) as [e1 [He1 [Hf1 Hs1]]].
  destruct (Hk a st1 b st' (before ++ map snd l1) H2 Hs1) as [e2 [He2 [Hf2 Hs2]]].
  exists (e1 ++ e2). split; [ | split].
  - now rewrite He2, He1, app_assoc.
  - now rewrite List.filter_app, Hf1, Hf2, later_occurrences_app, map_app.
  - intros x. rewrite Hs2, map_app, app_assoc. reflexivity.
Qed.

Lemma tracks_bind_nil {A B} (m : V A) (k : A -> V B) (l : list (id_kind * string)) :
  tracks m [] -> (forall a, tracks (k a) l) -> tracks (bind m k) l.
Proof. intros Hm Hk. apply (tracks_bind m k [] l Hm Hk). Qed.

Lemma tracks_when (cond : bool) (body : V unit) :
  tracks body [] -> tracks (when cond body) [].
Proof. intros H. destruct cond; [exact H | apply tracks_ret]. Qed.

Lemma tracks_for_each_nil {A} (body : A -> V unit) (l : list A) :
  (forall x, tracks (body x) []) -> tracks (for_each body l) [].
Proof.
  intros H. induction l as [|x l IH]; simpl; [apply tracks_ret | ].
  apply tracks_bind_nil; [apply H | intros _; exact IH].
Qed.

Lemma tracks_for_enumerate {A} (body : nat -> A -> V unit)
    (ids : A -> list (id_kind * string)) (l : list A) :
  (forall i x, tracks (body i x) (ids x)) ->
  forall i, tracks (for_enumerate body i l) (flat_map ids l).
Proof.
  intros H. induction l as [|x l IH]; intros i; simpl; [apply tracks_ret | ].
  apply tracks_bind; [apply H | intros _; apply IH].
Qed.

Lemma duplicate_message_is_duplicate (entry : id_kind * string) :
  is_duplicate_message (duplicate_message entry) = true.
Proof. now destruct entry as [[|] id]. Qed.

(** Lines 190-193 and 234-237: the id is reported when it is in
    [seen_ids] and added otherwise. *)
Lemma tracks_seen_check (kind : id_kind) (id : string) (rest : V unit)
    (l : list (id_kind * string)) :
  tracks rest l ->
  tracks (known <- seen_mem id ;;
          (if known then append_error (duplicate_message (kind, id))
           else seen_add id) ;;
          rest)
         ((kind, id) :: l).
Proof.
  intros Hrest st a st' before H Hseen.
  apply bind_inr in H as [known [st0 [H0 H]]].
  injection H0 as <- <-.
  apply bind_inr in H as [u [st1 [H1 H2]]].
  assert (Hex : existsb (String.eqb id) before = bool_decide (id ∈ seen_ids st)).
  { apply eq_true_iff_eq. rewrite existsb_exists, bool_decide_eq_true, Hseen.
    split.
    - intros [x [Hx Heq]]. apply String.eqb_eq in Heq. now subst.
    - intros Hin. exists id. split; [exact Hin | apply String.eqb_refl]. }
  cbn [later_occurrences snd]. rewrite Hex.
  destruct (bool_decide (id ∈ seen_ids st)) eqn:Hknown.
  - injection H1 as _ <-.
    apply bool_decide_eq_true in Hknown.
    destruct (Hrest _ a st' (before ++ [id]) H2) as [e [He [Hf Hs]]].
    { cbn [seen_ids]. intros x. rewrite in_app_iff, <- Hseen. cbn [List.In].
      split; [tauto | ]. intros [Hx | [<- | []]]; assumption. }
    exists (duplicate_message (kind, id) :: e). split; [ | split].
    + rewrite He. cbn [errors]. now rewrite <- app_assoc.
    + cbn [List.filter app map].
      rewrite duplicate_message_is_duplicate. now rewrite Hf.
    + intros x. rewrite Hs. cbn [map snd]. rewrite <- app_assoc. reflexivity.
  - injection H1 as _ <-.
    destruct (Hrest _ a st' (before ++ [id]) H2) as [e [He [Hf Hs]]].
    { cbn [seen_ids]. intros x. rewrite in_app_iff, <- Hseen. cbn [List.In].
      rewrite elem_of_union, elem_of_singleton. split.
      - intros [-> | Hx]; tauto.
      - intros [Hx | [<- | []]]; tauto. }
    exists e. split; [ | split].
    + now rewrite He.
    + exact Hf.
    + intros x. rewrite Hs. cbn [map snd]. rewrite <- app_assoc. reflexivity.
Qed.

Lemma startswith_s_app (p x : string) :
  startswith p "s" = true -> startswith (p +:+ x) "s" = true.
Proof. destruct p as [|c p]; [discriminate | ]. cbn. tauto. Qed.

Lemma not_duplicate_s (p : string) :
  startswith p "s" = true -> is_duplicate_message p = false.
Proof.
  destruct p as [|c p]; [discriminate | ]. cbn [startswith].
  destruct (Ascii.eqb_spec "s" c) as [<-|]; [reflexivity | discriminate].
Qed.

Lemma not_duplicate_s_app (p x : string) :
  startswith p "s" = true -> is_duplicate_message (p +:+ x) = false.
Proof. intros H. apply not_duplicate_s. now apply startswith_s_app. Qed.

Lemma dict_has_get (key : string) (items : list (string * json)) :
  dict_has key items = true -> exists v, dict_get key items = Some v.
Proof.
  unfold dict_has. destruct (dict_get key items) as [v|]; [ | discriminate].
  now exists v.
Qed.

Lemma missing_keys_test (items : list (string * json)) :
  existsb (fun field_key => negb (dict_has field_key items)) FIELD_REQUIRED_KEYS
  = negb (has_field_keys items).
Proof.
  unfold has_field_keys, FIELD_REQUIRED_KEYS. cbn [existsb forallb].
  destruct (dict_has "id" items), (dict_has "label" items),
    (dict_has "type" items), (dict_has "required" items),
    (dict_has "help_text" items); reflexivity.
Qed.

Lemma has_field_keys_get (items : list (string * json)) :
  has_field_keys items = true ->
  exists id text ty req help,
    dict_get "id" items = Some id /\ dict_get "label" items = Some text
    /\ dict_get "type" items = Some ty /\ dict_get "required" items = Some req
    /\ dict_get "help_text" items = Some help.
Proof.
  unfold has_field_keys, FIELD_REQUIRED_KEYS. cbn [forallb].
  rewrite !andb_true_iff. intros [H1 [H2 [H3 [H4 [H5 _]]]]].
  apply dict_has_get in H1 as [id ->], H2 as [text ->], H3 as [ty ->],
    H4 as [req ->], H5 as [help ->].
  now exists id, text, ty, req, help.
Qed.

Section ValidatorIds.

Variable py_repr : json -> string.

Lemma tracks_validate_option (field_prefix : string) (i : nat) (option : json) :
  startswith field_prefix "s" = true ->
  tracks (validate_option field_prefix i option) (option_registered option).
Proof.
  intros Hp. unfold validate_option, option_registered.
  set (option_prefix := field_prefix +:+ ".options[" +:+ pretty i +:+ "]").
  assert (Hop : startswith option_prefix "s" = true)
    by now apply startswith_s_app.
  destruct option as [ | | | | | | items];
    try (apply tracks_append_error; now apply not_duplicate_s_app).
  destruct (dict_has "id" items) eqn:Hid; cbn [negb orb andb];
    [ | apply tracks_append_error; now apply not_duplicate_s_app].
  destruct (dict_has "label" items) eqn:Hlabel; cbn [negb orb andb];
    [ | apply tracks_append_error; now apply not_duplicate_s_app].
  apply dict_has_get in Hid as [id_value Hid], Hlabel as [label_value Hlabel].
  cbn [subscript]. rewrite Hid, Hlabel, !bind_lift_inr.
  destruct id_value as [ | | | | id | | ];
    try (apply tracks_append_error; now apply not_duplicate_s_app).
  destruct (str_truthy (strip id)); cbn [negb];
    [ | apply tracks_append_error; now apply not_duplicate_s_app].
  apply (tracks_seen_check OptionId id).
  apply tracks_when, tracks_append_error. now apply not_duplicate_s_app.
Qed.

Lemma tracks_validate_dropdown_options (field_prefix : string)
    (items : list (string * json)) :
  startswith field_prefix "s" = true ->
  tracks (validate_dropdown_options field_prefix items) [].
Proof.
  intros Hp. unfold validate_dropdown_options.
  destruct (dict_get "options" items) as [[ | | | | | [|o os] | ] | ];
    try (apply tracks_append_error; now apply not_duplicate_s_app).
  apply tracks_when, tracks_append_error. now apply not_duplicate_s_app.
Qed.

Lemma tracks_validate_group_options (field_prefix : string)
    (items : list (string * json)) :
  startswith field_prefix "s" = true ->
  tracks (validate_group_options field_prefix items)
    match dict_get "options" items with
    | Some (JList opts) => flat_map option_registered opts
    | _ => []
    end.
Proof.
  intros Hp. unfold validate_group_options.
  destruct (dict_get "options" items) as [[ | | | | | [|o os] | ] | ];
    try (apply tracks_append_error; now apply not_duplicate_s_app).
  apply tracks_for_enumerate. intros i x. now apply tracks_validate_option.
Qed.

Lemma tracks_validate_field (section_prefix : string) (i : nat) (field_spec : json) :
  startswith section_prefix "s" = true ->
  tracks (validate_field py_repr section_prefix i field_spec)
    (field_registered field_spec).
Proof.
  intros Hp. unfold validate_field, field_registered.
  set (field_prefix := section_prefix +:+ ".fields[" +:+ pretty i +:+ "]").
  assert (Hfp : startswith field_prefix "s" = true)
    by now apply startswith_s_app.
  destruct field_spec as [ | | | | | | items];
    try (apply tracks_append_error; now apply not_duplicate_s_app).
  apply tracks_bind_nil.
  { apply tracks_for_each_nil. intros key.
    apply tracks_when, tracks_append_error. now apply not_duplicate_s_app. }
  intros _. rewrite missing_keys_test.
  destruct (has_field_keys items) eqn:Hkeys; cbn [negb]; [ | apply tracks_ret].
  destruct (has_field_keys_get items Hkeys)
    as [id_value [text [ty [req [help [Hid [Htext [Hty [Hreq Hhelp]]]]]]]]].
  cbn [subscript]. unfold dict_get_default.
  rewrite Hid, Htext, Hty, Hreq, Hhelp, !bind_lift_inr.
  destruct id_value as [ | | | | id | | ];
    try (apply tracks_append_error; unfold field_id_message;
         now apply not_duplicate_s_app).
  destruct (str_truthy (strip id)); cbn [negb];
    [ | apply tracks_append_error; unfold field_id_message;
        now apply not_duplicate_s_app].
  apply (tracks_seen_check FieldId id).
  apply tracks_bind_nil.
  { destruct (hashable ty); [ | apply tracks_lift].
    apply tracks_when, tracks_append_error. unfold field_type_message.
    now apply not_duplicate_s_app. }
  intros _. apply tracks_bind_nil.
  { apply tracks_when, tracks_append_error. unfold field_required_message.
    now apply not_duplicate_s_app. }
  intros _. apply tracks_bind_nil.
  { apply tracks_when, tracks_append_error. unfold field_label_message.
    now apply not_duplicate_s_app. }
  intros _. apply tracks_bind_nil.
  { apply tracks_when, tracks_append_error. unfold field_help_text_message.
    now apply not_duplicate_s_app. }
  intros _. apply tracks_bind_nil.
  { apply tracks_when. now apply tracks_validate_dropdown_options. }
  intros _. destruct (eq_str ty "checkbox_group"); [ | apply tracks_ret].
  now apply tracks_validate_group_options.
Qed.

Lemma tracks_validate_section (i : nat) (section : json) :
  tracks (validate_section py_repr i section) (section_registered section).
Proof.
  unfold validate_section, section_registered.
  set (section_prefix := "sections[" +:+ pretty i +:+ "]").
  assert (Hp : startswith section_prefix "s" = true) by reflexivity.
  destruct section as [ | | | | | | items];
    try (apply tracks_append_error; now apply not_duplicate_s_app).
  apply tracks_bind_nil.
  { apply tracks_for_each_nil. intros key.
    apply tracks_when, tracks_append_error. now apply not_duplicate_s_app. }
  intros _. apply tracks_bind_nil.
  { apply tracks_when, tracks_append_error. now apply not_duplicate_s_app. }
  intros _. apply tracks_bind_nil.
  { apply tracks_when, tracks_append_error. now apply not_duplicate_s_app. }
  intros _.
  destruct (dict_get "fields" items) as [[ | | | | | [|f fs] | ] | ];
    try (apply tracks_append_error; now apply not_duplicate_s_app).
  apply tracks_for_enumerate. intros j x. now apply tracks_validate_field.
Qed.

Lemma tracks_validate_layout (items : list (string * json)) :
  tracks (validate_layout items) [].
Proof.
  unfold validate_layout. apply tracks_when, tracks_append_error. reflexivity.
Qed.

Lemma tracks_validate_branding_string (items : list (string * json)) (key : string) :
  tracks (validate_branding_string items key) [].
Proof.
  unfold validate_branding_string.
  destruct (dict_get_default key (JStr EmptyString) items);
    try (apply tracks_append_error; reflexivity).
  apply tracks_bind_nil; [apply tracks_lift | intros v].
  apply tracks_when, tracks_append_error. reflexivity.
Qed.

Lemma tracks_validate_branding (items : list (string * json)) :
  tracks (validate_branding py_repr items) [].
Proof.
  unfold validate_branding. apply tracks_bind_nil.
  { apply tracks_for_each_nil. intros key.
    apply tracks_when, tracks_append_error. reflexivity. }
  intros _. repeat (apply tracks_bind_nil;
                    [apply tracks_validate_branding_string | intros _]).
  apply tracks_validate_branding_string.
Qed.

Lemma tracks_validate_body (items : list (string * json)) :
  tracks (validate_body py_repr (JDict items)) (registered_ids (JDict items)).
Proof.
  unfold validate_body, registered_ids. cbn [subscript].
  assert (Hraise : forall (e : exn) (k : json -> V unit) l,
            tracks (bind (lift (inl e)) k) l).
  { intros e k l st a st' before H. discriminate H. }
  destruct (dict_get "metadata" items) as [metadata|]; [ | apply Hraise].
  rewrite bind_lift_inr.
  destruct (dict_get "branding" items) as [branding|]; [ | apply Hraise].
  rewrite bind_lift_inr.
  destruct (dict_get "document_layout" items) as [layout|]; [ | apply Hraise].
  rewrite bind_lift_inr.
  destruct (dict_get "sections" items) as [sections|]; [ | apply Hraise].
  rewrite !bind_lift_inr.
  do 4 (apply tracks_bind_nil;
        [apply tracks_when, tracks_append_error; reflexivity | intros _]).
  apply tracks_bind_nil.
  { destruct layout; try apply tracks_ret. apply tracks_validate_layout. }
  intros _. apply tracks_bind_nil.
  { destruct branding; try apply tracks_ret. apply tracks_validate_branding. }
  intros _. destruct sections; try apply tracks_ret.
  apply tracks_for_enumerate. intros i x. apply tracks_validate_section.
Qed.

End ValidatorIds.

(** ** Statements of the validator: when they raise nothing *)

Lemma returns_ret {A} (a : A) : returns (ret a : V A).
Proof. intros st. now exists a, st. Qed.

Lemma returns_bind {A B} (m : V A) (k : A -> V B) :
  returns m -> (forall a, returns (k a)) -> returns (bind m k).
Proof.
  intros Hm Hk st. destruct (Hm st) as [a [st1 H1]].
  destruct (Hk a st1) as [b [st2 H2]]. exists b, st2.
  unfold bind. now rewrite H1.
Qed.

Lemma returns_append_error (message : string) : returns (append_error message).
Proof. intros st. eexists _, _. reflexivity. Qed.

Lemma returns_seen_add (x : string) : returns (seen_add x).
Proof. intros st. eexists _, _. reflexivity. Qed.

Lemma returns_seen_mem (x : string) : returns (seen_mem x).
Proof. intros st. eexists _, _. reflexivity. Qed.

Lemma returns_lift_inr {A} (a : A) : returns (lift (inr a) : V A).
Proof. intros st. now exists a, st. Qed.

Lemma returns_when (cond : bool) (body : V unit) :
  returns body -> returns (when cond body).
Proof. intros H. destruct cond; [exact H | apply returns_ret]. Qed.

Lemma returns_for_each {A} (body : A -> V unit) (l : list A) :
  (forall x, returns (body x)) -> returns (for_each body l).
Proof.
  intros H. induction l as [|x l IH]; simpl; [apply returns_ret | ].
  apply returns_bind; [apply H | intros _; exact IH].
Qed.

Lemma returns_for_enumerate {A} (body : nat -> A -> V unit) (l : list A) :
  (forall i x, List.In x l -> returns (body i x)) ->
  forall i, returns (for_enumerate body i l).
Proof.
  induction l as [|x l IH]; intros H i; simpl; [apply returns_ret | ].
  apply returns_bind; [apply H; now left | intros _].
  apply IH. intros j y Hy. apply H. now right.
Qed.

#[local] Hint Resolve returns_ret returns_append_error returns_seen_add
  returns_seen_mem returns_lift_inr : validator.

Ltac step_returns :=
  repeat first
    [ apply returns_bind; [ | intros ? ]
    | apply returns_when
    | apply returns_for_each; intros ?
    | solve [ auto with validator ]
    | match goal with
      | |- returns (if ?b then _ else _) => destruct b
      | |- returns (match ?x with _ => _ end) => destruct x
      end ].

Section ValidatorReturns.

Variable py_repr : json -> string.

Lemma returns_validate_option (field_prefix : string) (i : nat) (option : json) :
  returns (validate_option field_prefix i option).
Proof.
  unfold validate_option.
  destruct option as [ | | | | | | items]; try apply returns_append_error.
  destruct (dict_has "id" items) eqn:Hid; cbn [negb orb];
    [ | apply returns_append_error].
  destruct (dict_has "label" items) eqn:Hlabel; cbn [negb orb];
    [ | apply returns_append_error].
  apply dict_has_get in Hid as [id_value Hid], Hlabel as [label_value Hlabel].
  cbn [subscript]. rewrite Hid, Hlabel. step_returns.
Qed.

Lemma returns_validate_field (section_prefix : string) (i : nat) (field_spec : json) :
  field_crash_free field_spec = true ->
  returns (validate_field py_repr section_prefix i field_spec).
Proof.
  unfold validate_field, field_crash_free.
  destruct field_spec as [ | | | | | | items]; try (intros _; apply returns_append_error).
  intros Hfree. apply returns_bind; [step_returns | intros _].
  rewrite missing_keys_test.
  destruct (has_field_keys items) eqn:Hkeys; cbn [negb andb] in *; [ | apply returns_ret].
  destruct (has_field_keys_get items Hkeys)
    as [id_value [text [ty [req [help [Hid [Htext [Hty [Hreq Hhelp]]]]]]]]].
  cbn [subscript]. unfold dict_get_default in Hfree.
  rewrite Hid, Hty in Hfree.
  rewrite Hid, Htext, Hty, Hreq, Hhelp, !bind_lift_inr.
  destruct id_value as [ | | | | id | | ]; try apply returns_append_error.
  cbn [is_nonblank_str] in Hfree.
  destruct (str_truthy (strip id)); cbn [negb]; [ | apply returns_append_error].
  rewrite Hfree.
  pose proof returns_validate_option as Hopt.
  unfold validate_dropdown_options, validate_group_options.
  step_returns.
  apply returns_for_enumerate. intros ? ? _. apply Hopt.
Qed.

Lemma returns_validate_section (i : nat) (section : json) :
  section_crash_free section = true ->
  returns (validate_section py_repr i section).
Proof.
  unfold validate_section, section_crash_free.
  destruct section as [ | | | | | | items]; try (intros _; apply returns_append_error).
  intros Hfree. apply returns_bind; [step_returns | intros _].
  apply returns_bind; [step_returns | intros _].
  apply returns_bind; [step_returns | intros _].
  destruct (dict_get "fields" items) as [[ | | | | | [|f fs] | ] | ];
    try apply returns_append_error.
  apply returns_for_enumerate. intros j x Hx.
  apply returns_validate_field. rewrite forallb_forall in Hfree. now apply Hfree.
Qed.

Lemma returns_validate_branding_string (items : list (string * json)) (key : string) :
  dict_has key items = true -> returns (validate_branding_string items key).
Proof.
  intros Hkey. unfold validate_branding_string.
  apply dict_has_get in Hkey as [v Hv]. cbn [subscript]. rewrite Hv.
  destruct (dict_get_default key (JStr EmptyString) items); step_returns.
Qed.

Lemma returns_validate_branding (items : list (string * json)) :
  branding_crash_free (JDict items) = true ->
  returns (validate_branding py_repr items).
Proof.
  cbn [branding_crash_free]. rewrite !andb_true_iff. intros [[H1 H2] H3].
  unfold validate_branding.
  apply returns_bind; [step_returns | intros _].
  apply returns_bind; [now apply returns_validate_branding_string | intros _].
  apply returns_bind; [now apply returns_validate_branding_string | intros _].
  now apply returns_validate_branding_string.
Qed.

Lemma returns_validate_body (items : list (string * json)) :
  missing_top_level items = [] ->
  crash_free (JDict items) = true ->
  returns (validate_body py_repr (JDict items)).
Proof.
  intros Hkeys Hfree.
  assert (Hall : dict_has "metadata" items = true /\ dict_has "branding" items = true
                 /\ dict_has "document_layout" items = true
                 /\ dict_has "sections" items = true).
  { revert Hkeys. unfold missing_top_level, TOP_LEVEL_REQUIRED_KEYS. cbn [flat_map].
    destruct (dict_has "metadata" items), (dict_has "branding" items),
      (dict_has "document_layout" items), (dict_has "sections" items);
      cbn [app]; intros H; try discriminate H; auto. }
  destruct Hall as [Hm [Hb [Hl Hs]]].
  apply dict_has_get in Hm as [metadata Hm], Hb as [branding Hb],
    Hl as [layout Hl], Hs as [sections Hs].
  cbn [crash_free] in Hfree. unfold dict_get_default in Hfree.
  rewrite Hb, Hs in Hfree. apply andb_true_iff in Hfree as [Hbrand Hsec].
  unfold validate_body. cbn [subscript]. rewrite Hm, Hb, Hl, Hs, !bind_lift_inr.
  do 4 (apply returns_bind; [step_returns | intros _]).
  apply returns_bind.
  { destruct layout; try apply returns_ret. unfold validate_layout. step_returns. }
  intros _. apply returns_bind.
  { destruct branding; try apply returns_ret. now apply returns_validate_branding. }
  intros _. destruct sections; try apply returns_ret.
  apply returns_for_enumerate. intros i x Hx.
  apply returns_validate_section. rewrite forallb_forall in Hsec. now apply Hsec.
Qed.

End ValidatorReturns.

(** ** C1: duplicate ids *)

(** C1, amended.  On a specification that has the four top-level keys and
    on which the validator raises no other exception (a branding object has
    its heading_font, body_font and logo_path keys; no field that reaches the
    type check has a list or object as type), the error list holds, as
    duplicate-id errors and in reading order, exactly one message for each
    occurrence beyond the first among the registered ids: the id of every
    field object with all five keys and a non-blank string id, in a section
    object whose fields are a list, and the id of every option object with the
    keys id and label and a non-blank string id of such a field of type
    checkbox_group.  Field and option ids are looked up in one set; a first
    occurrence gets no duplicate-id error; with at least one such occurrence
    [validate_spec] raises [SpecValidationError] with that error list. *)
Theorem validate_spec_reports_duplicates (py_repr : json -> string)
    (items : list (string * json)) :
  missing_top_level items = [] ->
  crash_free (JDict items) = true ->
  exists errs,
    validate_spec_errors py_repr (JDict items) = inr errs
    /\ List.filter is_duplicate_message errs
       = map duplicate_message (later_occurrences [] (registered_ids (JDict items)))
    /\ (later_occurrences [] (registered_ids (JDict items)) <> [] ->
        validate_spec py_repr (JDict items)
        = inl (SpecValidationError (join nl errs))).
Proof.
  intros Hkeys Hfree.
  destruct (returns_validate_body py_repr items Hkeys Hfree (VState [] ∅))
    as [u [st Hrun]].
  destruct (tracks_validate_body py_repr items (VState [] ∅) u st [] Hrun)
    as [added [Herr [Hdup _]]].
  { intros x. cbn [seen_ids List.In]. rewrite elem_of_empty. tauto. }
  cbn [errors app] in Herr.
  assert (Hres : validate_spec_errors py_repr (JDict items) = inr (errors st)).
  { unfold validate_spec_errors. now rewrite Hkeys, Hrun. }
  exists (errors st). split; [exact Hres | split].
  - now rewrite Herr.
  - intros Hsome. unfold validate_spec. rewrite Hres, Herr.
    destruct added as [|e errs]; [ | reflexivity].
    exfalso. apply Hsome. cbn [List.filter] in Hdup. symmetry in Hdup.
    now apply map_eq_nil in Hdup.
Qed.

Lemma validate_spec_reports_duplicates_witness :
  validate_spec sample_repr duplicate_ids_spec
  = inl (SpecValidationError
           (join nl ["Dubbele option id gevonden: 'name'.";
                     "Dubbele field id gevonden: 'pain'."])).
Proof.
  destruct (validate_spec_reports_duplicates sample_repr
              [("metadata", JDict []); ("branding", sample_branding);
               ("document_layout", JDict []);
               ("sections", JList duplicate_ids_sections)])
    as [errs [Herrs [_ Hraise]]].
  - reflexivity.
  - reflexivity.
  - vm_compute in Herrs. injection Herrs as <-.
    apply Hraise. vm_compute. discriminate.
Defined.

(** C1 as stated fails: the ids "name" and "pain" occur twice in
    [duplicate_ids_no_metadata], and [validate_spec] raises with the
    missing-key message alone. *)
Lemma duplicates_unreported_without_top_level_key :
  later_occurrences [] (registered_ids duplicate_ids_no_metadata)
    = [(OptionId, "name"); (FieldId, "pain")]
  /\ validate_spec_errors sample_repr duplicate_ids_no_metadata
     = inr ["Ontbrekende top-level key: 'metadata'."]
  /\ validate_spec sample_repr duplicate_ids_no_metadata
     = inl (SpecValidationError "Ontbrekende top-level key: 'metadata'.").
Proof. repeat split; vm_compute; reflexivity. Qed.

(** ** C6: the checks made on a field *)

Lemma for_enumerate_reach {A} (body : nat -> A -> V unit) (l : list A) :
  (forall i x, monotone (body i x)) ->
  forall (i : nat) (st st' : vstate) (u : unit) (j : nat) (x : A),
    for_enumerate body i l st = inr (u, st') ->
    l !! j = Some x ->
    exists (sa sb : vstate) (v : unit),
      body (i + j) x sa = inr (v, sb) /\ extends st sa /\ extends sb st'.
Proof.
  intros Hmono. induction l as [|y l IH]; intros i st st' u j x H Hj;
    [discriminate | ].
  cbn [for_enumerate] in H. apply bind_inr in H as [v [st1 [H1 H2]]].
  destruct j as [|j].
  - injection Hj as <-. exists st, st1, v. rewrite Nat.add_0_r.
    split; [exact H1 | split; [apply extends_refl | ]].
    eapply (monotone_for_enumerate body l Hmono); eauto.
  - destruct (IH (S i) st1 st' u j x H2 Hj) as [sa [sb [w [Hb [Ha Hc]]]]].
    exists sa, sb, w. rewrite <- Nat.add_succ_comm. split; [exact Hb | split].
    + eapply extends_trans; [ | exact Ha]. eapply Hmono; eauto.
    + exact Hc.
Qed.

Lemma bind_when_append (cond : bool) (message : string) {B} (k : unit -> V B)
    (st : vstate) :
  bind (when cond (append_error message)) k st =
  k tt (VState (errors st ++ (if cond then [message] else [])) (seen_ids st)).
Proof.
  destruct cond; [reflexivity | ]. destruct st as [errs seen].
  cbn. now rewrite app_nil_r.
Qed.

Section FieldChecks.

Variable py_repr : json -> string.

(** A field with its five keys and an id that is not a non-blank string
    gets the id error and nothing else. *)
Lemma validate_field_bad_id (section_prefix : string) (i : nat)
    (items : list (string * json)) (st : vstate) :
  has_field_keys items = true ->
  is_nonblank_str (dict_get_default "id" JNull items) = false ->
  validate_field py_repr section_prefix i (JDict items) st =
  inr (tt, VState (errors st
                     ++ [field_id_message
                           (section_prefix +:+ ".fields[" +:+ pretty i +:+ "]")])
                  (seen_ids st)).
Proof.
  intros Hkeys Hbad. unfold validate_field.
  assert (Hquiet : for_each
            (fun field_key =>
               when (negb (dict_has field_key items))
                 (append_error
                    ((section_prefix +:+ ".fields[" +:+ pretty i +:+ "]")
                       +:+ ": ontbrekende key '" +:+ field_key +:+ "'.")))
            FIELD_REQUIRED_KEYS st = inr (tt, st)).
  { revert Hkeys. unfold has_field_keys, FIELD_REQUIRED_KEYS. cbn [forallb for_each].
    rewrite !andb_true_iff. intros [-> [-> [-> [-> [-> _]]]]]. reflexivity. }
  unfold bind at 1. rewrite Hquiet. rewrite missing_keys_test, Hkeys. cbn [negb].
  destruct (has_field_keys_get items Hkeys)
    as [id_value [text [ty [req [help [Hid [Htext [Hty [Hreq Hhelp]]]]]]]]].
  unfold dict_get_default in Hbad. rewrite Hid in Hbad.
  cbn [subscript]. rewrite Hid, Hty, Hreq, Hhelp, !bind_lift_inr.
  destruct id_value as [ | | | | id | | ]; try reflexivity.
  cbn [is_nonblank_str] in Hbad. now rewrite Hbad.
Qed.

(** A field with its five keys and a non-blank string id goes through the
    four checks of lines 195-207, each appending its message when violated. *)
Lemma validate_field_checks (section_prefix : string) (i : nat)
    (items : list (string * json)) (st st' : vstate) (u : unit) :
  has_field_keys items = true ->
  is_nonblank_str (dict_get_default "id" JNull items) = true ->
  validate_field py_repr section_prefix i (JDict items) st = inr (u, st') ->
  let field_prefix := section_prefix +:+ ".fields[" +:+ pretty i +:+ "]" in
  let ty := dict_get_default "type" JNull items in
  exists head tail,
    errors st' =
      head
      ++ (if negb (in_allowed_types ty)
          then [field_type_message py_repr field_prefix ty] else [])
      ++ (if negb (is_bool (dict_get_default "required" JNull items))
          then [field_required_message field_prefix] else [])
      ++ (if negb (is_nonblank_str (dict_get_default "label" JNull items))
          then [field_label_message field_prefix] else [])
      ++ (if negb (is_str (dict_get_default "help_text" JNull items))
          then [field_help_text_message field_prefix] else [])
      ++ tail.
Proof.
  intros Hkeys Hgood H field_prefix ty. unfold validate_field in H.
  fold field_prefix in H.
  apply bind_inr in H as [v [st0 [_ H]]].
  rewrite missing_keys_test, Hkeys in H. cbn [negb] in H.
  destruct (has_field_keys_get items Hkeys)
    as [id_value [text [ty' [req [help [Hid [Htext [Hty [Hreq Hhelp]]]]]]]]].
  unfold ty, dict_get_default in *. rewrite Hid in Hgood.
  rewrite Htext, Hty, Hreq, Hhelp.
  cbn [subscript] in H. rewrite Hid, Htext, Hty, Hreq, Hhelp, !bind_lift_inr in H.
  destruct id_value as [ | | | | id | | ]; try discriminate Hgood.
  cbn [is_nonblank_str] in Hgood. rewrite Hgood in H. cbn [negb] in H.
  apply bind_inr in H as [known [st1 [_ H]]].
  apply bind_inr in H as [v1 [st2 [_ H]]].
  destruct (hashable ty') eqn:Hhash; [ | discriminate H].
  rewrite !bind_when_append in H.
  match type of H with
  | bind _ _ ?s = _ => remember s as st3 eqn:Hst3
  end.
  assert (Hmono : monotone
            (when (eq_str ty' "dropdown")
               (validate_dropdown_options field_prefix items) ;;
             when (eq_str ty' "checkbox_group")
               (validate_group_options field_prefix items))).
  { pose proof monotone_validate_option as Hopt.
    unfold validate_dropdown_options, validate_group_options.
    step_monotone; apply Hopt. }
  pose proof (Hmono _ _ _ H) as Hrest.
  destruct Hrest as [tail Htail]. exists (errors st2), tail.
  rewrite Htail, Hst3. cbn [errors]. rewrite <- !app_assoc. reflexivity.
Qed.

End FieldChecks.

Section FieldReach.

Variable py_repr : json -> string.

Lemma validate_body_reach_section (items : list (string * json))
    (sections : list json) (i : nat) (section : json)
    (st st' : vstate) (u : unit) :
  validate_body py_repr (JDict items) st = inr (u, st') ->
  dict_get "sections" items = Some (JList sections) ->
  sections !! i = Some section ->
  exists (sa sb : vstate) (v : unit),
    validate_section py_repr (S i) section sa = inr (v, sb) /\ extends sb st'.
Proof.
  intros H Hsections Hi. unfold validate_body in H. cbn [subscript] in H.
  rewrite Hsections in H.
  destruct (dict_get "metadata" items); [ | discriminate H].
  destruct (dict_get "branding" items); [ | discriminate H].
  destruct (dict_get "document_layout" items); [ | discriminate H].
  rewrite !bind_lift_inr in H.
  do 6 (apply bind_inr in H as [? [? [_ H]]]).
  destruct (for_enumerate_reach (validate_section py_repr) sections
              (monotone_validate_section py_repr) 1 _ _ _ i section H Hi)
    as [sa [sb [v [Hb [_ Hc]]]]].
  now exists sa, sb, v.
Qed.

Lemma validate_section_reach_field (i : nat) (items : list (string * json))
    (fields : list json) (j : nat) (field_spec : json)
    (st st' : vstate) (u : unit) :
  validate_section py_repr i (JDict items) st = inr (u, st') ->
  dict_get "fields" items = Some (JList fields) ->
  fields !! j = Some field_spec ->
  exists (fa fb : vstate) (v : unit),
    validate_field py_repr ("sections[" +:+ pretty i +:+ "]") (S j) field_spec fa
      = inr (v, fb)
    /\ extends fb st'.
Proof.
  intros H Hfields Hj. unfold validate_section in H. rewrite Hfields in H.
  do 3 (apply bind_inr in H as [? [? [_ H]]]).
  destruct fields as [|f fs]; [discriminate Hj | ].
  destruct (for_enumerate_reach
              (validate_field py_repr ("sections[" +:+ pretty i +:+ "]")) (f :: fs)
              (monotone_validate_field py_repr _) 1 _ _ _ j field_spec H Hj)
    as [fa [fb [v [Hb [_ Hc]]]]].
  now exists fa, fb, v.
Qed.

(** C6, amended.  In a specification that has the four top-level keys and
    on which the validator raises no other exception, take a field object
    with all five required keys, found in the fields list of a section
    object of the sections list.  If its id is a non-blank string, the error
    list reports each violation among the four: a type outside the
    enumeration, a required value that is not a boolean, a label that is not
    a non-blank string, a help text that is not a string.  If its id is not a
    non-blank string, the field gets the id error and no other error: the
    checks on type, required, label and help text are skipped. *)
Theorem field_checks_reported (items : list (string * json))
    (sections : list json) (i : nat) (section_items : list (string * json))
    (fields : list json) (j : nat) (field_items : list (string * json)) :
  missing_top_level items = [] ->
  crash_free (JDict items) = true ->
  dict_get "sections" items = Some (JList sections) ->
  sections !! i = Some (JDict section_items) ->
  dict_get "fields" section_items = Some (JList fields) ->
  fields !! j = Some (JDict field_items) ->
  has_field_keys field_items = true ->
  let section_prefix := "sections[" +:+ pretty (S i) +:+ "]" in
  let field_prefix := section_prefix +:+ ".fields[" +:+ pretty (S j) +:+ "]" in
  let ty := dict_get_default "type" JNull field_items in
  exists errs,
    validate_spec_errors py_repr (JDict items) = inr errs
    /\ if is_nonblank_str (dict_get_default "id" JNull field_items) then
         (in_allowed_types ty = false ->
            List.In (field_type_message py_repr field_prefix ty) errs)
         /\ (is_bool (dict_get_default "required" JNull field_items) = false ->
               List.In (field_required_message field_prefix) errs)
         /\ (is_nonblank_str (dict_get_default "label" JNull field_items) = false ->
               List.In (field_label_message field_prefix) errs)
         /\ (is_str (dict_get_default "help_text" JNull field_items) = false ->
               List.In (field_help_text_message field_prefix) errs)
       else
         List.In (field_id_message field_prefix) errs
         /\ forall st,
              validate_field py_repr section_prefix (S j) (JDict field_items) st
              = inr (tt, VState (errors st ++ [field_id_message field_prefix])
                                (seen_ids st)).
Proof.
  intros Hkeys Hfree Hsections Hi Hfields Hj Hfkeys section_prefix field_prefix ty.
  destruct (returns_validate_body py_repr items Hkeys Hfree (VState [] ∅))
    as [u [st Hrun]].
  exists (errors st). split.
  { unfold validate_spec_errors. now rewrite Hkeys, Hrun. }
  destruct (validate_body_reach_section items sections i _ _ _ _ Hrun Hsections Hi)
    as [sa [sb [v [Hsec Hsb]]]].
  destruct (validate_section_reach_field (S i) section_items fields j _ _ _ _
              Hsec Hfields Hj) as [fa [fb [w [Hfld Hfb]]]].
  fold section_prefix in Hfld.
  assert (Hup : forall e, List.In e (errors fb) -> List.In e (errors st)).
  { intros e He. eapply extends_In; [exact Hsb | ].
    eapply extends_In; [exact Hfb | exact He]. }
  destruct (is_nonblank_str (dict_get_default "id" JNull field_items)) eqn:Hid.
  - destruct (validate_field_checks py_repr section_prefix (S j) field_items
                fa fb w Hfkeys Hid Hfld) as [head [tail Herrs]].
    fold field_prefix ty in Herrs.
    repeat split; intros Hbad; apply Hup; rewrite Herrs, Hbad; cbn [negb];
      rewrite !in_app_iff; cbn [List.In]; tauto.
  - split.
    + apply Hup.
      rewrite (validate_field_bad_id py_repr section_prefix (S j) field_items fa
                 Hfkeys Hid) in Hfld.
      injection Hfld as _ <-. cbn [errors]. rewrite in_app_iff. cbn [List.In].
      fold field_prefix. tauto.
    + intros st0. now apply validate_field_bad_id.
Qed.

End FieldReach.

Lemma field_checks_reported_witness :
  exists errs,
    validate_spec_errors sample_repr (JDict all_wrong_items) = inr errs
    /\ List.In "sections[1].fields[1].type 'bogus' is ongeldig. Toegestaan: ['checkbox', 'checkbox_group', 'date', 'dropdown', 'info_block', 'signature_line', 'text_long', 'text_short']." errs
    /\ List.In "sections[1].fields[1].required moet true of false zijn." errs
    /\ List.In "sections[1].fields[1].label moet een niet-lege string zijn." errs
    /\ List.In "sections[1].fields[1].help_text moet een string zijn (leeg is toegestaan)." errs.
Proof.
  destruct (field_checks_reported sample_repr all_wrong_items
              [sample_section [JDict all_wrong_field]] 0
              [("id", JStr "s1"); ("title", JStr "Gegevens");
               ("fields", JList [JDict all_wrong_field])]
              [JDict all_wrong_field] 0 all_wrong_field)
    as [errs [Herrs [Hty [Hreq [Hlabel Hhelp]]]]]; try reflexivity.
  exists errs. split; [exact Herrs | ].
  split; [apply Hty; reflexivity | ].
  split; [apply Hreq; reflexivity | ].
  split; [apply Hlabel; reflexivity | apply Hhelp; reflexivity].
Defined.

(** C6 as stated fails: the field of [blank_id_bad_type_spec] has the empty
    string as id and the type "bogus", and the error list is the id error
    alone. *)
Lemma blank_id_hides_type_error :
  validate_spec_errors sample_repr blank_id_bad_type_spec
  = inr ["sections[1].fields[1].id moet een niet-lege string zijn."]
  /\ in_allowed_types (JStr "bogus") = false
  /\ ~ List.In (field_type_message sample_repr "sections[1].fields[1]" (JStr "bogus"))
         ["sections[1].fields[1].id moet een niet-lege string zijn."].
Proof.
  split; [vm_compute; reflexivity | split; [reflexivity | ]].
  intros [H | []]. vm_compute in H. discriminate H.
Qed.

(** ** Runs of the validator that append nothing *)

Lemma extends_squeeze (a b c : vstate) :
  extends a b -> extends b c -> errors c = errors a ->
  errors b = errors a /\ errors c = errors b.
Proof.
  intros [x Hx] [y Hy] H. rewrite Hy, Hx in H.
  rewrite <- app_assoc in H. rewrite <- (app_nil_r (errors a)) in H at 2.
  apply app_inv_head in H. apply app_eq_nil in H as [-> ->].
  rewrite app_nil_r in Hx, Hy. now split.
Qed.

Lemma quiet_bind_split {A B} (m : V A) (k : A -> V B) (st st' : vstate) (b : B) :
  monotone m -> (forall a, monotone (k a)) ->
  bind m k st = inr (b, st') -> errors st' = errors st ->
  exists a st1, m st = inr (a, st1) /\ errors st1 = errors st
                /\ k a st1 = inr (b, st') /\ errors st' = errors st1.
Proof.
  intros Hm Hk H Hq. apply bind_inr in H as [a [st1 [H1 H2]]].
  destruct (extends_squeeze st st1 st' (Hm _ _ _ H1) (Hk _ _ _ _ H2) Hq).
  now exists a, st1.
Qed.

Lemma quiet_append_error (message : string) (st st' : vstate) (u : unit) :
  append_error message st = inr (u, st') -> errors st' = errors st -> False.
Proof.
  intros H Hq. injection H as _ <-. cbn [errors] in Hq.
  rewrite <- (app_nil_r (errors st)) in Hq at 2. apply app_inv_head in Hq.
  discriminate Hq.
Qed.

Lemma quiet_when_append (cond : bool) (message : string) (st st' : vstate) (u : unit) :
  when cond (append_error message) st = inr (u, st') ->
  errors st' = errors st -> cond = false.
Proof.
  destruct cond; [ | reflexivity]. intros H Hq. exfalso.
  eapply quiet_append_error; eauto.
Qed.

Lemma quiet_for_enumerate {A} (body : nat -> A -> V unit) (l : list A) :
  (forall i x, monotone (body i x)) ->
  forall (i : nat) (st st' : vstate) (u : unit),
    for_enumerate body i l st = inr (u, st') -> errors st' = errors st ->
    forall x, List.In x l ->
      exists (j : nat) (sa sb : vstate) (v : unit),
        body j x sa = inr (v, sb) /\ errors sb = errors sa.
Proof.
  intros Hmono i st st' u H Hq x Hx.
  apply list_elem_of_In, list_elem_of_lookup in Hx as [j Hj].
  destruct (for_enumerate_reach body l Hmono i st st' u j x H Hj)
    as [sa [sb [v [Hb [Ha Hc]]]]].
  exists (i + j), sa, sb, v. split; [exact Hb | ].
  pose proof (Hmono _ _ _ _ _ Hb) as Hab.
  destruct (extends_squeeze st sa st' Ha (extends_trans _ _ _ Hab Hc) Hq) as [Hsa _].
  destruct (extends_squeeze st sb st' (extends_trans _ _ _ Ha Hab) Hc Hq) as [Hsb _].
  congruence.
Qed.

Lemma quiet_for_each_when {A} (cond : A -> bool) (message : A -> string)
    (l : list A) (st st' : vstate) (u : unit) :
  for_each (fun x => when (cond x) (append_error (message x))) l st = inr (u, st') ->
  errors st' = errors st ->
  forallb (fun x => negb (cond x)) l = true.
Proof.
  revert st. induction l as [|x l IH]; intros st H Hq; [reflexivity | ].
  cbn [for_each] in H. rewrite bind_when_append in H.
  assert (Hmono : monotone
            (for_each (fun x => when (cond x) (append_error (message x))) l)).
  { apply monotone_for_each. intros y. apply monotone_when, monotone_append_error. }
  pose proof (Hmono _ _ _ H) as [tail Htail]. cbn [errors] in Htail.
  rewrite Hq, <- app_assoc in Htail.
  rewrite <- (app_nil_r (errors st)) in Htail at 1.
  apply app_inv_head in Htail. symmetry in Htail.
  apply app_eq_nil in Htail as [Hc ->].
  cbn [forallb]. destruct (cond x); [discriminate Hc | ]. cbn [negb andb].
  apply (IH (VState (errors st ++ []) (seen_ids st))); [exact H | ].
  cbn [errors]. now rewrite Hq, app_nil_r.
Qed.

Lemma quiet_seen_check (message id : string) (rest : V unit)
    (st st' : vstate) (u : unit) :
  monotone rest ->
  (known <- seen_mem id ;;
   (if known then append_error message else seen_add id) ;;
   rest) st = inr (u, st') ->
  errors st' = errors st ->
  exists st1, rest st1 = inr (u, st') /\ errors st1 = errors st.
Proof.
  intros Hmono H Hq.
  apply bind_inr in H as [known [st0 [H0 H]]]. injection H0 as <- <-.
  apply quiet_bind_split in H as [v [st1 [H1 [Hq1 [H2 _]]]]]; try exact Hq.
  - now exists st1.
  - destruct (bool_decide (id ∈ seen_ids st));
      [apply monotone_append_error | apply monotone_seen_add].
  - intros _. exact Hmono.
Qed.

#[local] Hint Resolve monotone_validate_option monotone_validate_field
  monotone_validate_section monotone_validate_layout monotone_validate_branding
  : validator.

Section ValidShape.

Variable py_repr : json -> string.

Lemma quiet_validate_option (field_prefix : string) (i : nat) (option : json)
    (st st' : vstate) (u : unit) :
  validate_option field_prefix i option st = inr (u, st') ->
  errors st' = errors st ->
  valid_option option = true.
Proof.
  intros H Hq. unfold validate_option in H.
  destruct option as [ | | | | | | items];
    try (exfalso; eapply quiet_append_error; eauto; fail).
  destruct (dict_has "id" items) eqn:Hid; cbn [negb orb] in H;
    [ | exfalso; eapply quiet_append_error; eauto].
  destruct (dict_has "label" items) eqn:Hlabel; cbn [negb orb] in H;
    [ | exfalso; eapply quiet_append_error; eauto].
  apply dict_has_get in Hid as [id_value Hid], Hlabel as [label_value Hlabel].
  cbn [subscript] in H. rewrite Hid, Hlabel, !bind_lift_inr in H.
  cbn [valid_option]. unfold dict_get_default. rewrite Hid, Hlabel.
  destruct id_value as [ | | | | id | | ];
    try (exfalso; eapply quiet_append_error; eauto; fail).
  cbn [is_nonblank_str].
  destruct (str_truthy (strip id)); cbn [negb] in H;
    [ | exfalso; eapply quiet_append_error; eauto].
  apply quiet_seen_check in H as [st1 [H1 Hq1]]; [ | step_monotone | exact Hq].
  apply quiet_when_append in H1; [ | congruence].
  now apply negb_false_iff in H1.
Qed.

Lemma field_keys_loop_quiet (field_prefix : string) (items : list (string * json))
    (st : vstate) :
  has_field_keys items = true ->
  for_each
    (fun field_key =>
       when (negb (dict_has field_key items))
         (append_error (field_prefix +:+ ": ontbrekende key '" +:+ field_key +:+ "'.")))
    FIELD_REQUIRED_KEYS st = inr (tt, st).
Proof.
  unfold has_field_keys, FIELD_REQUIRED_KEYS. cbn [forallb for_each].
  rewrite !andb_true_iff. intros [-> [-> [-> [-> [-> _]]]]]. reflexivity.
Qed.

Lemma quiet_validate_dropdown_options (field_prefix : string)
    (items : list (string * json)) (st st' : vstate) (u : unit) :
  validate_dropdown_options field_prefix items st = inr (u, st') ->
  errors st' = errors st ->
  match dict_get "options" items with
  | Some (JList (o :: os)) => all_nonblank_strings (o :: os)
  | _ => false
  end = true.
Proof.
  intros H Hq. unfold validate_dropdown_options in H.
  destruct (dict_get "options" items) as [[ | | | | | [|o os] | ] | ];
    try (exfalso; eapply quiet_append_error; eauto; fail).
  apply quiet_when_append in H; [ | exact Hq]. now apply negb_false_iff in H.
Qed.

Lemma quiet_validate_group_options (field_prefix : string)
    (items : list (string * json)) (st st' : vstate) (u : unit) :
  validate_group_options field_prefix items st = inr (u, st') ->
  errors st' = errors st ->
  match dict_get "options" items with
  | Some (JList (o :: os)) => forallb valid_option (o :: os)
  | _ => false
  end = true.
Proof.
  intros H Hq. unfold validate_group_options in H.
  destruct (dict_get "options" items) as [[ | | | | | [|o os] | ] | ];
    try (exfalso; eapply quiet_append_error; eauto; fail).
  apply forallb_forall. intros x Hx.
  destruct (quiet_for_enumerate (validate_option field_prefix) (o :: os)
              (monotone_validate_option field_prefix) 1 st st' u H Hq x Hx)
    as [j [sa [sb [v [Hb Hqb]]]]].
  eapply quiet_validate_option; eauto.
Qed.

Lemma quiet_validate_field (section_prefix : string) (i : nat) (field_spec : json)
    (st st' : vstate) (u : unit) :
  validate_field py_repr section_prefix i field_spec st = inr (u, st') ->
  errors st' = errors st ->
  valid_field field_spec = true.
Proof.
  intros H Hq. unfold validate_field in H.
  set (field_prefix := section_prefix +:+ ".fields[" +:+ pretty i +:+ "]") in *.
  destruct field_spec as [ | | | | | | items];
    try (exfalso; eapply quiet_append_error; eauto; fail).
  rewrite missing_keys_test in H.
  destruct (has_field_keys items) eqn:Hkeys; cbn [negb] in H.
  2:{ exfalso. apply bind_inr in H as [v [st1 [H1 H2]]]. injection H2 as _ <-.
      apply quiet_for_each_when in H1; [ | exact Hq].
      assert (Hall : has_field_keys items = true).
      { unfold has_field_keys, FIELD_REQUIRED_KEYS in *. cbn [forallb] in *.
        now rewrite !negb_involutive in H1. }
      congruence. }
  unfold bind at 1 in H. rewrite (field_keys_loop_quiet _ _ _ Hkeys) in H.
  destruct (has_field_keys_get items Hkeys)
    as [id_value [text [ty [req [help [Hid [Htext [Hty [Hreq Hhelp]]]]]]]]].
  cbn [subscript] in H. rewrite Hid, Htext, Hty, Hreq, Hhelp, !bind_lift_inr in H.
  cbn [valid_field]. unfold dict_get_default.
  rewrite Hkeys, Hid, Htext, Hty, Hreq, Hhelp.
  destruct id_value as [ | | | | id | | ];
    try (exfalso; eapply quiet_append_error; eauto; fail).
  cbn [is_nonblank_str].
  destruct (str_truthy (strip id)); cbn [negb] in H;
    [ | exfalso; eapply quiet_append_error; eauto].
  assert (Htail : monotone
            (when (eq_str ty "dropdown")
               (validate_dropdown_options field_prefix items) ;;
             when (eq_str ty "checkbox_group")
               (validate_group_options field_prefix items))).
  { unfold validate_dropdown_options, validate_group_options. step_monotone. }
  apply quiet_seen_check in H as [st1 [H1 Hq1]]; [ | | exact Hq].
  2:{ apply monotone_bind; [step_monotone | intros _].
      apply monotone_bind; [step_monotone | intros _].
      apply monotone_bind; [step_monotone | intros _].
      apply monotone_bind; [step_monotone | intros _]. exact Htail. }
  destruct (hashable ty); [ | discriminate H1].
  rewrite !bind_when_append in H1.
  pose proof (Htail _ _ _ H1) as [tail Herr]. cbn [errors] in Herr.
  rewrite Hq, <- Hq1, <- !app_assoc in Herr.
  rewrite <- (app_nil_r (errors st1)) in Herr at 1.
  apply app_inv_head in Herr. symmetry in Herr.
  apply app_eq_nil in Herr as [Hc1 Herr].
  apply app_eq_nil in Herr as [Hc2 Herr].
  apply app_eq_nil in Herr as [Hc3 Herr].
  apply app_eq_nil in Herr as [Hc4 _].
  destruct (in_allowed_types ty); [ | discriminate Hc1].
  destruct (is_bool req); [ | discriminate Hc2].
  destruct (is_nonblank_str text); [ | discriminate Hc3].
  destruct (is_str help); [ | discriminate Hc4].
  cbn [negb app andb] in *.
  apply quiet_bind_split in H1 as [v [st2 [H2 [Hq2 [H3 Hq3]]]]].
  - apply andb_true_iff. split.
    + destruct (eq_str ty "dropdown"); [ | reflexivity].
      eapply quiet_validate_dropdown_options; eauto.
    + destruct (eq_str ty "checkbox_group"); [ | reflexivity].
      eapply quiet_validate_group_options; eauto.
  - unfold validate_dropdown_options. step_monotone.
  - intros _. unfold validate_group_options. step_monotone.
  - cbn [errors]. rewrite Hq, <- Hq1, !app_nil_r. reflexivity.
Qed.

Lemma quiet_validate_section (i : nat) (section : json)
    (st st' : vstate) (u : unit) :
  validate_section py_repr i section st = inr (u, st') ->
  errors st' = errors st ->
  valid_section section = true.
Proof.
  intros H Hq. unfold validate_section in H.
  set (section_prefix := "sections[" +:+ pretty i +:+ "]") in *.
  destruct section as [ | | | | | | items];
    try (exfalso; eapply quiet_append_error; eauto; fail).
  apply bind_inr in H as [v [st0 [H0 H]]].
  assert (Hmono0 : extends st st0).
  { revert H0. apply monotone_for_each. intros key. step_monotone. }
  rewrite !bind_when_append in H.
  assert (Htail : monotone
            (match dict_get "fields" items with
             | Some (JList (f :: fs)) =>
                 for_enumerate (validate_field py_repr section_prefix) 1 (f :: fs)
             | _ => append_error
                      (section_prefix +:+ ".fields moet een niet-lege lijst zijn.")
             end)).
  { step_monotone. }
  pose proof (Htail _ _ _ H) as [tail Herr]. cbn [errors] in Herr.
  destruct Hmono0 as [head Hhead].
  rewrite Hq, Hhead, <- !app_assoc in Herr.
  rewrite <- (app_nil_r (errors st)) in Herr at 1.
  apply app_inv_head in Herr. symmetry in Herr.
  apply app_eq_nil in Herr as [-> Herr].
  apply app_eq_nil in Herr as [Hc1 Herr].
  apply app_eq_nil in Herr as [Hc2 ->].
  rewrite app_nil_r in Hhead.
  cbn [valid_section]. unfold dict_get_default.
  destruct (dict_get "id" items) as [id_value|]; [ | discriminate Hc1].
  destruct (dict_get "title" items) as [title_value|]; [ | discriminate Hc2].
  destruct (is_nonblank_str id_value); [ | discriminate Hc1].
  destruct (is_nonblank_str title_value); [ | discriminate Hc2].
  cbn [negb app andb] in *.
  destruct (dict_get "fields" items) as [[ | | | | | [|f fs] | ] | ];
    try (exfalso; eapply quiet_append_error; eauto;
         cbn [errors]; rewrite Hq, Hhead, !app_nil_r; reflexivity).
  apply forallb_forall. intros x Hx.
  destruct (quiet_for_enumerate (validate_field py_repr section_prefix) (f :: fs)
              (monotone_validate_field py_repr section_prefix) 1 _ st' u H
              ltac:(cbn [errors]; rewrite Hq, Hhead, !app_nil_r; reflexivity) x Hx)
    as [j [sa [sb [w [Hb Hqb]]]]].
  eapply quiet_validate_field; eauto.
Qed.

End ValidShape.

(** ** The shape of a validated specification *)

Section ValidatedShape.

Variable py_repr : json -> string.

Lemma validated_shape (spec : json) :
  validate_spec py_repr spec = inr tt ->
  exists items layout sections,
    spec = JDict items
    /\ dict_has "branding" items = true
    /\ dict_get "document_layout" items = Some (JDict layout)
    /\ dict_get "sections" items = Some (JList sections)
    /\ sections <> []
    /\ forallb valid_section sections = true.
Proof.
  unfold validate_spec, validate_spec_errors.
  destruct spec as [ | | | | | | items]; try discriminate.
  destruct (missing_top_level items) eqn:Hkeys; [ | discriminate].
  destruct (validate_body py_repr (JDict items) (VState [] ∅))
    as [e | [u st]] eqn:Hrun; [discriminate | ].
  destruct (errors st) eqn:Hq; [intros _ | discriminate].
  unfold validate_body in Hrun. cbn [subscript] in Hrun.
  destruct (dict_get "metadata" items) as [metadata|]; [ | discriminate Hrun].
  destruct (dict_get "branding" items) as [branding|] eqn:Hbrand; [ | discriminate Hrun].
  destruct (dict_get "document_layout" items) as [layout|] eqn:Hlayout;
    [ | discriminate Hrun].
  destruct (dict_get "sections" items) as [sections|] eqn:Hsections;
    [ | discriminate Hrun].
  rewrite !bind_lift_inr, !bind_when_append in Hrun.
  assert (Htail : monotone
            (match layout with JDict items => validate_layout items | _ => ret tt end ;;
             match branding with
             | JDict items => validate_branding py_repr items
             | _ => ret tt
             end ;;
             match sections with
             | JList l => for_enumerate (validate_section py_repr) 1 l
             | _ => ret tt
             end)).
  { step_monotone. }
  pose proof (Htail _ _ _ Hrun) as [tail Herr]. cbn [errors app] in Herr.
  rewrite Hq, <- !app_assoc in Herr. symmetry in Herr.
  apply app_eq_nil in Herr as [Hc1 Herr].
  apply app_eq_nil in Herr as [Hc2 Herr].
  apply app_eq_nil in Herr as [Hc3 Herr].
  apply app_eq_nil in Herr as [Hc4 _].
  destruct layout as [ | | | | | | layout_items]; try discriminate Hc3.
  destruct sections as [ | | | | | [|s ss] | ]; try discriminate Hc4.
  destruct (is_dict metadata); [ | discriminate Hc1].
  destruct (is_dict branding); [ | discriminate Hc2].
  cbn [negb app] in Hrun.
  apply quiet_bind_split in Hrun as [v1 [st1 [H1 [Hq1 [Hrun Hq1']]]]];
    [ | step_monotone | intros _; step_monotone | now rewrite Hq].
  apply quiet_bind_split in Hrun as [v2 [st2 [H2 [Hq2 [Hrun Hq2']]]]];
    [ | step_monotone | intros _; step_monotone | exact Hq1'].
  exists items, layout_items, (s :: ss).
  split; [reflexivity | split; [unfold dict_has; now rewrite Hbrand | ]].
  split; [exact Hlayout | split; [exact Hsections | split; [discriminate | ]]].
  apply forallb_forall. intros x Hx.
  destruct (quiet_for_enumerate (validate_section py_repr) (s :: ss)
              (monotone_validate_section py_repr) 1 st2 st u Hrun Hq2' x Hx)
    as [j [sa [sb [w [Hb Hqb]]]]].
  eapply quiet_validate_section; eauto.
Qed.

End ValidatedShape.

(** ** The planner on a validated specification *)


Lemma nonblank_str_get (key : string) (items : list (string * json)) :
  is_nonblank_str (dict_get_default key JNull items) = true ->
  exists s, dict_get key items = Some (JStr s).
Proof.
  unfold dict_get_default. destruct (dict_get key items) as [[ | | | | s | | ] | ];
    try discriminate. intros _. now exists s.
Qed.



Section PlannerFacts.

Variable py_repr : json -> string.
Variable float_parses : string -> bool.

Lemma allowed_type_str (v : json) :
  in_allowed_types v = true -> exists s, v = JStr s.
Proof. destruct v; try discriminate. intros _. now eexists. Qed.






End PlannerFacts.



(* ===================================================================== *)
(** ** Colours *)
(* ===================================================================== *)

Lemma char_in_In (c : ascii) (s : string) :
  char_in c s = true -> List.In c (list_ascii_of_string s).
Proof.
  induction s as [|d s IH]; cbn [char_in list_ascii_of_string List.In];
    [discriminate | ].
  intros H. apply orb_true_iff in H as [H | H].
  - left. symmetry. now apply Ascii.eqb_eq.
  - right. now apply IH.
Qed.

(** Runs the goal through every character of a literal alphabet. *)
Ltac each_char H :=
  apply char_in_In in H; cbn [list_ascii_of_string List.In] in H;
  repeat (destruct H as [H | H]; [subst | ]); [ .. | destruct H ].

Lemma hex_char_plain (c : ascii) :
  char_in c "0123456789abcdefABCDEF" = true ->
  py_isspace c = false /\ (nat_of_ascii c <? 128)%nat = true
  /\ Ascii.eqb c "#" = false
  /\ char_in (ascii_upper c) "0123456789ABCDEF" = true.
Proof. intros H. each_char H; repeat split. Qed.

Lemma upper_hex_char (c : ascii) :
  char_in c "0123456789ABCDEF" = true ->
  char_in c "0123456789abcdefABCDEF" = true /\ ascii_upper c = c
  /\ exists d, hex_digit c = Some d /\ (0 <= d < 16)%Z /\ upper_hex_digit d = c.
Proof.
  intros H. each_char H; (split; [reflexivity | split; [reflexivity | ]]);
    match goal with
    | |- exists d, hex_digit ?c = _ /\ _ =>
        let v := eval vm_compute in (hex_digit c) in
        match v with Some ?d => exists d end
    end; (split; [reflexivity | split; [lia | reflexivity]]).
Qed.

Lemma lstrip_blank_app (a s : string) :
  all_blank a = true -> lstrip (a +:+ s) = lstrip s.
Proof.
  induction a as [|c a IH]; cbn [all_blank string_forallb]; [reflexivity | ].
  intros H. apply andb_true_iff in H as [Hc Ha].
  cbn [String.append lstrip]. rewrite Hc. now apply IH.
Qed.

Lemma rstrip_blank (b : string) : all_blank b = true -> rstrip b = EmptyString.
Proof.
  induction b as [|c b IH]; cbn [all_blank string_forallb]; [reflexivity | ].
  intros H. apply andb_true_iff in H as [Hc Hb].
  cbn [rstrip]. rewrite (IH Hb). now rewrite Hc.
Qed.

Lemma rstrip_app_blank (s b : string) :
  all_blank b = true -> rstrip (s +:+ b) = rstrip s.
Proof.
  intros Hb. induction s as [|c s IH]; cbn [String.append rstrip].
  - now apply rstrip_blank.
  - now rewrite IH.
Qed.

Lemma rstrip_no_blank (s : string) :
  string_forallb (fun c => negb (py_isspace c)) s = true -> rstrip s = s.
Proof.
  induction s as [|c s IH]; cbn [string_forallb]; [reflexivity | ].
  intros H. apply andb_true_iff in H as [Hc Hs]. apply negb_true_iff in Hc.
  cbn [rstrip]. rewrite (IH Hs). destruct s; [now rewrite Hc | reflexivity].
Qed.

Lemma lstrip_split (s : string) :
  exists a, all_blank a = true /\ s = a +:+ lstrip s.
Proof.
  induction s as [|c s [a [Ha Hs]]]; [now exists EmptyString | ].
  cbn [lstrip]. destruct (py_isspace c) eqn:Hc.
  - exists (String c a). split; [cbn; now rewrite Hc | ].
    cbn [String.append]. now rewrite <- Hs.
  - now exists EmptyString.
Qed.

Lemma rstrip_split (s : string) :
  exists b, all_blank b = true /\ s = rstrip s +:+ b.
Proof.
  induction s as [|c s [b [Hb Hs]]]; [now exists EmptyString | ].
  cbn [rstrip]. destruct (rstrip s) as [|d r] eqn:Hr.
  - destruct (py_isspace c) eqn:Hc.
    + exists (String c b). split; [cbn; now rewrite Hc | ].
      cbn [String.append] in *. now rewrite <- Hs.
    + exists b. split; [exact Hb | ]. cbn [String.append] in *. now rewrite <- Hs.
  - exists b. split; [exact Hb | ]. cbn [String.append] in *. now rewrite <- Hs.
Qed.

Lemma strip_split (s : string) :
  exists a b, all_blank a = true /\ all_blank b = true /\ s = a +:+ strip s +:+ b.
Proof.
  destruct (lstrip_split s) as [a [Ha Hs]].
  destruct (rstrip_split (lstrip s)) as [b [Hb Hl]].
  exists a, b. split; [exact Ha | split; [exact Hb | ]].
  unfold strip. now rewrite <- Hl.
Qed.

Lemma hex_digits_no_blank (h : string) :
  string_forallb (fun c => char_in c "0123456789abcdefABCDEF") h = true ->
  string_forallb (fun c => negb (py_isspace c)) h = true.
Proof.
  induction h as [|c h IH]; cbn [string_forallb]; [reflexivity | ].
  intros H. apply andb_true_iff in H as [Hc Hh].
  destruct (hex_char_plain c Hc) as [-> _]. now rewrite (IH Hh).
Qed.

(** Stripping a text whose core has no blank gives the core. *)
Lemma strip_padded (a core b : string) :
  all_blank a = true -> all_blank b = true ->
  string_forallb (fun c => negb (py_isspace c)) core = true ->
  strip (a +:+ core +:+ b) = core.
Proof.
  intros Ha Hb Hcore. unfold strip. rewrite lstrip_blank_app by exact Ha.
  assert (Hl : lstrip (core +:+ b) = core +:+ b \/ core = EmptyString).
  { destruct core as [|c core]; [now right | left].
    cbn [string_forallb] in Hcore. apply andb_true_iff in Hcore as [Hc _].
    apply negb_true_iff in Hc. cbn [String.append lstrip]. now rewrite Hc. }
  destruct Hl as [-> | ->].
  - rewrite rstrip_app_blank by exact Hb. now apply rstrip_no_blank.
  - cbn [String.append].
    destruct (lstrip_split b) as [a' [Ha' Hs]].
    assert (Hbl : all_blank (lstrip b) = true).
    { clear - Hb. induction b as [|c b IH]; [reflexivity | ].
      cbn [all_blank string_forallb] in Hb. apply andb_true_iff in Hb as [Hc Hb].
      cbn [lstrip]. rewrite Hc. now apply IH. }
    now apply rstrip_blank.
Qed.

Lemma strip_no_blank (s : string) :
  string_forallb (fun c => negb (py_isspace c)) s = true -> strip s = s.
Proof.
  intros H.
  pose proof (strip_padded EmptyString s EmptyString eq_refl eq_refl H) as E.
  cbn [String.append] in E. now rewrite append_nil_r in E.
Qed.

(** The core of an accepted colour: the stripped text, less one leading
    "#", is six hexadecimal digits. *)
Lemma is_hex_color_core (value : string) :
  is_hex_color value = true ->
  exists h, six_hex_digits h = true
            /\ (strip value = h \/ strip value = String "#" h)
            /\ match strip value with String "#" rest => rest | _ => strip value end = h.
Proof.
  unfold is_hex_color, six_hex_digits. cbv zeta.
  set (core := match strip value with String "#" rest => rest | _ => strip value end).
  destruct (String.length core =? 6)%nat eqn:Hlen; cbv beta iota delta [negb];
    [ | discriminate].
  intros Hall. exists core. rewrite Hlen, Hall. split; [reflexivity | ].
  split; [ | reflexivity].
  unfold core. destruct (strip value) as [|c rest]; [now left | ].
  destruct (Ascii.eqb_spec c "#") as [-> | Hne]; [now right | left].
  destruct c as [[] [] [] [] [] [] [] []]; try reflexivity. now destruct Hne.
Qed.

Lemma six_hex_accepted (h : string) :
  six_hex_digits h = true ->
  is_hex_color h = true /\ is_hex_color (String "#" h) = true.
Proof.
  unfold six_hex_digits. intros H. apply andb_true_iff in H as [Hlen Hall].
  pose proof (hex_digits_no_blank h Hall) as Hnb.
  assert (Hs : strip h = h) by now apply strip_no_blank.
  assert (Hs' : strip (String "#" h) = String "#" h).
  { apply strip_no_blank. cbn [string_forallb]. now rewrite Hnb. }
  assert (Hhead : match h with String "#" rest => rest | _ => h end = h).
  { destruct h as [|c h]; [reflexivity | ].
    cbn [string_forallb] in Hall. apply andb_true_iff in Hall as [Hc _].
    destruct (hex_char_plain c Hc) as [_ [_ [Hne _]]].
    destruct c as [[] [] [] [] [] [] [] []]; try reflexivity. discriminate Hne. }
  unfold is_hex_color. cbv zeta. rewrite Hs, Hs', Hhead, Hlen. cbn [negb]. now split.
Qed.

(** X1.  [is_hex_color] accepts exactly the texts that consist of six
    hexadecimal digits, with or without one "#" in front, between any number
    of blanks on either side. *)
Theorem is_hex_color_accepts (value : string) :
  is_hex_color value = true <->
  exists a h b,
    all_blank a = true /\ all_blank b = true /\ six_hex_digits h = true
    /\ (value = a +:+ h +:+ b \/ value = a +:+ String "#" h +:+ b).
Proof.
  split.
  - intros H. destruct (is_hex_color_core value H) as [h [Hh [Hs _]]].
    destruct (strip_split value) as [a [b [Ha [Hb Hv]]]].
    exists a, h, b. split; [exact Ha | split; [exact Hb | split; [exact Hh | ]]].
    destruct Hs as [Hs | Hs]; rewrite Hs in Hv; [now left | now right].
  - intros [a [h [b [Ha [Hb [Hh Hv]]]]]].
    destruct (six_hex_accepted h Hh) as [H1 H2].
    assert (Hnb : string_forallb (fun c => negb (py_isspace c)) h = true).
    { apply hex_digits_no_blank. unfold six_hex_digits in Hh.
      now apply andb_true_iff in Hh as [_ Hh]. }
    assert (Hs : strip h = h) by now apply strip_no_blank.
    assert (Hs' : strip (String "#" h) = String "#" h).
    { apply strip_no_blank. cbn [string_forallb]. now rewrite Hnb. }
    unfold is_hex_color in *. cbv zeta in *. rewrite Hs in H1. rewrite Hs' in H2.
    destruct Hv as [-> | ->]; rewrite strip_padded; assumption.
Qed.

Section ColourFacts.

Variable upper_beyond_ascii : ascii -> string.
Variable int16_other : string -> exn + Z.

Let upper := py_upper upper_beyond_ascii.

Lemma py_upper_hex_digits (h : string) :
  string_forallb (fun c => char_in c "0123456789abcdefABCDEF") h = true ->
  string_forallb (fun c => char_in c "0123456789ABCDEF") (upper h) = true
  /\ String.length (upper h) = String.length h.
Proof.
  unfold upper.
  induction h as [|c h IH]; cbn [string_forallb py_upper String.length];
    [now split | ].
  intros H. apply andb_true_iff in H as [Hc Hh].
  destruct (hex_char_plain c Hc) as [_ [-> [_ Hup]]].
  destruct (IH Hh) as [IH1 IH2].
  cbn [String.append string_forallb String.length]. rewrite Hup, IH1, IH2.
  now split.
Qed.

Lemma py_upper_fixed (h : string) :
  string_forallb (fun c => char_in c "0123456789ABCDEF") h = true ->
  upper h = h.
Proof.
  unfold upper.
  induction h as [|c h IH]; cbn [string_forallb py_upper]; [reflexivity | ].
  intros H. apply andb_true_iff in H as [Hc Hh].
  destruct (upper_hex_char c Hc) as [Hhex [-> _]].
  destruct (hex_char_plain c Hhex) as [_ [-> _]].
  cbn [String.append]. now rewrite (IH Hh).
Qed.

Lemma upper_hex_digits_hex (h : string) :
  string_forallb (fun c => char_in c "0123456789ABCDEF") h = true ->
  string_forallb (fun c => char_in c "0123456789abcdefABCDEF") h = true.
Proof.
  induction h as [|c h IH]; cbn [string_forallb]; [reflexivity | ].
  intros H. apply andb_true_iff in H as [Hc Hh].
  destruct (upper_hex_char c Hc) as [-> _]. now apply IH.
Qed.

(** What [clean_hex] makes of an accepted colour. *)
Lemma clean_hex_accepted (source : string) :
  is_hex_color source = true ->
  exists h,
    six_upper_hex_digits h = true
    /\ upper match strip source with String "#" rest => rest | _ => strip source end
       = h.
Proof.
  intros H. destruct (is_hex_color_core source H) as [h [Hh [_ ->]]].
  unfold six_hex_digits in Hh. apply andb_true_iff in Hh as [Hlen Hall].
  destruct (py_upper_hex_digits h Hall) as [Hup Hl].
  exists (upper h). split; [ | reflexivity].
  unfold six_upper_hex_digits. now rewrite Hl, Hlen, Hup.
Qed.

(** The colour [clean_hex] settles on: the value when it is accepted,
    otherwise the fallback. *)
Lemma clean_hex_upper_digits (text fallback : string) :
  is_hex_color text = true \/ is_hex_color fallback = true ->
  exists h, clean_hex upper_beyond_ascii (JStr text) fallback = inr h
            /\ six_upper_hex_digits h = true.
Proof.
  intros H. unfold clean_hex.
  assert (Hsrc : is_hex_color (if is_hex_color text then text else fallback) = true).
  { destruct (is_hex_color text) eqn:Ht; [exact Ht | ].
    destruct H as [H | H]; [discriminate H | exact H]. }
  destruct (clean_hex_accepted _ Hsrc) as [h [Hh Heq]].
  exists h. split; [ | exact Hh]. f_equal. exact Heq.
Qed.

(** X2.  When the value is an accepted colour, or else the fallback is,
    [clean_hex] returns six hexadecimal digits with the letters in upper
    case; the result is itself an accepted colour, and [clean_hex] returns it
    unchanged whatever the fallback. *)
Theorem clean_hex_normal_form (text fallback : string) :
  is_hex_color text = true \/ is_hex_color fallback = true ->
  exists h,
    clean_hex upper_beyond_ascii (JStr text) fallback = inr h
    /\ six_upper_hex_digits h = true
    /\ is_hex_color h = true
    /\ forall fallback', clean_hex upper_beyond_ascii (JStr h) fallback' = inr h.
Proof.
  intros H. destruct (clean_hex_upper_digits text fallback H) as [h [Hc Hh]].
  exists h. split; [exact Hc | split; [exact Hh | ]].
  unfold six_upper_hex_digits in Hh. apply andb_true_iff in Hh as [Hlen Hall].
  assert (Hsix : six_hex_digits h = true).
  { unfold six_hex_digits. now rewrite Hlen, (upper_hex_digits_hex h Hall). }
  destruct (six_hex_accepted h Hsix) as [Hacc _].
  split; [exact Hacc | ]. intros fallback'. unfold clean_hex. rewrite Hacc.
  assert (Hs' : strip h = h).
  { apply strip_no_blank, hex_digits_no_blank. now apply upper_hex_digits_hex. }
  rewrite Hs'.
  assert (Hhead : match h with String "#" rest => rest | _ => h end = h).
  { destruct h as [|c h]; [reflexivity | ].
    cbn [string_forallb] in Hall. apply andb_true_iff in Hall as [Hc0 _].
    destruct (upper_hex_char c Hc0) as [Hhex _].
    destruct (hex_char_plain c Hhex) as [_ [_ [Hne _]]].
    destruct c as [[] [] [] [] [] [] [] []]; try reflexivity. discriminate Hne. }
  rewrite Hhead. f_equal. now apply py_upper_fixed.
Qed.

(** X19.  [clean_hex] ignores the blanks around a colour, its "#" and the
    case of its letters: every accepted spelling of six digits gives those
    digits in upper case, whatever the fallback. *)
Theorem clean_hex_spellings (a h b fallback : string) :
  all_blank a = true -> all_blank b = true -> six_hex_digits h = true ->
  clean_hex upper_beyond_ascii (JStr (a +:+ h +:+ b)) fallback = inr (upper h)
  /\ clean_hex upper_beyond_ascii (JStr (a +:+ String "#" h +:+ b)) fallback
     = inr (upper h)
  /\ clean_hex upper_beyond_ascii (JStr (upper h)) fallback = inr (upper h)
  /\ six_upper_hex_digits (upper h) = true.
Proof.
  intros Ha Hb Hh.
  destruct (six_hex_accepted h Hh) as [H1 H2].
  pose proof Hh as Hh'. unfold six_hex_digits in Hh'.
  apply andb_true_iff in Hh' as [Hlen Hall].
  pose proof (hex_digits_no_blank h Hall) as Hnb.
  assert (Hs : strip (a +:+ h +:+ b) = h) by now apply strip_padded.
  assert (Hs' : strip (a +:+ String "#" h +:+ b) = String "#" h).
  { apply strip_padded; assumption. }
  assert (Hhead : match h with String "#" rest => rest | _ => h end = h).
  { destruct h as [|c h]; [reflexivity | ].
    cbn [string_forallb] in Hall. apply andb_true_iff in Hall as [Hc _].
    destruct (hex_char_plain c Hc) as [_ [_ [Hne _]]].
    destruct c as [[] [] [] [] [] [] [] []]; try reflexivity. discriminate Hne. }
  assert (Hacc : is_hex_color (a +:+ h +:+ b) = true).
  { unfold is_hex_color in *. cbv zeta in *. rewrite Hs.
    now rewrite (strip_no_blank h Hnb) in H1. }
  assert (Hacc' : is_hex_color (a +:+ String "#" h +:+ b) = true).
  { unfold is_hex_color in *. cbv zeta in *. rewrite Hs'.
    rewrite strip_no_blank in H2; [exact H2 | ].
    cbn [string_forallb]. now rewrite Hnb. }
  destruct (py_upper_hex_digits h Hall) as [Hup Hl].
  split; [ | split; [ | split]].
  - unfold clean_hex. rewrite Hacc, Hs, Hhead. reflexivity.
  - unfold clean_hex. rewrite Hacc', Hs'. reflexivity.
  - pose proof (upper_hex_digits_hex (upper h) Hup) as Hup'.
    assert (Hsix : six_hex_digits (upper h) = true).
    { unfold six_hex_digits. now rewrite Hl, Hlen, Hup'. }
    destruct (six_hex_accepted (upper h) Hsix) as [Hacc2 _].
    unfold clean_hex. rewrite Hacc2.
    rewrite (strip_no_blank (upper h)) by now apply hex_digits_no_blank.
    assert (Hhead2 : match upper h with String "#" rest => rest | _ => upper h end
                     = upper h).
    { destruct (upper h) as [|c u]; [reflexivity | ].
      cbn [string_forallb] in Hup'. apply andb_true_iff in Hup' as [Hc _].
      destruct (hex_char_plain c Hc) as [_ [_ [Hne _]]].
      destruct c as [[] [] [] [] [] [] [] []]; try reflexivity. discriminate Hne. }
    rewrite Hhead2. f_equal. now apply py_upper_fixed.
  - unfold six_upper_hex_digits. now rewrite Hl, Hlen, Hup.
Qed.

(** X20.  [set_cell_background] leaves a cell with exactly one shading
    whenever it returns, whatever shadings the cell had: its fill is six
    hexadecimal digits in upper case, FFFFFF for a text that is no accepted
    colour, and a second call changes nothing.  On a value that is not a
    string it raises [AttributeError] after the old shadings were removed: the
    cell is left without any. *)
Theorem set_cell_background_shading (shadings : list shading) (hex_color : json) :
  let outcome := set_cell_background upper_beyond_ascii shadings hex_color in
  (forall text, hex_color = JStr text ->
     exists fill,
       outcome = ([MkShading "clear" "auto" fill], inr tt)
       /\ six_upper_hex_digits fill = true
       /\ (is_hex_color text = false -> fill = "FFFFFF")
       /\ set_cell_background upper_beyond_ascii (fst outcome) hex_color = outcome)
  /\ (is_str hex_color = false -> outcome = ([], inl AttributeError)).
Proof.
  intros outcome. unfold outcome, set_cell_background. split.
  - intros text ->.
    destruct (clean_hex_upper_digits text "#FFFFFF") as [fill [Hfill Hdigits]];
      [now right | ].
    rewrite Hfill. exists fill. split; [reflexivity | split; [exact Hdigits | ]].
    split; [ | reflexivity].
    intros Hno. unfold clean_hex in Hfill. rewrite Hno in Hfill.
    cbn in Hfill. now injection Hfill as <-.
  - destruct hex_color; try reflexivity. discriminate.
Qed.

Lemma hex_pair_value (c1 c2 : ascii) :
  char_in c1 "0123456789ABCDEF" = true ->
  char_in c2 "0123456789ABCDEF" = true ->
  exists v, hex_digits_value 0 (String c1 (String c2 EmptyString)) = Some v
            /\ (0 <= v <= 255)%Z
            /\ hex_pair v = String c1 (String c2 EmptyString).
Proof.
  intros H1 H2.
  destruct (upper_hex_char c1 H1) as [_ [_ [d1 [E1 [R1 U1]]]]].
  destruct (upper_hex_char c2 H2) as [_ [_ [d2 [E2 [R2 U2]]]]].
  exists (16 * d1 + d2)%Z. cbn [hex_digits_value]. rewrite E1, E2.
  split; [f_equal; lia | split; [lia | ]].
  unfold hex_pair.
  replace ((16 * d1 + d2) / 16)%Z with d1
    by (apply (Z.div_unique_pos _ 16 d1 d2); lia).
  replace ((16 * d1 + d2) mod 16)%Z with d2
    by (apply (Z.mod_unique_pos _ 16 d1 d2); lia).
  now rewrite U1, U2.
Qed.

Lemma hex_to_rgb_accepted (text fallback : string) :
  is_hex_color text = true \/ is_hex_color fallback = true ->
  exists c,
    hex_to_rgb upper_beyond_ascii int16_other (JStr text) fallback = inr c
    /\ (0 <= red c <= 255)%Z /\ (0 <= green c <= 255)%Z /\ (0 <= blue c <= 255)%Z
    /\ clean_hex upper_beyond_ascii (JStr text) fallback = inr (rgb_hex c).
Proof.
  intros H. destruct (clean_hex_upper_digits text fallback H) as [h [Hc Hh]].
  unfold hex_to_rgb. rewrite Hc.
  unfold six_upper_hex_digits in Hh. apply andb_true_iff in Hh as [Hlen Hall].
  destruct h as [|c1 [|c2 [|c3 [|c4 [|c5 [|c6 [|c7 h]]]]]]]; try discriminate Hlen.
  cbn [string_forallb] in Hall. rewrite !andb_true_iff in Hall.
  destruct Hall as [A1 [A2 [A3 [A4 [A5 [A6 _]]]]]].
  destruct (hex_pair_value c1 c2 A1 A2) as [r [Er [Rr Pr]]].
  destruct (hex_pair_value c3 c4 A3 A4) as [g [Eg [Rg Pg]]].
  destruct (hex_pair_value c5 c6 A5 A6) as [b [Eb [Rb Pb]]].
  cbn [string_take string_drop]. unfold int16. rewrite Er, Eg, Eb.
  exists (MkRGBColor r g b). unfold new_RGBColor. cbn [forallb red green blue].
  replace ((0 <=? r)%Z && (r <=? 255)%Z) with true
    by (symmetry; apply andb_true_iff; split; apply Z.leb_le; lia).
  replace ((0 <=? g)%Z && (g <=? 255)%Z) with true
    by (symmetry; apply andb_true_iff; split; apply Z.leb_le; lia).
  replace ((0 <=? b)%Z && (b <=? 255)%Z) with true
    by (symmetry; apply andb_true_iff; split; apply Z.leb_le; lia).
  repeat split; try lia.
  unfold rgb_hex. cbn [red green blue]. rewrite Pr, Pg, Pb. reflexivity.
Qed.

(** X3.  When the value is an accepted colour, or else the fallback is,
    [hex_to_rgb] raises nothing and returns three components between 0 and
    255; written back as two upper-case hexadecimal digits each, they are the
    six digits [clean_hex] returned. *)
Theorem hex_to_rgb_round_trip (text fallback : string) :
  is_hex_color text = true \/ is_hex_color fallback = true ->
  exists c,
    hex_to_rgb upper_beyond_ascii int16_other (JStr text) fallback = inr c
    /\ (0 <= red c <= 255)%Z /\ (0 <= green c <= 255)%Z /\ (0 <= blue c <= 255)%Z
    /\ clean_hex upper_beyond_ascii (JStr text) fallback = inr (rgb_hex c).
Proof. apply hex_to_rgb_accepted. Qed.

End ColourFacts.

(* ===================================================================== *)
(** ** The specifications [validate_spec] accepts *)
(* ===================================================================== *)

Lemma distinct_NoDup (l : list string) : distinct l = true <-> List.NoDup l.
Proof.
  induction l as [|x l IH]; cbn [distinct]; [split; [constructor | reflexivity] | ].
  rewrite andb_true_iff, negb_true_iff, IH. split.
  - intros [Hx Hl]. constructor; [ | exact Hl]. intros Hin.
    assert (Hex : existsb (String.eqb x) l = true).
    { apply existsb_exists. exists x. split; [exact Hin | apply String.eqb_refl]. }
    congruence.
  - intros Hnd. inversion Hnd as [|? ? Hx Hl]; subst. split; [ | exact Hl].
    destruct (existsb (String.eqb x) l) eqn:Hex; [ | reflexivity].
    apply existsb_exists in Hex as [y [Hy Heq]]. apply String.eqb_eq in Heq.
    now subst.
Qed.

(** A list without later occurrences has pairwise distinct ids, none of
    them among the ids met before. *)
Lemma later_occurrences_nil (l : list (id_kind * string)) :
  forall before,
    later_occurrences before l = [] <->
    List.NoDup (map snd l) /\ forall x, List.In x (map snd l) -> ~ List.In x before.
Proof.
  induction l as [|[kind id] l IH]; intros before; cbn [later_occurrences map snd].
  - split; [intros _; split; [constructor | intros x []] | reflexivity].
  - destruct (existsb (String.eqb id) before) eqn:Hex.
    + split; [discriminate | ]. intros [_ Hfresh]. exfalso.
      apply existsb_exists in Hex as [y [Hy Heq]]. apply String.eqb_eq in Heq.
      subst y. apply (Hfresh id); [now left | exact Hy].
    + cbn [app]. rewrite IH. split.
      * intros [Hnd Hfresh]. split.
        -- constructor; [ | exact Hnd]. intros Hin.
           apply (Hfresh id Hin), in_app_iff. right. now left.
        -- intros x [<- | Hx] Hb.
           ++ assert (existsb (String.eqb id) before = true); [ | congruence].
              apply existsb_exists. exists id. split; [exact Hb | apply String.eqb_refl].
           ++ apply (Hfresh x Hx), in_app_iff. now left.
      * intros [Hnd Hfresh]. inversion Hnd as [|? ? Hid Hl]; subst. split; [exact Hl | ].
        intros x Hx Hb. apply in_app_iff in Hb as [Hb | [<- | []]].
        -- apply (Hfresh x); [now right | exact Hb].
        -- contradiction.
Qed.

Lemma map_snd_flat_map {A} (f : A -> list (id_kind * string)) (l : list A) :
  map snd (flat_map f l) = flat_map (fun x => map snd (f x)) l.
Proof.
  induction l as [|x l IH]; cbn [flat_map map]; [reflexivity | ].
  now rewrite map_app, IH.
Qed.

Lemma NoDup_app_inv {A} (l1 l2 : list A) :
  List.NoDup (l1 ++ l2) ->
  List.NoDup l1 /\ List.NoDup l2 /\ forall x, List.In x l1 -> ~ List.In x l2.
Proof.
  induction l1 as [|a l1 IH]; cbn [app].
  - intros H. split; [constructor | split; [exact H | intros x []]].
  - intros H. inversion H as [|? ? Ha Hl]; subst.
    destruct (IH Hl) as [H1 [H2 Hd]]. split; [ | split; [exact H2 | ]].
    + constructor; [ | exact H1]. intros Hin. apply Ha, in_app_iff. now left.
    + intros x [<- | Hx] Hx2; [ | now apply (Hd x)].
      apply Ha, in_app_iff. now right.
Qed.

(** *** Statements that accept *)

Lemma accepts_ret {A} (a : A) : accepts (ret a : V A) [].
Proof. intros st _ _. exists a, st. repeat split; cbn [List.In]; tauto. Qed.

Lemma accepts_bind {A B} (m : V A) (k : A -> V B) (l1 l2 : list string) :
  accepts m l1 -> (forall a, accepts (k a) l2) -> accepts (bind m k) (l1 ++ l2).
Proof.
  intros Hm Hk st Hnd Hfresh.
  apply NoDup_app_inv in Hnd as [Hnd1 [Hnd2 Hdisj]].
  destruct (Hm st Hnd1) as [a [st1 [H1 [E1 S1]]]].
  { intros x Hx. apply Hfresh, in_app_iff. now left. }
  destruct (Hk a st1 Hnd2) as [b [st2 [H2 [E2 S2]]]].
  { intros x Hx. rewrite S1. intros [Hs | Hin].
    - revert Hs. apply Hfresh, in_app_iff. now right.
    - now apply (Hdisj x Hin). }
  exists b, st2. unfold bind. rewrite H1. split; [exact H2 | split; [congruence | ]].
  intros x. rewrite S2, S1, in_app_iff. tauto.
Qed.

Lemma accepts_bind_nil {A B} (m : V A) (k : A -> V B) (l : list string) :
  accepts m [] -> (forall a, accepts (k a) l) -> accepts (bind m k) l.
Proof. intros Hm Hk. apply (accepts_bind m k [] l Hm Hk). Qed.

Lemma accepts_when_false (cond : bool) (body : V unit) :
  cond = false -> accepts (when cond body) [].
Proof. intros ->. apply accepts_ret. Qed.

Lemma accepts_for_each_when {A} (cond : A -> bool) (message : A -> string)
    (l : list A) :
  forallb (fun x => negb (cond x)) l = true ->
  accepts (for_each (fun x => when (cond x) (append_error (message x))) l) [].
Proof.
  induction l as [|x l IH]; cbn [forallb for_each]; [intros _; apply accepts_ret | ].
  intros H. apply andb_true_iff in H as [Hx Hl]. apply negb_true_iff in Hx.
  apply accepts_bind_nil; [now apply accepts_when_false | intros _; now apply IH].
Qed.

Lemma accepts_for_enumerate {A} (body : nat -> A -> V unit)
    (ids : A -> list string) (l : list A) :
  (forall i x, List.In x l -> accepts (body i x) (ids x)) ->
  forall i, accepts (for_enumerate body i l) (flat_map ids l).
Proof.
  induction l as [|x l IH]; intros H i; cbn [for_enumerate flat_map];
    [apply accepts_ret | ].
  apply accepts_bind; [apply H; now left | intros _].
  apply IH. intros j y Hy. apply H. now right.
Qed.

(** Lines 190-193 and 234-237 on a new id: it is added, nothing is
    reported. *)
Lemma accepts_seen_check (message id : string) (rest : V unit) (l : list string) :
  accepts rest l ->
  accepts (known <- seen_mem id ;;
           (if known then append_error message else seen_add id) ;;
           rest)
          (id :: l).
Proof.
  intros Hrest st Hnd Hfresh. inversion Hnd as [|? ? Hid Hl]; subst.
  unfold bind at 1. cbn [seen_mem].
  assert (Hnew : bool_decide (id ∈ seen_ids st) = false).
  { apply bool_decide_eq_false, Hfresh. now left. }
  rewrite Hnew. unfold bind at 1. cbn [seen_add].
  destruct (Hrest (VState (errors st) ({[id]} ∪ seen_ids st)) Hl)
    as [a [st' [H [E S]]]].
  { cbn [seen_ids]. intros x Hx. rewrite elem_of_union, elem_of_singleton.
    intros [-> | Hs]; [contradiction | ].
    revert Hs. apply Hfresh. now right. }
  exists a, st'. split; [exact H | split; [exact E | ]].
  intros x. rewrite S. cbn [seen_ids List.In].
  rewrite elem_of_union, elem_of_singleton. split.
  - intros [[-> | Hs] | Hin]; auto.
  - intros [Hs | [<- | Hin]]; auto.
Qed.

Section Acceptance.

Variable py_repr : json -> string.

Lemma accepts_validate_option (field_prefix : string) (i : nat) (option : json) :
  valid_option option = true ->
  accepts (validate_option field_prefix i option)
    (map snd (option_registered option)).
Proof.
  destruct option as [ | | | | | | items]; try discriminate.
  cbn [valid_option]. rewrite andb_true_iff. intros [Hid Hlabel].
  pose proof Hid as Hid'. pose proof Hlabel as Hlabel'.
  apply nonblank_str_get in Hid' as [id Eid], Hlabel' as [text Elabel].
  unfold dict_get_default in Hid, Hlabel. rewrite Eid in Hid. rewrite Elabel in Hlabel.
  cbn [is_nonblank_str] in Hid.
  unfold validate_option, option_registered, dict_has.
  cbn [subscript]. rewrite Eid, Elabel. cbn [negb orb andb]. rewrite !bind_lift_inr.
  rewrite Hid. cbn [negb map snd].
  apply accepts_seen_check. apply accepts_when_false. now rewrite Hlabel.
Qed.

Lemma accepts_validate_field (section_prefix : string) (i : nat) (field_spec : json) :
  valid_field field_spec = true ->
  accepts (validate_field py_repr section_prefix i field_spec)
    (map snd (field_registered field_spec)).
Proof.
  destruct field_spec as [ | | | | | | items]; try discriminate.
  cbn [valid_field]. rewrite !andb_true_iff.
  intros [[[[[[[Hkeys Hid] Hty] Hreq] Hlabel] Hhelp] Hdrop] Hgroup].
  destruct (has_field_keys_get items Hkeys)
    as [id_value [text [ty [req [help [Eid [Etext [Ety [Ereq Ehelp]]]]]]]]].
  unfold dict_get_default in *.
  rewrite Eid in Hid. rewrite Ety in Hty, Hdrop, Hgroup. rewrite Ereq in Hreq.
  rewrite Etext in Hlabel. rewrite Ehelp in Hhelp.
  destruct id_value as [ | | | | id | | ]; try discriminate Hid.
  cbn [is_nonblank_str] in Hid.
  unfold validate_field, field_registered.
  rewrite missing_keys_test, Hkeys. cbn [negb].
  apply accepts_bind_nil.
  { intros st _ _. exists tt, st. rewrite (field_keys_loop_quiet _ _ _ Hkeys).
    repeat split; cbn [List.In]; tauto. }
  intros _. cbn [subscript]. unfold dict_get_default.
  rewrite Eid, Etext, Ety, Ereq, Ehelp, !bind_lift_inr, Hid. cbn [negb map snd].
  apply accepts_seen_check.
  destruct (allowed_type_str ty Hty) as [t ->]. cbn [hashable].
  apply accepts_bind_nil; [apply accepts_when_false; now rewrite Hty | intros _].
  apply accepts_bind_nil; [apply accepts_when_false; now rewrite Hreq | intros _].
  apply accepts_bind_nil; [apply accepts_when_false; now rewrite Hlabel | intros _].
  apply accepts_bind_nil; [apply accepts_when_false; now rewrite Hhelp | intros _].
  cbn [eq_str] in *.
  destruct (String.eqb_spec t "dropdown") as [-> | _].
  - cbn [String.eqb Ascii.eqb Bool.eqb when]. 
    apply accepts_bind_nil; [ | intros _; apply accepts_ret].
    unfold validate_dropdown_options.
    destruct (dict_get "options" items) as [[ | | | | | [|o os] | ] | ];
      try discriminate Hdrop.
    apply accepts_when_false. now rewrite Hdrop.
  - apply accepts_bind_nil; [apply accepts_ret | intros _].
    destruct (String.eqb t "checkbox_group"); [ | apply accepts_ret].
    cbn [when]. unfold validate_group_options.
    destruct (dict_get "options" items) as [[ | | | | | [|o os] | ] | ];
      try discriminate Hgroup.
    rewrite map_snd_flat_map. apply accepts_for_enumerate.
    intros j x Hx. apply accepts_validate_option.
    rewrite forallb_forall in Hgroup. now apply Hgroup.
Qed.

Lemma accepts_validate_section (i : nat) (section : json) :
  valid_section section = true ->
  accepts (validate_section py_repr i section)
    (map snd (section_registered section)).
Proof.
  destruct section as [ | | | | | | items]; try discriminate.
  cbn [valid_section]. rewrite !andb_true_iff. intros [[Hid Htitle] Hfields].
  pose proof Hid as Hid'. pose proof Htitle as Htitle'.
  apply nonblank_str_get in Hid' as [id Eid], Htitle' as [title Etitle].
  unfold dict_get_default in Hid, Htitle. rewrite Eid in Hid. rewrite Etitle in Htitle.
  destruct (dict_get "fields" items) as [[ | | | | | [|f fs] | ] | ] eqn:Efields;
    try discriminate Hfields.
  unfold validate_section, section_registered. rewrite Efields.
  apply accepts_bind_nil.
  { apply accepts_for_each_when. unfold dict_has. cbn [forallb].
    now rewrite Eid, Etitle, Efields. }
  intros _. rewrite Eid, Etitle.
  apply accepts_bind_nil; [apply accepts_when_false; now rewrite Hid | intros _].
  apply accepts_bind_nil; [apply accepts_when_false; now rewrite Htitle | intros _].
  rewrite map_snd_flat_map. apply accepts_for_enumerate.
  intros j x Hx. apply accepts_validate_field.
  rewrite forallb_forall in Hfields. now apply Hfields.
Qed.

Lemma accepts_validate_branding_string (items : list (string * json)) (key : string) :
  valid_branding_string items key = true ->
  accepts (validate_branding_string items key) [].
Proof.
  unfold valid_branding_string, validate_branding_string, dict_get_default.
  cbn [subscript].
  destruct (dict_get key items) as [[ | | | | s | | ] | ]; try discriminate.
  intros Hs. rewrite bind_lift_inr. apply accepts_when_false.
  cbn [py_truthy]. now rewrite Hs.
Qed.

Lemma accepts_validate_branding (items : list (string * json)) :
  valid_branding py_repr (JDict items) = true ->
  accepts (validate_branding py_repr items) [].
Proof.
  cbn [valid_branding]. rewrite andb_true_iff. intros [Hcolors Hstrings].
  unfold BRANDING_STRING_KEYS in Hstrings. cbn [forallb] in Hstrings.
  rewrite !andb_true_iff in Hstrings. destruct Hstrings as [H1 [H2 [H3 _]]].
  unfold validate_branding.
  apply accepts_bind_nil.
  { apply accepts_for_each_when. rewrite forallb_forall in Hcolors |- *.
    intros key Hkey. specialize (Hcolors key Hkey). unfold valid_color in Hcolors.
    apply andb_true_iff in Hcolors as [-> ->]. reflexivity. }
  intros _.
  apply accepts_bind_nil; [now apply accepts_validate_branding_string | intros _].
  apply accepts_bind_nil; [now apply accepts_validate_branding_string | intros _].
  now apply accepts_validate_branding_string.
Qed.

Lemma accepts_validate_layout (items : list (string * json)) :
  valid_layout (JDict items) = true -> accepts (validate_layout items) [].
Proof.
  cbn [valid_layout]. rewrite andb_true_iff. intros [Hnum Hpos].
  unfold validate_layout. apply accepts_when_false.
  apply negb_true_iff in Hpos. now rewrite Hnum, Hpos.
Qed.

Lemma accepts_validate_body (items : list (string * json)) :
  well_formed py_repr (JDict items) = true ->
  accepts (validate_body py_repr (JDict items))
    (map snd (registered_ids (JDict items))).
Proof.
  cbn [well_formed]. rewrite !andb_true_iff.
  intros [[[[Hmeta Hbrand] Hlayout] Hsections] _].
  unfold dict_get_default in *.
  destruct (dict_get "metadata" items) as [metadata|] eqn:Emeta; [ | discriminate].
  destruct (dict_get "branding" items) as [branding|] eqn:Ebrand; [ | discriminate].
  destruct (dict_get "document_layout" items) as [layout|] eqn:Elayout;
    [ | discriminate].
  destruct (dict_get "sections" items) as [[ | | | | | [|s ss] | ] | ] eqn:Esections;
    try discriminate.
  destruct branding as [ | | | | | | branding]; try discriminate.
  destruct layout as [ | | | | | | layout]; try discriminate.
  unfold validate_body, registered_ids. cbn [subscript].
  rewrite Emeta, Ebrand, Elayout, Esections, !bind_lift_inr.
  apply accepts_bind_nil; [apply accepts_when_false; now rewrite Hmeta | intros _].
  do 3 (apply accepts_bind_nil; [now apply accepts_when_false | intros _]).
  apply accepts_bind_nil; [now apply accepts_validate_layout | intros _].
  apply accepts_bind_nil; [now apply accepts_validate_branding | intros _].
  rewrite map_snd_flat_map. apply accepts_for_enumerate.
  intros j x Hx. apply accepts_validate_section.
  rewrite forallb_forall in Hsections. now apply Hsections.
Qed.

Lemma well_formed_validated (spec : json) :
  well_formed py_repr spec = true -> validate_spec py_repr spec = inr tt.
Proof.
  intros Hwf. destruct spec as [ | | | | | | items]; try discriminate Hwf.
  pose proof (accepts_validate_body items Hwf) as Hrun.
  cbn [well_formed] in Hwf. rewrite !andb_true_iff in Hwf.
  destruct Hwf as [[[[Hmeta Hbrand] Hlayout] Hsections] Hids].
  assert (Hkeys : missing_top_level items = []).
  { unfold missing_top_level, TOP_LEVEL_REQUIRED_KEYS, dict_has. cbn [flat_map].
    unfold dict_get_default in *.
    destruct (dict_get "metadata" items); [ | discriminate].
    destruct (dict_get "branding" items); [ | discriminate].
    destruct (dict_get "document_layout" items); [ | discriminate].
    destruct (dict_get "sections" items); [ | discriminate]. reflexivity. }
  destruct (Hrun (VState [] ∅)) as [u [st [H [E _]]]].
  - now apply distinct_NoDup.
  - intros x _. cbn [seen_ids]. apply not_elem_of_empty.
  - unfold validate_spec, validate_spec_errors. rewrite Hkeys, H, E. reflexivity.
Qed.

End Acceptance.

(** *** What a run without errors tells about branding and layout *)

Section Soundness.

Variable py_repr : json -> string.

Lemma quiet_validate_layout (items : list (string * json)) (st st' : vstate) (u : unit) :
  validate_layout items st = inr (u, st') -> errors st' = errors st ->
  valid_layout (JDict items) = true.
Proof.
  intros H Hq. unfold validate_layout in H.
  apply quiet_when_append in H; [ | exact Hq].
  apply orb_false_iff in H as [Hnum Hpos]. apply negb_false_iff in Hnum.
  cbn [valid_layout]. now rewrite Hnum, Hpos.
Qed.

Lemma quiet_validate_branding_string (items : list (string * json)) (key : string)
    (st st' : vstate) (u : unit) :
  validate_branding_string items key st = inr (u, st') -> errors st' = errors st ->
  valid_branding_string items key = true.
Proof.
  intros H Hq. unfold validate_branding_string, dict_get_default in H.
  unfold valid_branding_string. cbn [subscript] in H.
  destruct (dict_get key items) as [[ | | | | s | | ] | ];
    try (exfalso; eapply quiet_append_error; eauto; fail);
    [ | discriminate H].
  rewrite bind_lift_inr in H. apply quiet_when_append in H; [ | exact Hq].
  now apply negb_false_iff in H.
Qed.

Lemma monotone_validate_branding_string (items : list (string * json)) (key : string) :
  monotone (validate_branding_string items key).
Proof. unfold validate_branding_string. step_monotone. Qed.

Lemma quiet_validate_branding (items : list (string * json)) (st st' : vstate)
    (u : unit) :
  validate_branding py_repr items st = inr (u, st') -> errors st' = errors st ->
  valid_branding py_repr (JDict items) = true.
Proof.
  intros H Hq. unfold validate_branding in H.
  pose proof monotone_validate_branding_string as Hmono.
  apply quiet_bind_split in H as [v0 [st0 [H0 [Hq0 [H Hq0']]]]];
    [ | step_monotone | intros _; step_monotone; apply Hmono | exact Hq].
  apply quiet_bind_split in H as [v1 [st1 [H1 [Hq1 [H Hq1']]]]];
    [ | apply Hmono | intros _; step_monotone; apply Hmono | exact Hq0'].
  apply quiet_bind_split in H as [v2 [st2 [H2 [Hq2 [H3 Hq2']]]]];
    [ | apply Hmono | intros _; apply Hmono | exact Hq1'].
  apply quiet_for_each_when in H0; [ | exact Hq0].
  apply quiet_validate_branding_string in H1; [ | exact Hq1].
  apply quiet_validate_branding_string in H2; [ | exact Hq2].
  apply quiet_validate_branding_string in H3; [ | exact Hq2'].
  cbn [valid_branding]. apply andb_true_iff. split.
  - rewrite forallb_forall in H0 |- *. intros key Hkey.
    specialize (H0 key Hkey). unfold valid_color.
    apply negb_true_iff, orb_false_iff in H0 as [Ha Hb].
    apply negb_false_iff in Ha, Hb. now rewrite Ha, Hb.
  - unfold BRANDING_STRING_KEYS. cbn [forallb]. now rewrite H1, H2, H3.
Qed.

Lemma validated_well_formed (spec : json) :
  validate_spec py_repr spec = inr tt -> well_formed py_repr spec = true.
Proof.
  intros Hvalid.
  destruct (validated_shape py_repr spec Hvalid)
    as [items [layout [sections [-> [_ [Hlayout [Hsections [Hne Hshape]]]]]]]].
  unfold validate_spec, validate_spec_errors in Hvalid.
  destruct (missing_top_level items) eqn:Hkeys; [ | discriminate].
  destruct (validate_body py_repr (JDict items) (VState [] ∅))
    as [e | [u st]] eqn:Hrun; [discriminate | ].
  destruct (errors st) eqn:Hq; [clear Hvalid | discriminate].
  assert (Hids : distinct (map snd (registered_ids (JDict items))) = true).
  { destruct (tracks_validate_body py_repr items (VState [] ∅) u st [] Hrun)
      as [added [Herr [Hdup _]]].
    { intros x. cbn [seen_ids List.In]. rewrite elem_of_empty. tauto. }
    cbn [errors app] in Herr. rewrite Hq in Herr. subst added.
    cbn [List.filter] in Hdup. symmetry in Hdup. apply map_eq_nil in Hdup.
    apply distinct_NoDup. now apply (later_occurrences_nil _ []). }
  cbn [well_formed]. rewrite Hids, Hsections, andb_true_r.
  unfold validate_body in Hrun. cbn [subscript] in Hrun.
  unfold dict_get_default. rewrite Hlayout, Hsections in *.
  destruct (dict_get "metadata" items) as [metadata|]; [ | discriminate Hrun].
  destruct (dict_get "branding" items) as [branding|]; [ | discriminate Hrun].
  rewrite !bind_lift_inr, !bind_when_append in Hrun.
  assert (Htail : monotone
            (validate_layout layout ;;
             match branding with
             | JDict items => validate_branding py_repr items
             | _ => ret tt
             end ;;
             for_enumerate (validate_section py_repr) 1 sections)).
  { step_monotone. }
  pose proof (Htail _ _ _ Hrun) as [tail Herr]. cbn [errors app] in Herr.
  rewrite Hq, <- !app_assoc in Herr. symmetry in Herr.
  apply app_eq_nil in Herr as [Hc1 Herr].
  apply app_eq_nil in Herr as [Hc2 Herr].
  apply app_eq_nil in Herr as [Hc3 Herr].
  apply app_eq_nil in Herr as [Hc4 _].
  destruct (is_dict metadata); [ | discriminate Hc1].
  destruct branding as [ | | | | | | branding]; try discriminate Hc2.
  destruct sections as [|s ss]; [now destruct Hne | ].
  cbn [negb app is_dict] in Hrun.
  apply quiet_bind_split in Hrun as [v1 [st1 [H1 [Hq1 [Hrun Hq1']]]]];
    [ | step_monotone | intros _; step_monotone | now rewrite Hq].
  apply quiet_bind_split in Hrun as [v2 [st2 [H2 [Hq2 [Hrun Hq2']]]]];
    [ | step_monotone | intros _; step_monotone | exact Hq1'].
  rewrite (quiet_validate_layout _ _ _ _ H1 Hq1).
  rewrite (quiet_validate_branding _ _ _ _ H2 Hq2).
  now rewrite Hshape.
Qed.

End Soundness.

(** X4.  [validate_spec] returns without raising exactly on the well-formed
    specifications: a mapping with the four top-level keys whose metadata,
    branding and layout are objects; a margin that is an [int] or [float]
    instance and not [<= 0]; five colours whose [str] is an accepted colour;
    non-empty strings as heading font, body font and logo path; a non-empty
    list of valid sections; field and option ids that are pairwise
    distinct. *)
Theorem validate_spec_accepts_well_formed (py_repr : json -> string) (spec : json) :
  validate_spec py_repr spec = inr tt <-> well_formed py_repr spec = true.
Proof.
  split; [apply validated_well_formed | apply well_formed_validated].
Qed.

(** *** The exceptions of the validator *)

Lemma raises_only_ret {A} (allowed : exn -> Prop) (a : A) :
  raises_only allowed (ret a : V A).
Proof. intros st e H. discriminate H. Qed.

Lemma raises_only_bind {A B} (allowed : exn -> Prop) (m : V A) (k : A -> V B) :
  raises_only allowed m -> (forall a, raises_only allowed (k a)) ->
  raises_only allowed (bind m k).
Proof.
  intros Hm Hk st e H. unfold bind in H.
  destruct (m st) as [e' | [a st1]] eqn:Hrun.
  - injection H as <-. now apply (Hm st).
  - now apply (Hk a st1).
Qed.

Lemma raises_only_lift {A} (allowed : exn -> Prop) (r : exn + A) :
  (forall e, r = inl e -> allowed e) -> raises_only allowed (lift r : V A).
Proof.
  intros Hr st e H. unfold lift in H. destruct r as [e' | a]; [ | discriminate H].
  injection H as <-. now apply Hr.
Qed.

Lemma raises_only_append_error (allowed : exn -> Prop) (message : string) :
  raises_only allowed (append_error message).
Proof. intros st e H. discriminate H. Qed.

Lemma raises_only_seen_add (allowed : exn -> Prop) (x : string) :
  raises_only allowed (seen_add x).
Proof. intros st e H. discriminate H. Qed.

Lemma raises_only_seen_mem (allowed : exn -> Prop) (x : string) :
  raises_only allowed (seen_mem x).
Proof. intros st e H. discriminate H. Qed.

Lemma raises_only_when (allowed : exn -> Prop) (cond : bool) (body : V unit) :
  raises_only allowed body -> raises_only allowed (when cond body).
Proof. intros H. destruct cond; [exact H | apply raises_only_ret]. Qed.

Lemma raises_only_for_each {A} (allowed : exn -> Prop) (body : A -> V unit)
    (l : list A) :
  (forall x, raises_only allowed (body x)) -> raises_only allowed (for_each body l).
Proof.
  intros H. induction l as [|x l IH]; cbn [for_each]; [apply raises_only_ret | ].
  apply raises_only_bind; [apply H | intros _; exact IH].
Qed.

Lemma raises_only_for_enumerate {A} (allowed : exn -> Prop)
    (body : nat -> A -> V unit) (l : list A) :
  (forall i x, raises_only allowed (body i x)) ->
  forall i, raises_only allowed (for_enumerate body i l).
Proof.
  intros H. induction l as [|x l IH]; intros i; cbn [for_enumerate];
    [apply raises_only_ret | ].
  apply raises_only_bind; [apply H | intros _; apply IH].
Qed.

Lemma raises_only_lift_inr {A} (allowed : exn -> Prop) (a : A) :
  raises_only allowed (lift (inr a) : V A).
Proof. apply raises_only_lift. discriminate. Qed.

#[local] Hint Resolve raises_only_ret raises_only_append_error raises_only_seen_add
  raises_only_seen_mem raises_only_lift_inr : validator.

(** Takes a statement apart along its binds, branches and loops. *)
Ltac step_raises :=
  repeat first
    [ solve [ auto with validator ]
    | apply raises_only_bind; [ | intros ? ]
    | apply raises_only_when
    | apply raises_only_for_each; intros ?
    | apply raises_only_for_enumerate; intros ? ?
    | match goal with
      | |- raises_only _ (if ?b then _ else _) => destruct b
      | |- raises_only _ (match ?x with _ => _ end) => destruct x
      end ].

Lemma always_raises_bind_l {A B} (m : V A) (k : A -> V B) (e : exn) :
  always_raises m e -> always_raises (bind m k) e.
Proof. intros H st. unfold bind. now rewrite (H st). Qed.

Lemma always_raises_bind_r {A B} (m : V A) (k : A -> V B) (e : exn) :
  returns m -> (forall a, always_raises (k a) e) -> always_raises (bind m k) e.
Proof.
  intros Hm Hk st. destruct (Hm st) as [a [st1 H]]. unfold bind. rewrite H.
  apply Hk.
Qed.

Lemma for_enumerate_app {A} (body : nat -> A -> V unit) (l1 l2 : list A) :
  forall (i : nat) (st : vstate),
    for_enumerate body i (l1 ++ l2) st =
    (for_enumerate body i l1 ;; for_enumerate body (i + length l1) l2) st.
Proof.
  induction l1 as [|x l1 IH]; intros i st; cbn [for_enumerate app length].
  - unfold bind, ret. now rewrite Nat.add_0_r.
  - unfold bind. destruct (body i x st) as [e | [a st1]]; [reflexivity | ].
    rewrite IH. unfold bind.
    now replace (S i + length l1) with (i + S (length l1)) by lia.
Qed.

(** A loop raises [e] when the body does at some element and returns at the
    elements before it. *)
Lemma always_raises_for_enumerate {A} (body : nat -> A -> V unit)
    (l1 l2 : list A) (x : A) (i : nat) (e : exn) :
  (forall j y, List.In y l1 -> returns (body j y)) ->
  (forall j, always_raises (body j x) e) ->
  always_raises (for_enumerate body i (l1 ++ x :: l2)) e.
Proof.
  intros Hl1 Hx st. rewrite for_enumerate_app.
  apply always_raises_bind_r; [now apply returns_for_enumerate | intros _].
  cbn [for_enumerate]. apply always_raises_bind_l, Hx.
Qed.

Lemma top_level_keys_present (items : list (string * json)) :
  missing_top_level items = [] ->
  exists metadata branding layout sections,
    dict_get "metadata" items = Some metadata
    /\ dict_get "branding" items = Some branding
    /\ dict_get "document_layout" items = Some layout
    /\ dict_get "sections" items = Some sections.
Proof.
  unfold missing_top_level, TOP_LEVEL_REQUIRED_KEYS, dict_has. cbn [flat_map].
  destruct (dict_get "metadata" items) as [m|]; [ | discriminate].
  destruct (dict_get "branding" items) as [b|]; [ | discriminate].
  destruct (dict_get "document_layout" items) as [l|]; [ | discriminate].
  destruct (dict_get "sections" items) as [s|]; [ | discriminate].
  intros _. now exists m, b, l, s.
Qed.

Section Exceptions.

Variable py_repr : json -> string.

Lemma raises_only_validate_option (field_prefix : string) (i : nat) (option : json) :
  raises_only stray_exception (validate_option field_prefix i option).
Proof.
  unfold validate_option.
  destruct option as [ | | | | | | items]; try apply raises_only_append_error.
  destruct (dict_has "id" items) eqn:Hid; cbn [negb orb];
    [ | apply raises_only_append_error].
  destruct (dict_has "label" items) eqn:Hlabel; cbn [negb orb];
    [ | apply raises_only_append_error].
  apply dict_has_get in Hid as [id_value Hid], Hlabel as [label_value Hlabel].
  cbn [subscript]. rewrite Hid, Hlabel. step_raises.
Qed.

Lemma raises_only_validate_field (section_prefix : string) (i : nat)
    (field_spec : json) :
  raises_only stray_exception (validate_field py_repr section_prefix i field_spec).
Proof.
  unfold validate_field.
  destruct field_spec as [ | | | | | | items]; try apply raises_only_append_error.
  apply raises_only_bind; [step_raises | intros _].
  rewrite missing_keys_test.
  destruct (has_field_keys items) eqn:Hkeys; cbn [negb]; [ | apply raises_only_ret].
  destruct (has_field_keys_get items Hkeys)
    as [id_value [text [ty [req [help [Hid [Htext [Hty [Hreq Hhelp]]]]]]]]].
  cbn [subscript]. rewrite Hid, Htext, Hty, Hreq, Hhelp, !bind_lift_inr.
  destruct id_value as [ | | | | id | | ]; try apply raises_only_append_error.
  destruct (str_truthy (strip id)); cbn [negb]; [ | apply raises_only_append_error].
  pose proof raises_only_validate_option as Hopt.
  assert (Htype : raises_only stray_exception (lift (inl TypeError) : V unit)).
  { apply raises_only_lift. intros e He. injection He as <-. now left. }
  unfold validate_dropdown_options, validate_group_options.
  step_raises; apply Hopt.
Qed.

Lemma raises_only_validate_section (i : nat) (section : json) :
  raises_only stray_exception (validate_section py_repr i section).
Proof.
  pose proof raises_only_validate_field as Hfield.
  unfold validate_section. step_raises; apply Hfield.
Qed.

Lemma raises_only_validate_branding_string (items : list (string * json))
    (key : string) :
  List.In key BRANDING_STRING_KEYS ->
  raises_only stray_exception (validate_branding_string items key).
Proof.
  intros Hkey. unfold validate_branding_string.
  destruct (dict_get_default key (JStr EmptyString) items);
    try apply raises_only_append_error.
  apply raises_only_bind; [ | intros v; step_raises].
  apply raises_only_lift. cbn [subscript].
  destruct (dict_get key items); [discriminate | ].
  intros e He. injection He as <-. right. now exists key.
Qed.

Lemma raises_only_validate_branding (items : list (string * json)) :
  raises_only stray_exception (validate_branding py_repr items).
Proof.
  unfold validate_branding.
  apply raises_only_bind; [step_raises | intros _].
  repeat (apply raises_only_bind; [ | intros _]);
    apply raises_only_validate_branding_string; unfold BRANDING_STRING_KEYS;
    cbn [List.In]; tauto.
Qed.

Lemma raises_only_validate_body (items : list (string * json)) :
  missing_top_level items = [] ->
  raises_only stray_exception (validate_body py_repr (JDict items)).
Proof.
  intros Hkeys.
  destruct (top_level_keys_present items Hkeys)
    as [metadata [branding [layout [sections [Hm [Hb [Hl Hs]]]]]]].
  unfold validate_body. cbn [subscript]. rewrite Hm, Hb, Hl, Hs, !bind_lift_inr.
  pose proof raises_only_validate_section as Hsection.
  pose proof raises_only_validate_branding as Hbranding.
  unfold validate_layout.
  step_raises; first [apply Hsection | apply Hbranding].
Qed.

Lemma validate_spec_raises (spec : json) (e : exn) :
  validate_spec py_repr spec = inl e ->
  (exists message, e = SpecValidationError message) \/ stray_exception e.
Proof.
  unfold validate_spec, validate_spec_errors.
  destruct spec as [ | | | | | | items];
    try (intros H; injection H as <-; left; eexists; reflexivity).
  destruct (missing_top_level items) as [|m ms] eqn:Hkeys.
  - destruct (validate_body py_repr (JDict items) (VState [] ∅))
      as [e' | [u st]] eqn:Hrun.
    + intros H. injection H as <-. right.
      now apply (raises_only_validate_body items Hkeys (VState [] ∅)).
    + destruct (errors st); [discriminate | ].
      intros H. injection H as <-. left. eexists. reflexivity.
  - intros H. injection H as <-. left. eexists. reflexivity.
Qed.

(** X5.  [validate_spec] returns or raises [SpecValidationError], with two
    exceptions that slip through: the [KeyError] of a branding object
    without its heading_font, body_font or logo_path key, and the
    [TypeError] of a field whose type is a list or an object. *)
Theorem validate_spec_exceptions (spec : json) (e : exn) :
  validate_spec py_repr spec = inl e ->
  (exists message, e = SpecValidationError message) \/ stray_exception e.
Proof. apply validate_spec_raises. Qed.

Lemma validate_branding_string_missing (items : list (string * json)) (key : string) :
  dict_has key items = false ->
  always_raises (validate_branding_string items key) (KeyError key).
Proof.
  unfold dict_has. intros Hkey st.
  unfold validate_branding_string, dict_get_default. cbn [subscript].
  destruct (dict_get key items); [discriminate | reflexivity].
Qed.

Lemma validate_branding_missing_key (items : list (string * json)) (key : string) :
  List.find (fun k => negb (dict_has k items)) BRANDING_STRING_KEYS = Some key ->
  always_raises (validate_branding py_repr items) (KeyError key).
Proof.
  unfold BRANDING_STRING_KEYS. cbn [List.find]. intros Hfind.
  unfold validate_branding.
  apply always_raises_bind_r; [step_returns | intros _].
  destruct (dict_has "heading_font" items) eqn:H1; cbn [negb] in Hfind.
  2:{ injection Hfind as <-. apply always_raises_bind_l.
      now apply validate_branding_string_missing. }
  apply always_raises_bind_r;
    [now apply returns_validate_branding_string | intros _].
  destruct (dict_has "body_font" items) eqn:H2; cbn [negb] in Hfind.
  2:{ injection Hfind as <-. apply always_raises_bind_l.
      now apply validate_branding_string_missing. }
  apply always_raises_bind_r;
    [now apply returns_validate_branding_string | intros _].
  destruct (dict_has "logo_path" items) eqn:H3; cbn [negb] in Hfind;
    [discriminate Hfind | ].
  injection Hfind as <-. now apply validate_branding_string_missing.
Qed.

(** X6.  On a specification with the four top-level keys whose branding
    object lacks the heading_font, body_font or logo_path key,
    [validate_spec] raises the [KeyError] of the first of the three keys
    that is absent, whatever errors it has collected; no
    [SpecValidationError] is raised. *)
Theorem validate_spec_missing_branding_key (items branding : list (string * json))
    (key : string) :
  missing_top_level items = [] ->
  dict_get "branding" items = Some (JDict branding) ->
  List.find (fun k => negb (dict_has k branding)) BRANDING_STRING_KEYS = Some key ->
  validate_spec py_repr (JDict items) = inl (KeyError key).
Proof.
  intros Hkeys Hbrand Hfind.
  destruct (top_level_keys_present items Hkeys)
    as [metadata [branding' [layout [sections [Hm [Hb [Hl Hs]]]]]]].
  rewrite Hbrand in Hb. injection Hb as <-.
  assert (Hraise : always_raises (validate_body py_repr (JDict items)) (KeyError key)).
  { unfold validate_body. cbn [subscript]. rewrite Hm, Hbrand, Hl, Hs, !bind_lift_inr.
    do 4 (apply always_raises_bind_r; [step_returns | intros _]).
    apply always_raises_bind_r.
    { destruct layout; try apply returns_ret. unfold validate_layout. step_returns. }
    intros _. apply always_raises_bind_l.
    now apply validate_branding_missing_key. }
  unfold validate_spec, validate_spec_errors. now rewrite Hkeys, Hraise.
Qed.

Lemma validate_field_unhashable (section_prefix : string) (i : nat)
    (field_spec : json) :
  field_crash_free field_spec = false ->
  always_raises (validate_field py_repr section_prefix i field_spec) TypeError.
Proof.
  unfold field_crash_free.
  destruct field_spec as [ | | | | | | items]; try discriminate.
  destruct (has_field_keys items) eqn:Hkeys; cbn [andb]; [ | discriminate].
  destruct (has_field_keys_get items Hkeys)
    as [id_value [text [ty [req [help [Hid [Htext [Hty [Hreq Hhelp]]]]]]]]].
  unfold dict_get_default. rewrite Hid, Hty.
  destruct id_value as [ | | | | id | | ]; try discriminate.
  cbn [is_nonblank_str]. destruct (str_truthy (strip id)) eqn:Hblank; [ | discriminate].
  intros Hhash. unfold validate_field.
  apply always_raises_bind_r; [step_returns | intros _].
  rewrite missing_keys_test, Hkeys. cbn [negb subscript].
  rewrite Hid, Htext, Hty, Hreq, Hhelp, !bind_lift_inr, Hblank. cbn [negb].
  apply always_raises_bind_r; [step_returns | intros known].
  apply always_raises_bind_r; [step_returns | intros _].
  rewrite Hhash. apply always_raises_bind_l. intros st. reflexivity.
Qed.

(** X7.  [validate_spec] raises [TypeError] at the first field that has the
    five keys, a non-blank string id and a list or an object as type: the
    test [field_type not in ALLOWED_FIELD_TYPES] hashes the type.  The sections
    and fields before it hold no such field, and the branding object has its
    heading_font, body_font and logo_path keys. *)
Theorem validate_spec_unhashable_type (items sitems : list (string * json))
    (pre post fpre fpost : list json) (f : json) :
  missing_top_level items = [] ->
  branding_crash_free (dict_get_default "branding" JNull items) = true ->
  dict_get "sections" items = Some (JList (pre ++ JDict sitems :: post)) ->
  forallb section_crash_free pre = true ->
  dict_get "fields" sitems = Some (JList (fpre ++ f :: fpost)) ->
  forallb field_crash_free fpre = true ->
  field_crash_free f = false ->
  validate_spec py_repr (JDict items) = inl TypeError.
Proof.
  intros Hkeys Hbrand Hsections Hpre Hfields Hfpre Hf.
  destruct (top_level_keys_present items Hkeys)
    as [metadata [branding [layout [sections [Hm [Hb [Hl Hs]]]]]]].
  rewrite Hsections in Hs. injection Hs as <-.
  unfold dict_get_default in Hbrand. rewrite Hb in Hbrand.
  assert (Hsection : forall j,
            always_raises (validate_section py_repr j (JDict sitems)) TypeError).
  { intros j. unfold validate_section. rewrite Hfields.
    do 3 (apply always_raises_bind_r; [step_returns | intros _]).
    destruct (fpre ++ f :: fpost) as [|x xs] eqn:Hl0;
      [now destruct fpre | rewrite <- Hl0].
    apply always_raises_for_enumerate.
    - intros n x' Hx'. apply returns_validate_field.
      rewrite forallb_forall in Hfpre. now apply Hfpre.
    - intros n. now apply validate_field_unhashable. }
  assert (Hraise : always_raises (validate_body py_repr (JDict items)) TypeError).
  { unfold validate_body. cbn [subscript]. rewrite Hm, Hb, Hl, Hsections, !bind_lift_inr.
    do 4 (apply always_raises_bind_r; [step_returns | intros _]).
    apply always_raises_bind_r.
    { destruct layout; try apply returns_ret. unfold validate_layout. step_returns. }
    intros _. apply always_raises_bind_r.
    { destruct branding; try apply returns_ret. now apply returns_validate_branding. }
    intros _. apply always_raises_for_enumerate.
    - intros n x Hx. apply returns_validate_section.
      rewrite forallb_forall in Hpre. now apply Hpre.
    - exact Hsection. }
  unfold validate_spec, validate_spec_errors. now rewrite Hkeys, Hraise.
Qed.

End Exceptions.

(* ===================================================================== *)
(** ** The placeholders of the planner *)
(* ===================================================================== *)

Lemma bind_inr_M {St A B} (m : M St A) (k : A -> M St B) (st st' : St) (b : B) :
  bind m k st = inr (b, st') ->
  exists a st1, m st = inr (a, st1) /\ k a st1 = inr (b, st').
Proof.
  unfold bind. destruct (m st) as [e | [a st1]]; [discriminate | ].
  intros H. now exists a, st1.
Qed.

Lemma appends_ret (Q : PlaceholderSpec -> Prop) {A} (a : A) : appends Q (ret a).
Proof.
  intros st x st' H. injection H as _ <-. exists []. rewrite app_nil_r.
  split; [reflexivity | intros p []].
Qed.

Lemma appends_lift (Q : PlaceholderSpec -> Prop) {A} (r : exn + A) :
  appends Q (lift r).
Proof.
  intros st x st' H. unfold lift in H. destruct r; [discriminate | ].
  injection H as _ <-. exists []. rewrite app_nil_r.
  split; [reflexivity | intros p []].
Qed.

Lemma appends_bind (Q : PlaceholderSpec -> Prop) {A B}
    (m : M (list PlaceholderSpec) A) (k : A -> M (list PlaceholderSpec) B) :
  appends Q m -> (forall a, appends Q (k a)) -> appends Q (bind m k).
Proof.
  intros Hm Hk st b st' H. apply bind_inr_M in H as [a [st1 [H1 H2]]].
  destruct (Hm _ _ _ H1) as [l1 [-> Q1]]. destruct (Hk _ _ _ _ H2) as [l2 [-> Q2]].
  exists (l1 ++ l2). rewrite app_assoc. split; [reflexivity | ].
  intros p Hp. apply in_app_iff in Hp as [Hp | Hp]; auto.
Qed.

(** What is known of the value a raising expression returned. *)
Lemma appends_bind_lift (Q : PlaceholderSpec -> Prop) {A B} (r : exn + A)
    (k : A -> M (list PlaceholderSpec) B) :
  (forall a, r = inr a -> appends Q (k a)) -> appends Q (bind (lift r) k).
Proof.
  intros Hk st b st' H. destruct r as [e | a]; [discriminate H | ].
  now apply (Hk a eq_refl st b st').
Qed.

Lemma appends_for_each (Q : PlaceholderSpec -> Prop) {A}
    (body : A -> M (list PlaceholderSpec) unit) (l : list A) :
  (forall x, appends Q (body x)) -> appends Q (for_each body l).
Proof.
  intros H. induction l as [|x l IH]; cbn [for_each]; [apply appends_ret | ].
  apply appends_bind; [apply H | intros _; exact IH].
Qed.

Lemma appends_append_placeholder (Q : PlaceholderSpec -> Prop) (p : PlaceholderSpec) :
  Q p -> appends Q (append_placeholder p).
Proof.
  intros Hp st a st' H. injection H as _ <-. exists [p].
  split; [reflexivity | ]. intros q [<- | []]. exact Hp.
Qed.

Lemma as_str_inr (v : json) (s : string) : as_str v = inr s -> v = JStr s.
Proof. destruct v; try discriminate. intros H. now injection H as ->. Qed.

Section PlannerInvariants.

Variable py_repr : json -> string.
Variable float_parses : string -> bool.

Lemma appends_plan_option (required_value : bool) (option : json) :
  appends planned_well (plan_option required_value option).
Proof.
  unfold plan_option.
  repeat (apply appends_bind; [apply appends_lift | intros ?]).
  apply appends_append_placeholder. repeat split; try discriminate.
Qed.

Lemma appends_plan_field (field_spec : json) :
  appends planned_well (plan_field py_repr field_spec).
Proof.
  unfold plan_field.
  apply appends_bind; [apply appends_lift | intros type_value].
  do 4 (apply appends_bind; [apply appends_lift | intros ?]).
  destruct (eq_str type_value "info_block") eqn:Hinfo; [apply appends_ret | ].
  destruct (eq_str type_value "checkbox_group") eqn:Hgroup.
  { do 2 (apply appends_bind; [apply appends_lift | intros ?]).
    apply appends_for_each. intros x. apply appends_plan_option. }
  destruct (eq_str type_value "checkbox") eqn:Hbox.
  - apply appends_bind; [apply appends_lift | intros id].
    apply appends_bind_lift. intros ty Hty. apply as_str_inr in Hty. subst type_value.
    apply appends_bind; [apply appends_lift | intros text].
    apply appends_append_placeholder. cbn [eq_str] in *.
    repeat split; cbn [field_type]; intros ->; discriminate.
  - apply appends_bind; [apply appends_lift | intros id].
    do 2 (apply appends_bind; [apply appends_lift | intros ?]).
    apply appends_bind_lift. intros ty Hty. apply as_str_inr in Hty. subst type_value.
    apply appends_bind; [apply appends_lift | intros text].
    apply appends_append_placeholder. cbn [eq_str] in *.
    repeat split; cbn [field_type]; intros ->; discriminate.
Qed.

Lemma appends_plan_section (section : json) :
  appends planned_well (plan_section py_repr section).
Proof.
  unfold plan_section.
  repeat (apply appends_bind; [apply appends_lift | intros ?]).
  apply appends_for_each. intros x. apply appends_plan_field.
Qed.

Lemma build_base_document_invariants_aux (spec : json)
    (placeholders : list PlaceholderSpec) :
  build_base_document py_repr float_parses spec = inr placeholders ->
  forall p, List.In p placeholders -> planned_well p.
Proof.
  unfold build_base_document.
  match goal with
  | |- match ?run [] with _ => _ end = _ -> _ =>
      assert (Hrun : appends planned_well run)
  end.
  { repeat (apply appends_bind; [apply appends_lift | intros ?]).
    apply appends_for_each. intros x. apply appends_plan_section. }
  match goal with
  | |- match ?run [] with _ => _ end = _ -> _ =>
      destruct (run []) as [e | [u st]] eqn:H; [discriminate | ]
  end.
  intros Heq. injection Heq as <-.
  destruct (Hrun _ _ _ H) as [added [-> Hall]]. exact Hall.
Qed.

(** X9.  Whatever the specification, validated or not: when
    [build_base_document] returns, every placeholder of its list has the
    marker derived from its own id, a type that is neither info_block nor
    checkbox_group, and no options when it is a checkbox. *)
Theorem build_base_document_invariants (spec : json)
    (placeholders : list PlaceholderSpec) :
  build_base_document py_repr float_parses spec = inr placeholders ->
  forall p, List.In p placeholders ->
    marker p = marker_for (field_id p)
    /\ field_type p <> "info_block"
    /\ field_type p <> "checkbox_group"
    /\ (field_type p = "checkbox" -> options p = []).
Proof. exact (build_base_document_invariants_aux spec placeholders). Qed.

End PlannerInvariants.

(** *** The placeholders of a validated specification *)



Section PlaceholderShape.

Variable py_repr : json -> string.




End PlaceholderShape.

Section ValidatedPlaceholders.

Variable py_repr : json -> string.
Variable float_parses : string -> bool.



End ValidatedPlaceholders.

Section ResolvablePlaceholders.

Variable py_repr : json -> string.
Variable float_parses : string -> bool.
Variable word_doc : Type.
Variable set_range_text : word_doc -> Z -> Z -> string -> word_doc.
Variable add_content_control : word_doc -> Z -> control -> word_doc.


End ResolvablePlaceholders.

Section ValidatedColours.

Variable py_repr : json -> string.
Variable upper_beyond_ascii : ascii -> string.
Variable int16_other : string -> exn + Z.

(** X8.  Validation checks [str] of a colour, not the colour: in a
    validated specification each of the five colour keys is present and
    [str] of its value is an accepted colour, and [hex_to_rgb] converts the
    value when it is a string but raises [AttributeError] when it is not (a
    number such as 123456 passes validation). *)
Theorem validated_colours (spec : json) (key fallback : string) :
  validate_spec py_repr spec = inr tt ->
  List.In key BRANDING_COLOR_KEYS ->
  exists items branding value,
    spec = JDict items
    /\ dict_get "branding" items = Some (JDict branding)
    /\ dict_get key branding = Some value
    /\ is_hex_color (py_str py_repr value) = true
    /\ (is_str value = true ->
        exists c, hex_to_rgb upper_beyond_ascii int16_other value fallback = inr c)
    /\ (is_str value = false ->
        hex_to_rgb upper_beyond_ascii int16_other value fallback = inl AttributeError).
Proof.
  intros Hvalid Hkey.
  pose proof (validated_well_formed py_repr spec Hvalid) as Hwf.
  destruct spec as [ | | | | | | items]; try discriminate Hwf.
  cbn [well_formed] in Hwf. rewrite !andb_true_iff in Hwf.
  destruct Hwf as [[[[_ Hbrand] _] _] _]. unfold dict_get_default in Hbrand.
  destruct (dict_get "branding" items) as [[ | | | | | | branding] | ] eqn:Eb;
    try discriminate Hbrand.
  cbn [valid_branding] in Hbrand. apply andb_true_iff in Hbrand as [Hcolors _].
  rewrite forallb_forall in Hcolors. specialize (Hcolors key Hkey).
  unfold valid_color in Hcolors. apply andb_true_iff in Hcolors as [Hhas Hhex].
  apply dict_has_get in Hhas as [value Hvalue].
  unfold dict_get_default in Hhex. rewrite Hvalue in Hhex.
  exists items, branding, value.
  split; [reflexivity | split; [exact Eb | split; [exact Hvalue | ]]].
  split; [exact Hhex | ].
  destruct value as [ | | | | text | | ]; (split; [ | intros Hs]; try discriminate);
    try (intros Hs; discriminate Hs); try reflexivity.
  intros _. cbn [py_str] in Hhex.
  destruct (hex_to_rgb_accepted upper_beyond_ascii int16_other text fallback)
    as [c [Hc _]]; [now left | ].
  now exists c.
Qed.

End ValidatedColours.

(* ===================================================================== *)
(** ** The resolver: dropdown entries and the marker loop *)
(* ===================================================================== *)

Lemma dropdown_entries_length (tag : string) (opts : list string) :
  forall index, length (dropdown_entries tag index opts) = length opts.
Proof.
  induction opts as [|o opts IH]; intros index; cbn [dropdown_entries length];
    [reflexivity | now rewrite IH].
Qed.

Lemma dropdown_entries_lookup (tag : string) (opts : list string) :
  forall (index k : nat) (o : string),
    opts !! k = Some o ->
    dropdown_entries tag index opts !! k
    = Some (o, tag +:+ "_" +:+ pretty (index + k), index + k).
Proof.
  induction opts as [|o' opts IH]; intros index k o Hk; [discriminate | ].
  destruct k as [|k]; cbn [dropdown_entries].
  - injection Hk as ->. now rewrite Nat.add_0_r.
  - cbn in Hk. change (dropdown_entries tag (S index) opts !! k
                      = Some (o, tag +:+ "_" +:+ pretty (index + S k), index + S k)).
    rewrite (IH (S index) k o Hk).
    now replace (S index + k) with (index + S k) by lia.
Qed.

Lemma dropdown_entries_values (tag : string) (opts : list string) :
  forall (index : nat) (v : string),
    List.In v (map entry_value (dropdown_entries tag index opts)) ->
    exists j, index <= j /\ v = tag +:+ "_" +:+ pretty j.
Proof.
  induction opts as [|o opts IH]; intros index v; cbn [dropdown_entries map List.In];
    [intros [] | ].
  intros [<- | Hin].
  - exists index. split; [lia | reflexivity].
  - destruct (IH (S index) v Hin) as [j [Hj ->]]. exists j. split; [lia | reflexivity].
Qed.

Lemma entry_value_inj (tag : string) (a b : nat) :
  tag +:+ "_" +:+ pretty a = tag +:+ "_" +:+ pretty b -> a = b.
Proof.
  intros H. apply append_inv_head in H. apply (append_inv_head "_") in H.
  now apply pretty_nat_inj in H.
Qed.

Lemma dropdown_entries_distinct (tag : string) (opts : list string) :
  forall index, List.NoDup (map entry_value (dropdown_entries tag index opts)).
Proof.
  induction opts as [|o opts IH]; intros index; cbn [dropdown_entries map];
    constructor; [ | apply IH].
  intros Hin. apply dropdown_entries_values in Hin as [j [Hj Heq]].
  apply entry_value_inj in Heq. unfold entry_value in *. lia.
Qed.

Section ResolverFacts.

Variable word_doc : Type.
Variable content_end : word_doc -> Z.
Variable find_execute : word_doc -> Z -> Z -> string -> option (Z * Z).
Variable set_range_text : word_doc -> Z -> Z -> string -> word_doc.
Variable add_content_control : word_doc -> Z -> control -> word_doc.

(** X12.  For a dropdown, [replace_single_marker] empties the found range
    and adds one dropdown control at its start, titled with the label and
    tagged with the id.  Its list opens with the entry "Kies een optie" at
    position 1 with the value id_0; the option number k (counted from 0)
    follows at position k+2 with the value id_(k+2), so that no entry has the
    value id_1; the values are pairwise distinct. *)
Theorem dropdown_control_entries (doc : word_doc) (start stop : Z)
    (placeholder : PlaceholderSpec) :
  field_type placeholder = "dropdown" ->
  exists c,
    replace_single_marker word_doc set_range_text add_content_control
      doc (start, stop) placeholder
    = inr (add_content_control (set_range_text doc start stop EmptyString) start c)
    /\ control_kind c = WD_CONTENT_CONTROL_DROPDOWN
    /\ control_title c = label placeholder
    /\ control_tag c = field_id placeholder
    /\ length (control_entries c) = S (length (options placeholder))
    /\ control_entries c !! 0
       = Some ("Kies een optie", field_id placeholder +:+ "_0", 1)
    /\ (forall k o, options placeholder !! k = Some o ->
          control_entries c !! (S k)
          = Some (o, field_id placeholder +:+ "_" +:+ pretty (k + 2), k + 2))
    /\ ~ List.In (field_id placeholder +:+ "_1") (map entry_value (control_entries c))
    /\ List.NoDup (map entry_value (control_entries c)).
Proof.
  intros Hty. unfold replace_single_marker. rewrite Hty.
  cbn [String.eqb Ascii.eqb Bool.eqb].
  eexists. split; [reflexivity | ]. cbn [control_kind control_title control_tag control_entries].
  split; [reflexivity | split; [reflexivity | split; [reflexivity | ]]].
  split; [cbn [length]; now rewrite dropdown_entries_length | ].
  split; [reflexivity | ].
  assert (Hzero : forall v,
            List.In v (map entry_value
                         (dropdown_entries (field_id placeholder) 2 (options placeholder))) ->
            v <> field_id placeholder +:+ "_0" /\ v <> field_id placeholder +:+ "_1").
  { intros v Hv. apply dropdown_entries_values in Hv as [j [Hj ->]].
    split; intros Heq.
    - apply (entry_value_inj _ j 0) in Heq. lia.
    - apply (entry_value_inj _ j 1) in Heq. lia. }
  split; [ | split].
  - intros k o Hk. cbn [lookup list_lookup].
    rewrite (dropdown_entries_lookup _ _ 2 k o Hk).
    now replace (2 + k) with (k + 2) by lia.
  - cbn [map List.In entry_value fst snd]. intros [Heq | Hin].
    + apply append_inv_head in Heq. discriminate Heq.
    + now destruct (Hzero _ Hin) as [_ Hne].
  - cbn [map]. constructor; [ | apply dropdown_entries_distinct].
    intros Hin. now destruct (Hzero _ Hin) as [Hne _].
Qed.

(** A marker loop on a channel where replacing does not lengthen the
    document: the count it returns. *)
Lemma replace_marker_loop_count (placeholder : PlaceholderSpec) :
  (forall doc cursor start stop doc',
     find_execute doc cursor (content_end doc) (marker placeholder)
       = Some (start, stop) ->
     replace_single_marker word_doc set_range_text add_content_control
       doc (start, stop) placeholder = inr doc' ->
     (content_end doc' <= content_end doc)%Z) ->
  forall (fuel : nat) (doc doc' : word_doc) (cursor : Z) (count count' : nat),
    replace_marker_loop word_doc content_end find_execute set_range_text
      add_content_control fuel doc placeholder cursor count
    = Some (inr (count', doc')) ->
    count' <= count + Z.to_nat (content_end doc - cursor + 1)
    /\ (content_end doc' <= content_end doc)%Z.
Proof.
  intros Hshrink.
  induction fuel as [|fuel IH]; intros doc doc' cursor count count' H;
    [discriminate H | ].
  cbn [replace_marker_loop] in H.
  destruct (cursor <=? content_end doc)%Z eqn:Hle.
  2:{ injection H as <- <-. split; lia. }
  apply Z.leb_le in Hle.
  destruct (find_execute doc cursor (content_end doc) (marker placeholder))
    as [[start stop]|] eqn:Hfind.
  2:{ injection H as <- <-. split; lia. }
  destruct (replace_single_marker word_doc set_range_text add_content_control
              doc (start, stop) placeholder) as [e|doc1] eqn:Hrep; [discriminate H | ].
  pose proof (Hshrink _ _ _ _ _ Hfind Hrep) as Hend.
  destruct (IH _ _ _ _ _ H) as [Hcount Hend']. split; lia.
Qed.

(** X13.  On a channel where replacing a found marker does not lengthen
    the document, the loop of [replace_marker_with_control] ends: the cursor
    moves forward by at least one position per replacement, so that the loop
    makes at most [Content.End + 3] tests and returns a count of at most
    [Content.End + 1]. *)
Theorem replace_marker_with_control_ends (placeholder : PlaceholderSpec) :
  (forall doc cursor start stop doc',
     find_execute doc cursor (content_end doc) (marker placeholder)
       = Some (start, stop) ->
     replace_single_marker word_doc set_range_text add_content_control
       doc (start, stop) placeholder = inr doc' ->
     (content_end doc' <= content_end doc)%Z) ->
  forall doc : word_doc,
    exists r,
      replace_marker_with_control word_doc content_end find_execute set_range_text
        add_content_control (S (Z.to_nat (content_end doc + 2))) doc placeholder
      = Some r
      /\ forall count doc', r = inr (count, doc') ->
           count <= Z.to_nat (content_end doc + 1)
           /\ (content_end doc' <= content_end doc)%Z.
Proof.
  intros Hshrink doc. unfold replace_marker_with_control.
  destruct (replace_marker_loop_ends word_doc content_end find_execute
              set_range_text add_content_control placeholder Hshrink
              (S (Z.to_nat (content_end doc + 2))) doc 0 0) as [r Hr].
  { replace (content_end doc - 0 + 2)%Z with (content_end doc + 2)%Z by lia. lia. }
  exists r. split; [exact Hr | ]. intros count doc' ->.
  destruct (replace_marker_loop_count placeholder Hshrink _ _ _ _ _ _ Hr)
    as [Hcount Hend].
  split; [ | exact Hend].
  replace (content_end doc - 0 + 1)%Z with (content_end doc + 1)%Z in Hcount by lia.
  lia.
Qed.

End ResolverFacts.

(* ===================================================================== *)
(** ** The fallback: what becomes of the runs *)
(* ===================================================================== *)

Lemma fallback_paragraph_runs (replacement_map : list (string * string))
    (p : paragraph) :
  fallback_paragraph replacement_map p = p
  \/ fallback_paragraph replacement_map p
     = [MkRun (substitute_text replacement_map (paragraph_text p)) 0].
Proof.
  unfold fallback_paragraph, set_paragraph_text.
  destruct (negb _); [now right | now left].
Qed.

Lemma iter_fallback_paragraph_runs (replacement_map : list (string * string))
    (n : nat) (p : paragraph) :
  Nat.iter n (fallback_paragraph replacement_map) p = p
  \/ exists text, Nat.iter n (fallback_paragraph replacement_map) p = [MkRun text 0].
Proof.
  induction n as [|n IH]; cbn [Nat.iter nat_rect]; [now left | ].
  destruct (fallback_paragraph_runs replacement_map
              (Nat.iter n (fallback_paragraph replacement_map) p)) as [Hsame | Hnew].
  - unfold Nat.iter in Hsame, IH. rewrite Hsame. exact IH.
  - right. eexists. exact Hnew.
Qed.

Lemma fallback_visit_assigned (replacement_map : list (string * string))
    (st : fallback_state) (h' h : handle) :
  (List.In h (fb_assigned st) ->
   List.In h (fb_assigned (fallback_visit replacement_map st h')))
  /\ (~ List.In h (fb_assigned (fallback_visit replacement_map st h')) ->
      fb_store (fallback_visit replacement_map st h') !! h = fb_store st !! h).
Proof.
  unfold fallback_visit.
  destruct (fb_store st !! h') as [p|]; [ | now split].
  destruct (negb _); [ | now split]. cbn [fb_assigned fb_store]. split.
  - intros Hin. apply in_app_iff. now left.
  - intros Hout. apply list_lookup_insert_ne. intros ->.
    apply Hout, in_app_iff. right. now left.
Qed.

(** A handle that the loop never assigned has the paragraph it had. *)
Lemma fallback_loop_unassigned (replacement_map : list (string * string))
    (hs : list handle) (h : handle) :
  forall st,
    (List.In h (fb_assigned st) ->
     List.In h (fb_assigned (fold_left (fallback_visit replacement_map) hs st)))
    /\ (~ List.In h (fb_assigned (fold_left (fallback_visit replacement_map) hs st)) ->
        fb_store (fold_left (fallback_visit replacement_map) hs st) !! h
        = fb_store st !! h).
Proof.
  induction hs as [|h' hs IH]; intros st; cbn [fold_left]; [now split | ].
  destruct (IH (fallback_visit replacement_map st h')) as [IH1 IH2].
  destruct (fallback_visit_assigned replacement_map st h' h) as [V1 V2].
  split; [tauto | ]. intros Hout. rewrite (IH2 Hout). apply V2. tauto.
Qed.

(** X14.  [apply_plain_fallback] keeps the body, the tables and the number
    of paragraphs of the document.  A paragraph whose text was never assigned
    keeps its runs and their formatting; every other paragraph keeps its runs
    or comes out as a single run with the formatting of a fresh run, so that
    the character formatting of a row that held a marker is lost. *)
Theorem fallback_collapses_runs (doc : Document)
    (placeholders : list PlaceholderSpec) :
  let saved := apply_plain_fallback doc placeholders in
  let assigned := fb_assigned (apply_plain_fallback_run doc placeholders) in
  doc_paragraphs saved = doc_paragraphs doc
  /\ doc_tables saved = doc_tables doc
  /\ length (doc_store saved) = length (doc_store doc)
  /\ (forall h p', doc_store saved !! h = Some p' ->
        exists p, doc_store doc !! h = Some p
          /\ (p' = p \/ p' = [MkRun (paragraph_text p') 0])
          /\ (~ List.In h assigned -> p' = p)).
Proof.
  intros saved assigned. split; [reflexivity | split; [reflexivity | ]].
  unfold handle in *.
  assert (Hlook : forall h : nat,
            doc_store saved !! h
            = Nat.iter (count_occ Nat.eq_dec (iter_all_paragraphs doc) h)
                (fallback_paragraph (build_replacement_map placeholders))
              <$> (doc_store doc !! h)).
  { intros h. unfold saved. cbn [doc_store apply_plain_fallback].
    unfold apply_plain_fallback_run. now rewrite fallback_loop_lookup. }
  split.
  - destruct (Nat.lt_trichotomy (length (doc_store saved)) (length (doc_store doc)))
      as [Hlt | [Heq | Hgt]]; [exfalso | exact Heq | exfalso].
    + destruct (lookup_lt_is_Some_2 (doc_store doc) (length (doc_store saved)) Hlt)
        as [p Hp].
      pose proof (Hlook (length (doc_store saved))) as H. rewrite Hp in H.
      apply lookup_lt_Some in H. lia.
    + destruct (lookup_lt_is_Some_2 (doc_store saved) (length (doc_store doc)) Hgt)
        as [p Hp].
      rewrite Hlook in Hp.
      destruct (doc_store doc !! length (doc_store doc)) as [q|] eqn:Hq;
        [ | cbn in Hp; discriminate Hp].
      apply lookup_lt_Some in Hq. lia.
  - intros h p' Hp'. pose proof Hp' as Hsaved. rewrite Hlook in Hp'.
    destruct (doc_store doc !! h) as [p|] eqn:Hp; [ | discriminate Hp'].
    cbn in Hp'. injection Hp' as <-. exists p. split; [reflexivity | split].
    + destruct (iter_fallback_paragraph_runs (build_replacement_map placeholders)
                  (count_occ Nat.eq_dec (iter_all_paragraphs doc) h) p)
        as [Hsame | [text Hnew]]; [now left | right].
      rewrite Hnew. cbn [paragraph_text fold_right run_text].
      now rewrite append_nil_r.
    + intros Hout.
      destruct (fallback_loop_unassigned (build_replacement_map placeholders)
                  (iter_all_paragraphs doc) h (MkFallbackState (doc_store doc) []))
        as [_ Hkeep].
      specialize (Hkeep Hout). cbn [fb_store] in Hkeep. unfold handle in Hkeep.
      unfold saved in Hsaved. cbn [doc_store apply_plain_fallback] in Hsaved.
      unfold apply_plain_fallback_run in Hsaved. unfold handle in Hsaved.
      rewrite Hkeep, Hp in Hsaved.
      now injection Hsaved.
Qed.

(* ===================================================================== *)
(** ** The logo path and the run of the script *)
(* ===================================================================== *)


Section ScriptFacts.

Variable py_repr : json -> string.
Variable path : Type.
Variable Path : string -> path.
Variable path_str : path -> string.
Variable is_absolute : path -> bool.
Variable joinpath : path -> path -> path.
Variable parent : path -> path.
Variable path_resolve : path -> path.
Variable cwd : path.
Variable path_exists : path -> bool.
Variable is_file : path -> bool.
Variable read_text : path -> error + string.
Variable json_loads : string -> string + json.
Variable temporary_directory : error + string.
Variable built : json -> path -> path -> error + list PlaceholderSpec.
Variable fallback_applied : path -> list PlaceholderSpec -> error + unit.
Variable parents_made : path -> error + unit.
Variable copied : path -> path -> error + unit.
Variable com_applied : path -> path -> list PlaceholderSpec -> error + unit.
Variable builtin_message : exn -> string.

Let load := load_spec path path_str path_exists read_text json_loads.
Let resolve_logo :=
  resolve_logo_path py_repr path Path path_str is_absolute joinpath parent
    path_resolve cwd path_exists is_file.
Let run :=
  run_generation py_repr path Path path_str is_absolute joinpath parent
    path_resolve cwd path_exists is_file read_text json_loads
    temporary_directory built fallback_applied parents_made copied com_applied.
Let script :=
  main py_repr path Path path_str is_absolute joinpath parent
    path_resolve cwd path_exists is_file read_text json_loads
    temporary_directory built fallback_applied parents_made copied com_applied
    builtin_message.


(** X16.  [run_generation] checks before it touches a file.  When loading,
    validating or resolving the logo raises, the run ends with that exception
    and no event at all; with [--validate-only] a run that passes the three
    checks prints its two lines and ends, whatever [--no-com] says; and a run
    that has created, changed or removed a file or directory is one without
    [--validate-only] whose specification was loaded and validated and whose
    logo was found. *)
Theorem run_generation_checks_first (spec_path output_path : path)
    (override_logo : option string) (validate_only no_com : bool) :
  let checked :=
    match load spec_path with
    | inl e => inl e
    | inr spec =>
        match validate_spec py_repr spec with
        | inl e => inl (Raised e)
        | inr _ => resolve_logo spec_path spec override_logo
        end
    end in
  let outcome := run spec_path output_path override_logo validate_only no_com in
  (forall e, checked = inl e -> outcome = ([], inl e))
  /\ (forall logo_path, checked = inr logo_path -> validate_only = true ->
        outcome
        = ([Printed ("Validatie geslaagd voor spec: " +:+ path_str spec_path);
            Printed ("Gevonden logo: " +:+ path_str logo_path)], inr tt))
  /\ (existsb touches_files (fst outcome) = true ->
        validate_only = false /\ exists logo_path, checked = inr logo_path).
Proof.
  intros checked outcome. unfold checked, outcome, run, run_generation.
  fold load. fold resolve_logo.
  destruct (load spec_path) as [e | spec]; cbn [r_bind r_lift].
  { split; [intros e' H; now injection H as <- | ].
    split; [intros l H; discriminate H | intros H; discriminate H]. }
  destruct (validate_spec py_repr spec) as [e | []]; cbn [r_bind r_lift].
  { split; [intros e' H; now injection H as <- | ].
    split; [intros l H; discriminate H | intros H; discriminate H]. }
  destruct (resolve_logo spec_path spec override_logo) as [e | logo_path];
    cbn [r_bind r_lift].
  { split; [intros e' H; now injection H as <- | ].
    split; [intros l H; discriminate H | intros H; discriminate H]. }
  split; [intros e H; discriminate H | ].
  destruct validate_only.
  - split; [intros l H _; now injection H as <- | ].
    cbn. intros H. discriminate H.
  - split; [intros l _ H; discriminate H | ].
    intros _. split; [reflexivity | now exists logo_path].
Qed.

(** X17.  A specification that [validate_spec] does not accept ends the
    script before anything is built, written or printed to standard output:
    [main] prints one line to standard error and returns 1.  The line is
    "Fout: " and the error list, one error per line, for a
    [SpecValidationError]; it is "Onverwachte fout: " and the [str] of the
    exception for the [KeyError] of an absent font or path key and for the
    [TypeError] of an unhashable field type. *)
Theorem main_on_rejected_spec (args : Namespace) (spec : json) (e : exn) :
  load (path_resolve (Path (arg_spec args))) = inr spec ->
  validate_spec py_repr spec = inl e ->
  exists line,
    script args = ([PrintedErr line], 1%Z)
    /\ ((exists message, e = SpecValidationError message
                         /\ line = "Fout: " +:+ message)
        \/ (exists key, List.In key BRANDING_STRING_KEYS /\ e = KeyError key
                        /\ line = "Onverwachte fout: " +:+ py_repr (JStr key))
        \/ (e = TypeError
            /\ line = "Onverwachte fout: " +:+ builtin_message TypeError)).
Proof.
  intros Hload Hvalid. unfold script, main, run_generation.
  fold load. rewrite Hload. cbn [r_bind r_lift]. rewrite Hvalid.
  cbn [r_bind r_lift app]. eexists. split; [reflexivity | ].
  destruct (validate_spec_raises py_repr spec e Hvalid)
    as [[message ->] | [-> | [key [Hkey ->]]]].
  - left. now exists message.
  - right. right. now split.
  - right. left. now exists key.
Qed.

(** X18.  The two ways of finishing a document exclude each other, and the
    temporary directory never outlives the run.  A run that called the
    interactive resolver called neither the fallback nor the copy, and the
    other way round; the copy is made only with [--no-com], after a fallback
    that returned; a run that created the temporary directory removed it as
    its last event, whether it returned or raised; and one of the two
    closing lines is printed exactly when the run, made without
    [--validate-only], returned. *)
Theorem run_generation_paths (spec_path output_path : path)
    (override_logo : option string) (validate_only no_com : bool) :
  let outcome := run spec_path output_path override_logo validate_only no_com in
  let events := fst outcome in
  (existsb is_com_event events = true ->
     no_com = false /\ existsb is_fallback_event events = false)
  /\ (existsb is_fallback_event events = true ->
        no_com = true /\ existsb is_com_event events = false)
  /\ (forall source target, List.In (Copied source target) events ->
        exists placeholders,
          List.In (FallbackApplied source placeholders) events
          /\ fallback_applied source placeholders = inr tt
          /\ target = output_path)
  /\ (List.In TempDirCreated events -> last_event events = Some TempDirRemoved)
  /\ (List.In (Printed ("Document opgeslagen op: " +:+ path_str output_path)) events
      \/ List.In (Printed ("Document met interactieve velden opgeslagen op: "
                             +:+ path_str output_path)) events
      <-> snd outcome = inr tt /\ validate_only = false).
Proof.
  intros outcome events. unfold events, outcome, run, run_generation.
  destruct (load_spec _ _ _ _ _ spec_path) as [e | spec]; cbn [r_bind r_lift].
  { cbn. repeat split; try discriminate; try tauto; intros; try discriminate;
      try contradiction; intuition discriminate. }
  destruct (validate_spec py_repr spec) as [e | []]; cbn [r_bind r_lift].
  { cbn. repeat split; try discriminate; try tauto; intros; try discriminate;
      try contradiction; intuition discriminate. }
  destruct (resolve_logo_path _ _ _ _ _ _ _ _ _ _ _ spec_path spec override_logo)
    as [e | logo_path]; cbn [r_bind r_lift].
  { cbn. repeat split; try discriminate; try tauto; intros; try discriminate;
      try contradiction; intuition discriminate. }
  destruct validate_only.
  { cbn. repeat split; try discriminate; try tauto; intros; try discriminate;
      intuition (try discriminate). }
  unfold with_temporary_directory.
  destruct temporary_directory as [e | tmp_dir].
  { cbn. repeat split; try discriminate; try tauto; intros; try discriminate;
      try contradiction; intuition discriminate. }
  set (base := joinpath (Path tmp_dir) (Path "base_form.docx")).
  unfold call. cbn [r_bind].
  destruct (built spec logo_path base) as [e | placeholders].
  { cbn. repeat split; try discriminate; try tauto; intros; try discriminate;
      intuition (try discriminate). }
  destruct no_com.
  - destruct (fallback_applied base placeholders) as [e | []] eqn:Hfb.
    { cbn. repeat split; try discriminate; try tauto; intros; try discriminate;
        intuition (try discriminate). }
    destruct (parents_made output_path) as [e | []].
    { cbn. repeat split; try discriminate; try tauto; intros; try discriminate;
        intuition (try discriminate). }
    destruct (copied base output_path) as [e | []].
    + cbn. repeat split; try discriminate; try tauto; intros; try discriminate;
        try (intuition (try discriminate); fail).
      exists placeholders.
      repeat match goal with
             | H : _ \/ _ |- _ => destruct H as [H | H]; try discriminate H
             | H : False |- _ => destruct H
             end.
      injection H as <- <-. repeat split; auto.
    + cbn. repeat split; try discriminate; try tauto; intros; try discriminate;
        try (intuition (try discriminate); fail).
      exists placeholders.
      repeat match goal with
             | H : _ \/ _ |- _ => destruct H as [H | H]; try discriminate H
             | H : False |- _ => destruct H
             end.
      injection H as <- <-. repeat split; auto.
  - destruct (com_applied base output_path placeholders) as [e | []].
    + cbn. repeat split; try discriminate; try tauto; intros; try discriminate;
        intuition (try discriminate).
    + cbn. repeat split; try discriminate; try tauto; intros; try discriminate;
        intuition (try discriminate).
Qed.

End ScriptFacts.

(* ===================================================================== *)
(** ** The fallback on the placeholders of a validated specification *)
(* ===================================================================== *)








Section ValidatedFallback.

Variable py_repr : json -> string.
Variable float_parses : string -> bool.


End ValidatedFallback.

(* ===================================================================== *)
(** ** The properties at sample inputs *)
(* ===================================================================== *)

Lemma clean_hex_normal_form_witness :
  exists h,
    clean_hex sample_upper_beyond_ascii (JStr "  #1f332c ") "#FFFFFF" = inr h
    /\ six_upper_hex_digits h = true
    /\ is_hex_color h = true
    /\ forall fallback', clean_hex sample_upper_beyond_ascii (JStr h) fallback' = inr h.
Proof.
  apply (clean_hex_normal_form sample_upper_beyond_ascii "  #1f332c " "#FFFFFF").
  left. reflexivity.
Defined.

Lemma hex_to_rgb_round_trip_witness :
  exists c,
    hex_to_rgb sample_upper_beyond_ascii sample_int16_other
      (JStr "donkergroen") "#c99642" = inr c
    /\ (0 <= red c <= 255)%Z /\ (0 <= green c <= 255)%Z /\ (0 <= blue c <= 255)%Z
    /\ clean_hex sample_upper_beyond_ascii (JStr "donkergroen") "#c99642"
       = inr (rgb_hex c).
Proof.
  apply (hex_to_rgb_round_trip sample_upper_beyond_ascii sample_int16_other
           "donkergroen" "#c99642").
  right. reflexivity.
Defined.

Lemma validate_spec_exceptions_witness :
  (exists message, TypeError = SpecValidationError message)
  \/ stray_exception TypeError.
Proof.
  apply (validate_spec_exceptions sample_repr (JDict list_type_items) TypeError).
  vm_compute. reflexivity.
Defined.

Lemma validate_spec_missing_branding_key_witness :
  validate_spec sample_repr (JDict no_body_font_items) = inl (KeyError "body_font").
Proof.
  apply (validate_spec_missing_branding_key sample_repr no_body_font_items
           [("primary_color", JStr "#17372c"); ("secondary_color", JStr "#2d5647");
            ("accent_color", JStr "#c99642"); ("surface_color", JStr "#f4f1ea");
            ("text_color", JStr "#1f332c"); ("heading_font", JStr "Georgia");
            ("logo_path", JStr "assets/logo.png")]).
  - reflexivity.
  - reflexivity.
  - reflexivity.
Defined.

Lemma validate_spec_unhashable_type_witness :
  validate_spec sample_repr (JDict list_type_items) = inl TypeError.
Proof.
  apply (validate_spec_unhashable_type sample_repr list_type_items
           [("id", JStr "s2"); ("title", JStr "Meer");
            ("fields", JList [sample_field "city" "date" []; list_type_field;
                              sample_field "street" "date" []])]
           [sample_section [sample_field "name" "text_short" []]] []
           [sample_field "city" "date" []] [sample_field "street" "date" []]
           list_type_field); reflexivity.
Defined.

Lemma validated_colours_witness :
  exists items branding value,
    number_colour_spec = JDict items
    /\ dict_get "branding" items = Some (JDict branding)
    /\ dict_get "primary_color" branding = Some value
    /\ is_hex_color (py_str sample_repr value) = true
    /\ (is_str value = true ->
        exists c, hex_to_rgb sample_upper_beyond_ascii sample_int16_other
                    value "#17372c" = inr c)
    /\ (is_str value = false ->
        hex_to_rgb sample_upper_beyond_ascii sample_int16_other value "#17372c"
        = inl AttributeError).
Proof.
  apply (validated_colours sample_repr sample_upper_beyond_ascii sample_int16_other
           number_colour_spec "primary_color" "#17372c").
  - vm_compute. reflexivity.
  - cbn. tauto.
Defined.

Lemma build_base_document_invariants_witness :
  marker ph_name = marker_for (field_id ph_name)
  /\ field_type ph_name <> "info_block"
  /\ field_type ph_name <> "checkbox_group"
  /\ (field_type ph_name = "checkbox" -> options ph_name = []).
Proof.
  refine (build_base_document_invariants sample_repr sample_float_parses
            (sample_spec_with (JDict [])
               [sample_section
                  [JDict [("id", JStr "name"); ("label", JStr "Naam");
                          ("type", JStr "text_short"); ("required", JBool true);
                          ("help_text", JStr EmptyString)]]])
            [ph_name] _ ph_name _).
  - vm_compute. reflexivity.
  - cbn. tauto.
Defined.



Lemma dropdown_control_entries_witness :
  exists c,
    replace_single_marker text_doc td_set_range_text td_add_content_control
      (MkTextDoc "Stad: [[FIELD:city]]" []) (6%Z, 20%Z) ph_city
    = inr (td_add_content_control
             (td_set_range_text (MkTextDoc "Stad: [[FIELD:city]]" []) 6 20 EmptyString)
             6 c)
    /\ control_kind c = WD_CONTENT_CONTROL_DROPDOWN
    /\ control_title c = "Stad"
    /\ control_tag c = "city"
    /\ length (control_entries c) = 3
    /\ control_entries c !! 0 = Some ("Kies een optie", "city_0", 1)
    /\ (forall k o, ["Utrecht"; "Zwolle"] !! k = Some o ->
          control_entries c !! (S k)
          = Some (o, "city" +:+ "_" +:+ pretty (k + 2), k + 2))
    /\ ~ List.In "city_1" (map entry_value (control_entries c))
    /\ List.NoDup (map entry_value (control_entries c)).
Proof.
  apply (dropdown_control_entries text_doc td_set_range_text td_add_content_control
           (MkTextDoc "Stad: [[FIELD:city]]" []) 6 20 ph_city).
  reflexivity.
Defined.

Lemma string_take_length (n : nat) (s : string) :
  String.length (string_take n s) = Nat.min n (String.length s).
Proof.
  revert s. induction n as [|n IH]; intros [|c s]; cbn [string_take String.length Nat.min];
    try reflexivity.
  now rewrite IH.
Qed.

Lemma string_drop_length (n : nat) (s : string) :
  String.length (string_drop n s) = String.length s - n.
Proof.
  revert s. induction n as [|n IH]; intros [|c s]; cbn [string_drop String.length];
    try reflexivity; try lia. apply IH.
Qed.

(** On the text channel, putting a checkbox in the place of a found marker
    does not lengthen the text. *)
Lemma td_checkbox_not_longer (doc doc' : text_doc) (cursor start stop : Z) :
  td_find doc cursor (td_content_end doc) (marker ph_pain) = Some (start, stop) ->
  replace_single_marker text_doc td_set_range_text td_add_content_control
    doc (start, stop) ph_pain = inr doc' ->
  (td_content_end doc' <= td_content_end doc)%Z.
Proof.
  unfold td_find. intros Hfind Hrep.
  destruct (find_from _ _ _) as [i|]; [ | discriminate Hfind].
  destruct (_ <=? _)%Z; [ | discriminate Hfind].
  injection Hfind as <- <-.
  cbn in Hrep. injection Hrep as <-.
  unfold td_content_end, td_add_content_control, td_set_range_text. cbn [td_text].
  rewrite !append_length, string_take_length, string_drop_length.
  cbn [String.length]. lia.
Qed.

Lemma replace_marker_with_control_ends_witness :
  exists r,
    replace_marker_with_control text_doc td_content_end td_find td_set_range_text
      td_add_content_control (S (Z.to_nat (td_content_end sample_text_doc + 2)))
      sample_text_doc ph_pain = Some r
    /\ forall count doc', r = inr (count, doc') ->
         count <= Z.to_nat (td_content_end sample_text_doc + 1)
         /\ (td_content_end doc' <= td_content_end sample_text_doc)%Z.
Proof.
  apply (replace_marker_with_control_ends text_doc td_content_end td_find
           td_set_range_text td_add_content_control ph_pain).
  intros doc cursor start stop doc'. apply td_checkbox_not_longer.
Defined.


Lemma main_on_rejected_spec_witness :
  exists line,
    main quoting_repr string id id sample_is_absolute sample_joinpath sample_parent
      sample_resolve "/work" sample_exists sample_exists sample_read_text
      sample_json_loads (inr "/tmp/menyentuh_form_0")
      (fun _ _ _ => inr []) (fun _ _ => inr tt) (fun _ => inr tt)
      (fun _ _ => inr tt) (fun _ _ _ => inr tt) sample_builtin_message default_args
    = ([PrintedErr line], 1%Z)
    /\ ((exists message, KeyError "body_font" = SpecValidationError message
                         /\ line = "Fout: " +:+ message)
        \/ (exists key, List.In key BRANDING_STRING_KEYS
                        /\ KeyError "body_font" = KeyError key
                        /\ line = "Onverwachte fout: " +:+ quoting_repr (JStr key))
        \/ (KeyError "body_font" = TypeError
            /\ line = "Onverwachte fout: " +:+ sample_builtin_message TypeError)).
Proof.
  apply (main_on_rejected_spec quoting_repr string id id sample_is_absolute
           sample_joinpath sample_parent sample_resolve "/work" sample_exists
           sample_exists sample_read_text sample_json_loads
           (inr "/tmp/menyentuh_form_0")
           (fun _ _ _ => inr []) (fun _ _ => inr tt) (fun _ => inr tt)
           (fun _ _ => inr tt) (fun _ _ _ => inr tt) sample_builtin_message
           default_args (JDict no_body_font_items) (KeyError "body_font")).
  - reflexivity.
  - vm_compute. reflexivity.
Defined.

Lemma clean_hex_spellings_witness :
  clean_hex sample_upper_beyond_ascii (JStr (" " +:+ "1f332c" +:+ nl)) "#FFFFFF"
  = inr (py_upper sample_upper_beyond_ascii "1f332c")
  /\ clean_hex sample_upper_beyond_ascii
       (JStr (" " +:+ String "#" "1f332c" +:+ nl)) "#FFFFFF"
     = inr (py_upper sample_upper_beyond_ascii "1f332c")
  /\ clean_hex sample_upper_beyond_ascii
       (JStr (py_upper sample_upper_beyond_ascii "1f332c")) "#FFFFFF"
     = inr (py_upper sample_upper_beyond_ascii "1f332c")
  /\ six_upper_hex_digits (py_upper sample_upper_beyond_ascii "1f332c") = true.
Proof.
  apply (clean_hex_spellings sample_upper_beyond_ascii " " "1f332c" nl "#FFFFFF");
    reflexivity.
Defined.

